(** * Configuration resolution of lean-cli JSON modules

    A shallow embedding of [lean/models/json_module.py] (class [JsonModule]:
    filter gate, [get_default], [config_build], [get_settings]) and of
    [_update_settings] from [lean/components/util/json_modules_handler.py],
    followed by the properties of the resolution engine.

    Conventions of the embedding.
    - Python objects are values of [pyval]; strings are sequences of ASCII
      characters; floats and tuples are not represented.
    - A Python [dict] is an association list without duplicate keys that
      keeps insertion order ([dict_set] overwrites in place or appends).
    - A computation that may raise returns [exc]; code that also mutates the
      entries of a module returns the mutated entries next to its outcome.
    - [logger.debug] calls do not influence control flow or state and are not
      recorded; [logger.warning], the [print] fallback, the interactive
      prompt and [_save_property] are recorded as [event]s. *)

Set Warnings "-register-all".
From Stdlib Require Import String Ascii List ZArith Bool Arith Lia.
Import ListNotations.
Open Scope string_scope.
Open Scope list_scope.

(** ** Python values and exceptions *)

Inductive pyval : Type :=
| PNone
| PBool (b : bool)
| PInt (z : Z)
| PStr (s : string)
| PList (l : list pyval)
| PDict (d : list (string * pyval)).

Inductive pyexc : Type :=
| RuntimeError (msg : string)
| ValueError
| TypeError
| AttributeError
| KeyError
| OtherError (tag : string).

Inductive exc (A : Type) : Type :=
| Ok (a : A)
| Raise (e : pyexc).
Arguments Ok {A} a.
Arguments Raise {A} e.

Definition bind {A B : Type} (m : exc A) (k : A -> exc B) : exc B :=
  match m with
  | Ok a => k a
  | Raise e => Raise e
  end.

Notation "x <- m ;; k" := (bind m (fun x => k))
  (at level 100, m at next level, right associativity).

(** [try: m except Exception: h] *)
Definition try_except {A : Type} (m : exc A) (h : A) : A :=
  match m with
  | Ok a => a
  | Raise _ => h
  end.

Definition is_none (v : pyval) : bool :=
  match v with PNone => true | _ => false end.

Definition is_str (v : pyval) : bool :=
  match v with PStr _ => true | _ => false end.

(** Truth value of an object, as tested by [if not target_value]. *)
Definition truthy (v : pyval) : bool :=
  match v with
  | PNone => false
  | PBool b => b
  | PInt z => negb (Z.eqb z 0)
  | PStr s => negb (String.eqb s EmptyString)
  | PList l => match l with [] => false | _ => true end
  | PDict d => match d with [] => false | _ => true end
  end.

(** ** Strings *)

Module Str.

(** [c in s] for a one-character [c]. *)
Fixpoint has_char (c : ascii) (s : string) : bool :=
  match s with
  | EmptyString => false
  | String a s' => Ascii.eqb a c || has_char c s'
  end.

(** [s.replace(a, b)] for one-character [a] and [b]. *)
Fixpoint replace_char (a b : ascii) (s : string) : string :=
  match s with
  | EmptyString => EmptyString
  | String c s' =>
      String (if Ascii.eqb c a then b else c) (replace_char a b s')
  end.

(** [s.replace(old, new)] for a non-empty [old]: occurrences are replaced
    from the left and do not overlap.  [skip] counts the characters of an
    occurrence that was just replaced and are still to be dropped. *)
Fixpoint replace_from (old new s : string) (skip : nat) : string :=
  match s with
  | EmptyString => EmptyString
  | String c s' =>
      match skip with
      | S k => replace_from old new s' k
      | O =>
          if String.prefix old s
          then (new ++ replace_from old new s' (String.length old - 1))%string
          else String c (replace_from old new s' 0)
      end
  end.

Definition replace (old new s : string) : string := replace_from old new s 0.

(** [sub in s] for strings. *)
Fixpoint contains (sub s : string) : bool :=
  String.prefix sub s ||
  match s with
  | EmptyString => false
  | String _ s' => contains sub s'
  end.

(** Whitespace of [str.strip()] among the ASCII characters. *)
Definition is_space (c : ascii) : bool :=
  let n := nat_of_ascii c in
  ((9 <=? n) && (n <=? 13) || (28 <=? n) && (n <=? 32))%nat.

Fixpoint lstrip (s : string) : string :=
  match s with
  | EmptyString => EmptyString
  | String c s' => if is_space c then lstrip s' else s
  end.

Fixpoint rstrip (s : string) : string :=
  match s with
  | EmptyString => EmptyString
  | String c s' =>
      match rstrip s' with
      | EmptyString => if is_space c then EmptyString else String c EmptyString
      | r => String c r
      end
  end.

Definition strip (s : string) : string := rstrip (lstrip s).

(** [s.split(sep)] for a one-character [sep]: [cur] is the piece being
    read, in reverse. *)
Fixpoint rev_string (acc s : string) : string :=
  match s with
  | EmptyString => acc
  | String c s' => rev_string (String c acc) s'
  end.

Fixpoint split_from (sep : ascii) (cur : string) (s : string) : list string :=
  match s with
  | EmptyString => [rev_string EmptyString cur]
  | String c s' =>
      if Ascii.eqb c sep
      then rev_string EmptyString cur :: split_from sep EmptyString s'
      else split_from sep (String c cur) s'
  end.

Definition split (sep : ascii) (s : string) : list string :=
  split_from sep EmptyString s.

(** [sep.join(l)] *)
Fixpoint join (sep : string) (l : list string) : string :=
  match l with
  | [] => EmptyString
  | [x] => x
  | x :: rest => (x ++ sep ++ join sep rest)%string
  end.

Definition chars (s : string) : list string :=
  map (fun c => String c EmptyString) (list_ascii_of_string s).

End Str.

(** ** Built-in [str()] and [repr()] *)

Module Repr.

Definition digit (n : nat) : ascii := ascii_of_nat (48 + n).

Fixpoint pos_digits (fuel : nat) (n : N) (acc : string) : string :=
  match fuel with
  | O => acc
  | S f =>
      let acc' := String (digit (N.to_nat (N.modulo n 10))) acc in
      if N.ltb n 10 then acc' else pos_digits f (N.div n 10) acc'
  end.

Definition nat_str (n : N) : string := pos_digits (S (N.to_nat (N.log2 n))) n EmptyString.

Definition int_str (z : Z) : string :=
  match z with
  | Z0 => "0"
  | Zpos p => nat_str (Npos p)
  | Zneg p => ("-" ++ nat_str (Npos p))%string
  end.

Definition hex_digit (n : nat) : ascii :=
  if (n <? 10)%nat then ascii_of_nat (48 + n) else ascii_of_nat (87 + n).

Definition quote1 : ascii := "'"%char.
Definition quote2 : ascii := ascii_of_nat 34.
Definition backslash : ascii := ascii_of_nat 92.

Definition escape_char (q c : ascii) : string :=
  let n := nat_of_ascii c in
  if Ascii.eqb c backslash then String backslash (String backslash EmptyString)
  else if Ascii.eqb c q then String backslash (String q EmptyString)
  else if (n =? 9)%nat then String backslash "t"
  else if (n =? 10)%nat then String backslash "n"
  else if (n =? 13)%nat then String backslash "r"
  else if ((n <? 32) || (126 <? n))%nat
       then String backslash
              (String "x" (String (hex_digit (n / 16)) (String (hex_digit (n mod 16)) EmptyString)))
  else String c EmptyString.

Fixpoint escape (q : ascii) (s : string) : string :=
  match s with
  | EmptyString => EmptyString
  | String c s' => (escape_char q c ++ escape q s')%string
  end.

(** [repr] of a string: single quotes, unless the string has a single
    quote and no double quote. *)
Definition str_repr (s : string) : string :=
  let q := if Str.has_char quote1 s && negb (Str.has_char quote2 s)
           then quote2 else quote1 in
  String q (escape q s ++ String q EmptyString)%string.

Fixpoint py_repr (v : pyval) : string :=
  match v with
  | PNone => "None"
  | PBool true => "True"
  | PBool false => "False"
  | PInt z => int_str z
  | PStr s => str_repr s
  | PList l => ("[" ++ Str.join ", " (map py_repr l) ++ "]")%string
  | PDict d =>
      ("{" ++ Str.join ", "
                (map (fun kv => str_repr (fst kv) ++ ": " ++ py_repr (snd kv)) d)
           ++ "}")%string
  end.

Definition py_str (v : pyval) : string :=
  match v with
  | PStr s => s
  | _ => py_repr v
  end.

End Repr.

(** ** Dictionaries with string keys *)

Definition pydict : Type := list (string * pyval).

Fixpoint dict_get {V : Type} (d : list (string * V)) (k : string) : option V :=
  match d with
  | [] => None
  | (k', v) :: d' => if String.eqb k' k then Some v else dict_get d' k
  end.

Definition dict_mem {V : Type} (d : list (string * V)) (k : string) : bool :=
  match dict_get d k with Some _ => true | None => false end.

(** [d[k] = v] *)
Fixpoint dict_set {V : Type} (d : list (string * V)) (k : string) (v : V)
  : list (string * V) :=
  match d with
  | [] => [(k, v)]
  | (k', v') :: d' =>
      if String.eqb k' k then (k', v) :: d' else (k', v') :: dict_set d' k v
  end.

Definition dict_keys {V : Type} (d : list (string * V)) : list string := map fst d.
Definition dict_values {V : Type} (d : list (string * V)) : list V := map snd d.

(** [key in obj] for a string [key]: membership in a dict's keys, in a
    list's elements, as a substring of a string; other objects are not
    containers. *)
Definition py_in (key : string) (obj : pyval) : exc bool :=
  match obj with
  | PDict d => Ok (dict_mem d key)
  | PList l => Ok (existsb (fun x => match x with PStr s => String.eqb s key | _ => false end) l)
  | PStr s => Ok (Str.contains key s)
  | _ => Raise TypeError
  end.

(** [obj[key]] for a string [key]. *)
Definition py_getitem (obj : pyval) (key : string) : exc pyval :=
  match obj with
  | PDict d => match dict_get d key with Some v => Ok v | None => Raise KeyError end
  | _ => Raise TypeError
  end.

(** ** Configuration entries and modules

    [lean/models/configuration.py] is not among the files verified here.  An
    entry carries the attributes that [JsonModule] reads; the class of an
    entry is a tag; the predicate of a condition, [condition.check(value)],
    is a field of the condition and may raise. *)

Inductive ConfigKind : Type :=
| InternalInputUserInput
| AuthConfiguration
| BrokerageEnvConfiguration
| PathParameterUserInput
| OtherConfiguration.

Definition kind_eqb (a b : ConfigKind) : bool :=
  match a, b with
  | InternalInputUserInput, InternalInputUserInput
  | AuthConfiguration, AuthConfiguration
  | BrokerageEnvConfiguration, BrokerageEnvConfiguration
  | PathParameterUserInput, PathParameterUserInput
  | OtherConfiguration, OtherConfiguration => true
  | _, _ => false
  end.

(** Modelled from the spec: the class of conditions is declared in
    [lean/models/configuration.py]; a condition is a pair of the id of the
    entry it depends on and a predicate, of which [JsonModule] reads
    [_dependent_config_id] and calls [check]. *)
Record Condition : Type := {
  _dependent_config_id : string;
  check : pyval -> exc bool
}.

(** Modelled from the spec: an element of [value_options], a condition
    and the candidate value ([option._condition], [option._value]). *)
Record ConditionalValueOption : Type := {
  _condition : Condition;
  _option_value : pyval
}.

(** Modelled from the spec: the filter of an entry, an ordered set of
    conditions ([config._filter._conditions]). *)
Record Filter : Type := {
  _conditions : list Condition
}.

(** Modelled from the spec: the class [Configuration] and its subclasses
    are declared in [lean/models/configuration.py]; an entry has the
    fields of the data model, under the attribute names that [JsonModule]
    reads, and starts with the value [None]. *)
Record Configuration : Type := {
  kind : ConfigKind;
  _id : string;
  _value : pyval;
  _optional : bool;
  _input_default : pyval;
  _filter : Filter;
  _is_conditional : bool;
  _value_options : list ConditionalValueOption
}.

(** [config._value = v] *)
Definition set_value (c : Configuration) (v : pyval) : Configuration :=
  {| kind := kind c; _id := _id c; _value := v; _optional := _optional c;
     _input_default := _input_default c; _filter := _filter c;
     _is_conditional := _is_conditional c; _value_options := _value_options c |}.

Record JsonModule : Type := {
  _module_type : string;
  _platform : string;
  _module_id : string;
  _display_name : string;
  _lean_configs : list Configuration
}.

(** [self._lean_configs] after the entries were mutated *)
Definition with_configs (self : JsonModule) (cfgs : list Configuration) : JsonModule :=
  {| _module_type := _module_type self; _platform := _platform self;
     _module_id := _module_id self; _display_name := _display_name self;
     _lean_configs := cfgs |}.

Inductive event : Type :=
| LoggerWarning (msg : string)
| Printed (msg : string)
| Prompted (id : string) (default : pyval) (hide_input : bool)
| SavedProperty (id : string) (v : pyval).

(** ** JsonModule *)

Section JsonModule.

(** [lean/constants.py] is not among the files verified here; the two
    identifiers that name the module's type and platform in a condition
    are parameters. *)
Variable MODULE_TYPE : string.
Variable MODULE_PLATFORM : string.

(** [configuration.ask_user_for_input(default_value, logger, hide_input)],
    the blocking prompt. *)
Variable ask_user_for_input : Configuration -> pyval -> bool -> pyval.

(** [JsonModule.get_config_value_from_name]: the pattern [[idx] = ...]
    raises unless exactly one entry has the name. *)
Definition get_config_value_from_name (self : JsonModule) (target_name : string)
  : exc pyval :=
  match filter (fun c => String.eqb (_id c) target_name) (_lean_configs self) with
  | [c] => Ok (_value c)
  | _ => Raise ValueError
  end.

(** [all(condition.check(value) for value in values)] *)
Fixpoint check_all (condition : Condition) (values : list pyval) : exc bool :=
  match values with
  | [] => Ok true
  | value :: rest =>
      b <- check condition value ;;
      if b then check_all condition rest else Ok false
  end.

(** The loop of [JsonModule._check_if_config_passes_filters] over the
    conditions that are left. *)
Fixpoint passes_conditions (self : JsonModule) (all_for_platform_type : bool)
         (conditions : list Condition) : exc bool :=
  match conditions with
  | [] => Ok true
  | condition :: rest =>
      let test (target_value : pyval) : exc bool :=
        if negb (truthy target_value) then Ok false
        else match target_value with
             | PDict d => check_all condition (dict_values d)
             | _ =>
                 b <- check condition target_value ;;
                 if negb b then Ok false
                 else passes_conditions self all_for_platform_type rest
             end in
      if String.eqb (_dependent_config_id condition) MODULE_TYPE
      then test (PStr (_module_type self))
      else if String.eqb (_dependent_config_id condition) MODULE_PLATFORM
      then test (PStr (_platform self))
      else if all_for_platform_type
      then passes_conditions self all_for_platform_type rest
      else
        target_value <- get_config_value_from_name self (_dependent_config_id condition) ;;
        test target_value
  end.

Definition _check_if_config_passes_filters (self : JsonModule)
           (config : Configuration) (all_for_platform_type : bool) : exc bool :=
  passes_conditions self all_for_platform_type (_conditions (_filter config)).

Definition convert_lean_key_to_variable (lean_key : string) : string :=
  Str.replace_char "-" "_" lean_key.

Definition convert_variable_to_lean_key (variable_key : string) : string :=
  Str.replace_char "_" "-" variable_key.

(** [JsonModule.get_default]; [lean_config] is [PNone] for Python's
    [None], [environment_name] is [None] or a string. *)
Definition get_default (lean_config : pyval) (key : string)
           (environment_name : option string) : exc pyval :=
  if is_none lean_config then Ok PNone
  else
    in_environment <-
      match environment_name with
      | Some env =>
          if String.eqb env EmptyString then Ok false
          else
            has_envs <- py_in "environments" lean_config ;;
            if has_envs then
              envs <- py_getitem lean_config "environments" ;;
              has_env <- py_in env envs ;;
              if has_env then
                block <- py_getitem envs env ;;
                py_in key block
              else Ok false
            else Ok false
      | None => Ok false
      end ;;
    match in_environment, environment_name with
    | true, Some env =>
        envs <- py_getitem lean_config "environments" ;;
        block <- py_getitem envs env ;;
        py_getitem block key
    | _, _ =>
        has_key <- py_in key lean_config ;;
        if has_key then py_getitem lean_config key else Ok PNone
    end.

(** The helper [_normalized_options_map] of [config_build]: the body of
    its loop, then the loop. *)
Definition normalized_insert (out : pydict) (k : string) (v : pyval) : pydict :=
  let out1 := dict_set out k v in
  let out2 := if Str.has_char "-" k
              then dict_set out1 (Str.replace_char "-" "_" k) v else out1 in
  if Str.has_char "_" k
  then dict_set out2 (Str.replace_char "_" "-" k) v else out2.

Definition _normalized_options_map (opts : pydict) : pydict :=
  fold_left (fun out kv => normalized_insert out (fst kv) (snd kv)) opts [].

(** The prefill loops of [config_build] and [get_settings]: an entry whose
    value is [None] takes the default of the persisted configuration; a
    failing lookup leaves it as it is. *)
Definition prefill_entry (lean_config : pyval) (environment_name : option string)
           (_cfg : Configuration) : Configuration :=
  if is_none (_value _cfg)
  then match get_default lean_config (_id _cfg) environment_name with
       | Ok v => set_value _cfg v
       | Raise _ => _cfg
       end
  else _cfg.

Definition prefill (lean_config : pyval) (environment_name : option string)
           (cfgs : list Configuration) : list Configuration :=
  map (prefill_entry lean_config environment_name) cfgs.

(** Steps 1 to 3 of the loop body of [config_build]: the candidate value
    from the CLI options, the properties, the persisted configuration. *)
Definition candidate (user_provided_options properties : pydict)
           (lean_config : pyval) (environment_name : option string)
           (configuration : Configuration) : pyval :=
  let lean_key := _id configuration in
  let var_key := convert_lean_key_to_variable lean_key in
  let provided (k : string) : option pyval :=
    match dict_get user_provided_options k with
    | Some v => if is_none v then None else Some v
    | None => None
    end in
  match provided var_key with
  | Some v => v
  | None =>
      match provided lean_key with
      | Some v => v
      | None =>
          match dict_get properties var_key with
          | Some v => v
          | None =>
              match dict_get properties lean_key with
              | Some v => v
              | None =>
                  try_except (get_default lean_config lean_key environment_name) PNone
              end
          end
      end
  end.

(** [user_choice is None or (isinstance(user_choice, str) and
    user_choice.strip() == "")] *)
Definition is_empty (user_choice : pyval) : bool :=
  match user_choice with
  | PNone => true
  | PStr s => String.eqb (Str.strip s) EmptyString
  | _ => false
  end.

(** The rest of the loop body: what becomes of an empty candidate.  The
    result is the value stored in the entry, the flag appended to
    [missing_options] if any, and the events. *)
Definition settle (interactive hide_input : bool)
           (user_provided_options properties : pydict)
           (configuration : Configuration) (user_choice : pyval)
  : pyval * list string * list event :=
  let lean_key := _id configuration in
  let var_key := convert_lean_key_to_variable lean_key in
  if is_empty user_choice then
    if interactive then
      let default_value := _input_default configuration in
      let answer := ask_user_for_input configuration default_value hide_input in
      (answer, [],
       Prompted lean_key default_value hide_input ::
         (if kind_eqb (kind configuration) BrokerageEnvConfiguration then []
          else [SavedProperty lean_key answer]))
    else if _optional configuration then
      (if is_none (_input_default configuration) then user_choice
       else _input_default configuration, [], [])
    else
      let present_in_properties :=
        dict_mem properties lean_key || dict_mem properties var_key in
      let present_in_user_opts :=
        dict_mem user_provided_options lean_key
        || dict_mem user_provided_options var_key in
      if present_in_properties || present_in_user_opts
      then (if is_none user_choice then PStr EmptyString else user_choice, [], [])
      else (user_choice, [("--" ++ lean_key)%string], [])
  else (user_choice, [], []).

(** The main loop of [config_build].  [done] holds the entries already
    visited, [todo] the entries still to visit; together they are
    [self._lean_configs]. *)
Fixpoint build_loop (self : JsonModule) (lean_config : pyval)
         (interactive hide_input : bool)
         (user_provided_options properties : pydict)
         (environment_name : option string)
         (done todo : list Configuration)
         (missing_options : list string) (log : list event)
  : exc (list string) * list Configuration * list event :=
  match todo with
  | [] => (Ok missing_options, done, log)
  | configuration :: rest =>
      match _check_if_config_passes_filters
              (with_configs self (done ++ todo)) configuration false with
      | Raise e => (Raise e, done ++ todo, log)
      | Ok false =>
          build_loop self lean_config interactive hide_input
                     user_provided_options properties environment_name
                     (done ++ [configuration]) rest missing_options log
      | Ok true =>
          let user_choice :=
            candidate user_provided_options properties lean_config
                      environment_name configuration in
          let '(v, missing, events) :=
            settle interactive hide_input user_provided_options properties
                   configuration user_choice in
          build_loop self lean_config interactive hide_input
                     user_provided_options properties environment_name
                     (done ++ [set_value configuration v]) rest
                     (missing_options ++ missing) (log ++ events)
      end
  end.

Definition missing_message (missing_options : list string) : string :=
  ("You are missing the following option"
     ++ (if (1 <? List.length missing_options)%nat then "s" else EmptyString)
     ++ ": " ++ Str.join ", " missing_options)%string.

(** [JsonModule.config_build] up to its last statement: the options are
    normalised, the entries prefilled and visited.  The result is the list
    [missing_options] (or the exception that ended the loop), the entries
    as the loop left them, and the events. *)
Definition resolve_entries (self : JsonModule) (lean_config : pyval)
           (interactive : bool) (user_provided_options properties : pydict)
           (environment_name : option string) (hide_input : bool)
  : exc (list string) * list Configuration * list event :=
  let user_provided_options := _normalized_options_map user_provided_options in
  let properties := _normalized_options_map properties in
  let prefilled := prefill lean_config environment_name (_lean_configs self) in
  build_loop self lean_config interactive hide_input
             user_provided_options properties environment_name
             [] prefilled [] [].

(** [JsonModule.config_build].  The result is the outcome (return or
    raise), the module with its entries as the call left them, and the
    events. *)
Definition config_build (self : JsonModule) (lean_config : pyval)
           (interactive : bool) (user_provided_options properties : pydict)
           (environment_name : option string) (hide_input : bool)
  : exc unit * JsonModule * list event :=
  match resolve_entries self lean_config interactive user_provided_options
                        properties environment_name hide_input with
  | (Raise e, cfgs, log) => (Raise e, with_configs self cfgs, log)
  | (Ok missing_options, cfgs, log) =>
      if (0 <? List.length missing_options)%nat
      then (Raise (RuntimeError (missing_message missing_options)),
            with_configs self cfgs, log)
      else (Ok tt, with_configs self cfgs, log)
  end.

(** *** get_settings *)

Definition dq : string := String (ascii_of_nat 34) EmptyString.
Definition newline : string := String (ascii_of_nat 10) EmptyString.

(** The one-character string of a backslash, and the two characters,
    backslash and n, of an escaped newline. *)
Definition backslash_string : string := String Repr.backslash EmptyString.
Definition escaped_newline : string := String Repr.backslash "n".

(** A warning goes to the logger when there is one, to [print] otherwise. *)
Definition warn (logger : bool) (to_logger to_print : string) : event :=
  if logger then LoggerWarning to_logger else Printed to_print.

Definition no_match_warning (logger : bool) (id : string) : event :=
  warn logger
    ("No condition matched among present options for " ++ dq ++ id ++ dq
       ++ ". Treating as explicitly empty to allow non-interactive execution.")%string
    ("WARNING: No condition matched among present options for " ++ dq ++ id ++ dq
       ++ ". Treating as explicitly empty to allow non-interactive execution.")%string.

Definition conditional_error_warning (logger : bool) (id : string) : event :=
  warn logger
    ("Error while evaluating conditional config " ++ dq ++ id ++ dq
       ++ ". Treating as empty.")%string
    ("WARNING: Error while evaluating conditional config " ++ dq ++ id ++ dq
       ++ ".")%string.

Definition skipping_warning (logger : bool) (id : string) : event :=
  warn logger
    ("Skipping config '" ++ id ++ "' due to error.")%string
    ("WARNING: Skipping config '" ++ id ++ "' due to error.")%string.

(** The value of the entry an option depends on: by name, and when that
    raises, the value of the first entry of that name, or [None]. *)
Definition dependent_value (self : JsonModule) (dep_id : string) : pyval :=
  match get_config_value_from_name self dep_id with
  | Ok v => v
  | Raise _ =>
      match find (fun c => String.eqb (_id c) dep_id) (_lean_configs self) with
      | Some c => _value c
      | None => PNone
      end
  end.

(** The loop over [config._value_options]: the value of the first option
    whose condition holds, if any. *)
Fixpoint first_matching_option (self : JsonModule)
         (options : list ConditionalValueOption) : exc (option pyval) :=
  match options with
  | [] => Ok None
  | option :: rest =>
      let dep_id := _dependent_config_id (_condition option) in
      let target_value := dependent_value self dep_id in
      matches <- check (_condition option) target_value ;;
      if matches then Ok (Some (_option_value option))
      else first_matching_option self rest
  end.

Definition is_conditional_internal (config : Configuration) : bool :=
  kind_eqb (kind config) InternalInputUserInput && _is_conditional config.

(** The body of the loop that evaluates the conditional entries. *)
Definition evaluate_conditional (self : JsonModule) (logger : bool)
           (config : Configuration) : Configuration * list event :=
  match first_matching_option self (_value_options config) with
  | Ok (Some v) => (set_value config v, [])
  | Ok None =>
      (set_value config
         (if is_none (_value config) then PStr EmptyString else _value config),
       [no_match_warning logger (_id config)])
  | Raise _ => (config, [conditional_error_warning logger (_id config)])
  end.

Fixpoint conditional_loop (self : JsonModule) (logger : bool)
         (done todo : list Configuration) (log : list event)
  : list Configuration * list event :=
  match todo with
  | [] => (done, log)
  | config :: rest =>
      if is_conditional_internal config then
        let '(config', events) :=
          evaluate_conditional (with_configs self (done ++ todo)) logger config in
        conditional_loop self logger (done ++ [config']) rest (log ++ events)
      else conditional_loop self logger (done ++ [config]) rest log
  end.

(** The string stored for an entry: [str] of the value, escaped newlines
    unescaped, backslashes turned into slashes. *)
Definition setting_string (v : pyval) : string :=
  Str.replace backslash_string "/"
    (Str.replace escaped_newline newline
       (if is_none v then EmptyString else Repr.py_str v)).

(** The loop that builds the settings dict. *)
Fixpoint settings_loop (self : JsonModule) (logger : bool)
         (todo : list Configuration)
         (settings : list (string * string)) (log : list event)
  : list (string * string) * list event :=
  match todo with
  | [] => (settings, log)
  | configuration :: rest =>
      match _check_if_config_passes_filters self configuration false with
      | Raise _ =>
          settings_loop self logger rest settings
                        (log ++ [skipping_warning logger (_id configuration)])
      | Ok false => settings_loop self logger rest settings log
      | Ok true =>
          let settings' :=
            match kind configuration, _value configuration with
            | AuthConfiguration, PDict d =>
                fold_left
                  (fun s kv => dict_set s (fst kv) (Repr.py_str (snd kv)))
                  d settings
            | _, v => dict_set settings (_id configuration) (setting_string v)
            end in
          settings_loop self logger rest settings' log
      end
  end.

(** The prefill of [get_settings] runs when the globals hold both a
    [lean_config] and a [logger]. *)
Definition prefill_if_context (lean_config : pyval)
           (environment_name : option string) (logger : bool)
           (cfgs : list Configuration) : list Configuration :=
  if negb (is_none lean_config) && logger
  then prefill lean_config environment_name cfgs
  else cfgs.

(** [JsonModule.get_settings].  The three objects the method reads from
    the globals of its module are arguments: [lean_config] ([PNone] when
    the global is missing), [environment_name], and whether there is a
    [logger].  The result is the settings dict, the module with its
    entries as the call left them, and the events. *)
Definition get_settings (self : JsonModule) (lean_config : pyval)
           (environment_name : option string) (logger : bool)
  : list (string * string) * JsonModule * list event :=
  let prefilled :=
    prefill_if_context lean_config environment_name logger (_lean_configs self) in
  let '(cfgs, log) := conditional_loop self logger [] prefilled [] in
  let self' := with_configs self cfgs in
  let '(settings, log') :=
    settings_loop self' logger cfgs [("id", _module_id self)] log in
  (settings, self', log').

End JsonModule.

(** ** The settings merge: [_update_settings] *)

Section UpdateSettings.

(** [json.loads] of the Python library. *)
Variable loads : string -> exc pyval.

(** The helper [_get_env_properties]; every exception gives [{}]. *)
Definition _get_env_properties (environment_name : option string)
           (lean_config : pyval) : pyval :=
  match lean_config with
  | PDict config =>
      let envs :=
        match dict_get config "environments" with
        | Some v => v
        | None => PDict []
        end in
      let env_block : exc pyval :=
        match environment_name with
        | Some env =>
            if String.eqb env EmptyString then Ok (PDict [])
            else match envs with
                 | PDict d =>
                     Ok (match dict_get d env with
                         | Some v => v
                         | None => PDict []
                         end)
                 | _ => Raise AttributeError
                 end
        | None => Ok (PDict [])
        end in
      match env_block with
      | Ok (PDict block) =>
          match dict_get block "properties" with
          | Some v => v
          | None => PDict []
          end
      | Ok _ => PDict []
      | Raise _ => PDict []
      end
  | _ => PDict []
  end.

Definition list_like_keys : list string := ["data-queue-handler"].

Definition is_list_like (key : string) : bool :=
  existsb (String.eqb key) list_like_keys.

(** [list(obj)] *)
Definition py_list (obj : pyval) : exc (list pyval) :=
  match obj with
  | PList l => Ok l
  | PStr s => Ok (map PStr (Str.chars s))
  | PDict d => Ok (map PStr (dict_keys d))
  | _ => Raise TypeError
  end.

(** Objects that can be keys of a dict. *)
Definition hashable (v : pyval) : bool :=
  match v with
  | PList _ | PDict _ => false
  | _ => true
  end.

Definition number_of (v : pyval) : option Z :=
  match v with
  | PBool true => Some 1%Z
  | PBool false => Some 0%Z
  | PInt z => Some z
  | _ => None
  end.

(** [a == b] on hashable objects; [True == 1] and [False == 0]. *)
Definition key_eqb (a b : pyval) : bool :=
  match a, b with
  | PNone, PNone => true
  | PStr s, PStr t => String.eqb s t
  | _, _ =>
      match number_of a, number_of b with
      | Some x, Some y => Z.eqb x y
      | _, _ => false
      end
  end.

(** [list(dict.fromkeys(l).keys())]: the first of equal keys stays, in
    the order of first appearance; [seen] holds the keys so far. *)
Fixpoint fromkeys_from (seen l : list pyval) : exc (list pyval) :=
  match l with
  | [] => Ok seen
  | x :: rest =>
      if negb (hashable x) then Raise TypeError
      else if existsb (key_eqb x) seen then fromkeys_from seen rest
      else fromkeys_from (seen ++ [x]) rest
  end.

Definition fromkeys (l : list pyval) : exc (list pyval) := fromkeys_from [] l.

Definition empty_ish (s : string) : bool :=
  existsb (String.eqb (Str.strip s)) [EmptyString; "None"; "null"].

(** The comprehension [[v.strip() for v in value.split(",") if v.strip()]] *)
Definition csv_tokens (value : string) : list pyval :=
  map PStr
      (filter (fun t => negb (String.eqb t EmptyString))
              (map Str.strip (Str.split "," value))).

(** The value of a property of a list-like key, as a list. *)
Definition parse_list_value (value : pyval) : list pyval :=
  match value with
  | PList l => l
  | PStr s =>
      if empty_ish s then []
      else match loads s with
           | Ok (PList l) => l
           | Ok parsed_value => [parsed_value]
           | Raise _ =>
               if Str.has_char "," s then csv_tokens s else [PStr s]
           end
  | _ => try_except (py_list value) [value]
  end.

(** The body of the loop over the properties of the environment. *)
Definition update_entry (target : pydict) (key : string) (value : pyval)
  : exc pydict :=
  if is_none value then Ok target
  else
    match dict_get target key with
    | None => Ok (dict_set target key value)
    | Some current =>
        if is_list_like key then
          let parsed_value := parse_list_value value in
          existing <- py_list (if truthy current then current else PList []) ;;
          merged <- fromkeys (existing ++ parsed_value) ;;
          Ok (dict_set target key (PList merged))
        else Ok (dict_set target key value)
    end.

Fixpoint update_loop (items : pydict) (target : pydict) : exc unit * pydict :=
  match items with
  | [] => (Ok tt, target)
  | (key, value) :: rest =>
      match update_entry target key value with
      | Ok target' => update_loop rest target'
      | Raise e => (Raise e, target)
      end
  end.

(** [_update_settings(logger, environment_name, target, lean_config)]:
    the outcome and [target] as the call left it. *)
Definition _update_settings (environment_name : option string)
           (target : pydict) (lean_config : pyval) : exc unit * pydict :=
  match _get_env_properties environment_name lean_config with
  | PDict env_props => update_loop env_props target
  | _ => (Raise AttributeError, target)
  end.

End UpdateSettings.

(** ** A reader for JSON texts

    An instance of [loads] for the texts of arrays, strings, integers and
    the three literals; it stands for [json.loads] on such texts in the
    examples below.  Every other text is rejected. *)

Module Json.

Definition is_ws (c : ascii) : bool :=
  let n := nat_of_ascii c in
  ((n =? 32) || (n =? 9) || (n =? 10) || (n =? 13))%nat.

Fixpoint skip_ws (s : list ascii) : list ascii :=
  match s with
  | c :: r => if is_ws c then skip_ws r else s
  | [] => []
  end.

Definition is_digit (c : ascii) : bool :=
  let n := nat_of_ascii c in ((48 <=? n) && (n <=? 57))%nat.

(** The characters of a string up to its closing quote; [acc] is what
    was read, in reverse. *)
Fixpoint read_string (s : list ascii) (acc : string) : option (string * list ascii) :=
  match s with
  | [] => None
  | c :: r =>
      if Ascii.eqb c Repr.quote2 then Some (Str.rev_string EmptyString acc, r)
      else if Ascii.eqb c Repr.backslash then
        match r with
        | e :: r' =>
            if Ascii.eqb e Repr.quote2 || Ascii.eqb e Repr.backslash || Ascii.eqb e "/"
            then read_string r' (String e acc)
            else if Ascii.eqb e "n" then read_string r' (String (ascii_of_nat 10) acc)
            else if Ascii.eqb e "t" then read_string r' (String (ascii_of_nat 9) acc)
            else if Ascii.eqb e "r" then read_string r' (String (ascii_of_nat 13) acc)
            else None
        | [] => None
        end
      else if (nat_of_ascii c <? 32)%nat then None
      else read_string r (String c acc)
  end.

Fixpoint read_digits (s : list ascii) (acc : Z) : Z * list ascii :=
  match s with
  | c :: r =>
      if is_digit c
      then read_digits r (10 * acc + Z.of_nat (nat_of_ascii c - 48))%Z
      else (acc, s)
  | [] => (acc, [])
  end.

(** An integer without a leading zero, fraction or exponent. *)
Definition read_int (s : list ascii) : option (Z * list ascii) :=
  match s with
  | c :: r =>
      if is_digit c then
        let '(z, rest) := read_digits s 0%Z in
        let leading_zero :=
          Ascii.eqb c "0" && match r with d :: _ => is_digit d | [] => false end in
        let more :=
          match rest with
          | d :: _ => Ascii.eqb d "." || Ascii.eqb d "e" || Ascii.eqb d "E"
          | [] => false
          end in
        if leading_zero || more then None else Some (z, rest)
      else None
  | [] => None
  end.

Fixpoint read_value (fuel : nat) (s : list ascii) : option (pyval * list ascii) :=
  match fuel with
  | O => None
  | S f =>
      match skip_ws s with
      | "["%char :: r =>
          match skip_ws r with
          | "]"%char :: r' => Some (PList [], r')
          | _ =>
              match read_elements f r with
              | Some (l, r') => Some (PList l, r')
              | None => None
              end
          end
      | "t"%char :: "r"%char :: "u"%char :: "e"%char :: r => Some (PBool true, r)
      | "f"%char :: "a"%char :: "l"%char :: "s"%char :: "e"%char :: r =>
          Some (PBool false, r)
      | "n"%char :: "u"%char :: "l"%char :: "l"%char :: r => Some (PNone, r)
      | "-"%char :: r =>
          match read_int r with
          | Some (z, r') => Some (PInt (- z), r')
          | None => None
          end
      | c :: r =>
          if Ascii.eqb c Repr.quote2 then
            match read_string r EmptyString with
            | Some (str, r') => Some (PStr str, r')
            | None => None
            end
          else
            match read_int (c :: r) with
            | Some (z, r') => Some (PInt z, r')
            | None => None
            end
      | [] => None
      end
  end
with read_elements (fuel : nat) (s : list ascii) : option (list pyval * list ascii) :=
  match fuel with
  | O => None
  | S f =>
      match read_value f s with
      | Some (v, r) =>
          match skip_ws r with
          | ","%char :: r' =>
              match read_elements f r' with
              | Some (l, r'') => Some (v :: l, r'')
              | None => None
              end
          | "]"%char :: r' => Some ([v], r')
          | _ => None
          end
      | None => None
      end
  end.

Definition loads (text : string) : exc pyval :=
  let s := list_ascii_of_string text in
  match read_value (2 * List.length s + 2) s with
  | Some (v, rest) =>
      match skip_ws rest with
      | [] => Ok v
      | _ => Raise (OtherError "JSONDecodeError")
      end
  | None => Raise (OtherError "JSONDecodeError")
  end.

End Json.

(** ** Further methods of JsonModule and of the handler *)

(** String operations of the methods below, on ASCII characters. *)
Module Text.

(** [c.lower()] *)
Definition lower_char (c : ascii) : ascii :=
  let n := nat_of_ascii c in
  if ((65 <=? n) && (n <=? 90))%nat then ascii_of_nat (n + 32) else c.

(** [s.lower()] *)
Fixpoint lower (s : string) : string :=
  match s with
  | EmptyString => EmptyString
  | String c s' => String (lower_char c) (lower s')
  end.

(** [s.rfind(c)] for a one-character [c]: the highest index of [c], or
    [-1].  [i] is the index of the head of [s], [found] the answer so far. *)
Fixpoint rfind_from (c : ascii) (s : string) (i found : Z) : Z :=
  match s with
  | EmptyString => found
  | String a s' => rfind_from c s' (i + 1)%Z (if Ascii.eqb a c then i else found)
  end.

Definition rfind (c : ascii) (s : string) : Z := rfind_from c s 0%Z (-1)%Z.

Fixpoint drop (n : nat) (s : string) : string :=
  match n, s with
  | S k, String _ s' => drop k s'
  | _, _ => s
  end.

(** [s[start:]] for a [start] that is not negative. *)
Definition slice_from (s : string) (start : Z) : string := drop (Z.to_nat start) s.

End Text.

Section FurtherMethods.

Variable MODULE_TYPE : string.
Variable MODULE_PLATFORM : string.
Variable ask_user_for_input : Configuration -> pyval -> bool -> pyval.

(** [config.has_filter_dependency], an attribute that the constructor of
    [Configuration] sets; [lean/models/configuration.py] is not among the
    files verified here. *)
Variable has_filter_dependency : Configuration -> bool.

Definition get_id (self : JsonModule) : string := _module_id self.
Definition get_name (self : JsonModule) : string := _display_name self.

(** The loop of [JsonModule.sort_configs] with its three lists. *)
Fixpoint sort_loop (configs sorted_configs filter_configs brokerage_configs
                    : list Configuration) : list Configuration :=
  match configs with
  | [] => brokerage_configs ++ sorted_configs ++ filter_configs
  | config :: rest =>
      if kind_eqb (kind config) BrokerageEnvConfiguration
      then sort_loop rest sorted_configs filter_configs (brokerage_configs ++ [config])
      else if has_filter_dependency config
      then sort_loop rest sorted_configs (filter_configs ++ [config]) brokerage_configs
      else sort_loop rest (sorted_configs ++ [config]) filter_configs brokerage_configs
  end.

(** [JsonModule.sort_configs] *)
Definition sort_configs (self : JsonModule) : list Configuration :=
  sort_loop (_lean_configs self) [] [] [].

(** The value of an entry as [is_value_in_config] compares it: a string in
    lower case, a list with its elements in lower case. *)
Fixpoint lower_elements (l : list pyval) : exc (list pyval) :=
  match l with
  | [] => Ok []
  | PStr s :: rest =>
      rest' <- lower_elements rest ;; Ok (PStr (Text.lower s) :: rest')
  | _ :: _ => Raise AttributeError
  end.

Definition lower_value (value : pyval) : exc pyval :=
  match value with
  | PStr s => Ok (PStr (Text.lower s))
  | PList l => l' <- lower_elements l ;; Ok (PList l')
  | _ => Ok value
  end.

(** The loop of [JsonModule.is_value_in_config]; [searched_value] is in
    lower case already. *)
Fixpoint value_in_configs (searched_value : string) (cfgs : list Configuration)
  : exc bool :=
  match cfgs with
  | [] => Ok false
  | config :: rest =>
      value <- lower_value (_value config) ;;
      found <- py_in searched_value value ;;
      if found then Ok true else value_in_configs searched_value rest
  end.

(** [JsonModule.is_value_in_config] *)
Definition is_value_in_config (self : JsonModule) (searched_value : string) : exc bool :=
  value_in_configs (Text.lower searched_value) (_lean_configs self).

(** The loop of the dict comprehension of [JsonModule.get_paths_to_mount]. *)
Fixpoint paths_loop (self : JsonModule) (todo : list Configuration) (paths : pydict)
  : exc pydict :=
  match todo with
  | [] => Ok paths
  | config :: rest =>
      if kind_eqb (kind config) PathParameterUserInput then
        active <- _check_if_config_passes_filters MODULE_TYPE MODULE_PLATFORM
                    self config false ;;
        paths_loop self rest
                   (if active then dict_set paths (_id config) (_value config)
                    else paths)
      else paths_loop self rest paths
  end.

(** [JsonModule.get_paths_to_mount] *)
Definition get_paths_to_mount (self : JsonModule) : exc pydict :=
  paths_loop self (_lean_configs self) [].

(** The first loop of [find_module]: the first module whose id or name is
    the target name, or the part of it after the last dot. *)
Fixpoint find_by_name (target_module_name : string) (module_class_name : Z)
         (module_list : list JsonModule) : option JsonModule :=
  match module_list with
  | [] => None
  | module :: rest =>
      let module_id := Text.lower (get_id module) in
      let module_name := Text.lower (get_name module) in
      let class_name :=
        Text.slice_from target_module_name (module_class_name + 1)%Z in
      if String.eqb module_id target_module_name
         || String.eqb module_name target_module_name
      then Some module
      else if (negb (Z.eqb module_class_name (-1)) && String.eqb module_id class_name)
              || String.eqb module_name class_name
      then Some module
      else find_by_name target_module_name module_class_name rest
  end.

(** The second loop of [find_module], over the values of the entries; it
    has no [break], the last module that matches stays. *)
Fixpoint find_by_value (target_module_name : string) (module_class_name : Z)
         (module_list : list JsonModule) (target_module : option JsonModule)
  : exc (option JsonModule) :=
  match module_list with
  | [] => Ok target_module
  | module :: rest =>
      in_config <- is_value_in_config module target_module_name ;;
      matches <-
        (if in_config then Ok true
         else if negb (Z.eqb module_class_name (-1))
         then is_value_in_config
                module (Text.slice_from target_module_name (module_class_name + 1)%Z)
         else Ok false) ;;
      find_by_value target_module_name module_class_name rest
                    (if matches then Some module else target_module)
  end.

(** [find_module(target_module_name, module_list, logger)] *)
Definition find_module (target_module_name : string) (module_list : list JsonModule)
  : exc JsonModule :=
  let target_module_name := Text.lower target_module_name in
  let module_class_name := Text.rfind "." target_module_name in
  match find_by_name target_module_name module_class_name module_list with
  | Some target_module => Ok target_module
  | None =>
      found <- find_by_value target_module_name module_class_name module_list None ;;
      match found with
      | Some target_module => Ok target_module
      | None =>
          Raise (RuntimeError
                   ("Failed to resolve module for name: '" ++ target_module_name
                      ++ "'")%string)
      end
  end.

(** [_update_settings] as [config_build_for_name] calls it, with the
    module itself as [target]: a [JsonModule] has none of the methods that
    the test [key not in target] needs, so the test raises for the first
    property that is not [None]. *)
Fixpoint update_module_loop (items : pydict) : exc unit :=
  match items with
  | [] => Ok tt
  | (key, value) :: rest =>
      if is_none value then update_module_loop rest else Raise TypeError
  end.

Definition _update_settings_of_module (environment_name : option string)
           (lean_config : pyval) : exc unit :=
  match _get_env_properties environment_name lean_config with
  | PDict env_props => update_module_loop env_props
  | _ => Raise AttributeError
  end.

(** [config_build_for_name]: the module that was found and configured, or
    the exception, and the events of [config_build]. *)
Definition config_build_for_name (lean_config : pyval) (target_module_name : string)
           (module_list : list JsonModule) (properties : pydict)
           (interactive : bool) (environment_name : option string)
  : exc JsonModule * list event :=
  match find_module target_module_name module_list with
  | Raise e => (Raise e, [])
  | Ok target_module =>
      match config_build MODULE_TYPE MODULE_PLATFORM ask_user_for_input
                         target_module lean_config interactive [] properties
                         environment_name false with
      | (Raise e, _, log) => (Raise e, log)
      | (Ok _, target_module', log) =>
          match _update_settings_of_module environment_name lean_config with
          | Raise e => (Raise e, log)
          | Ok _ => (Ok target_module', log)
          end
      end
  end.

(** [non_interactive_config_build_for_name] *)
Definition non_interactive_config_build_for_name (lean_config : pyval)
           (target_module_name : string) (module_list : list JsonModule)
           (properties : pydict) (environment_name : option string)
  : exc JsonModule * list event :=
  config_build_for_name lean_config target_module_name module_list properties
                        false environment_name.

End FurtherMethods.

(** The attributes of a module that [ensure_module_installed] reads and
    writes, and the call of the module manager. *)
Record Installation : Type := {
  _product_id : Z;
  _installs : bool;
  _is_module_installed : bool
}.

Inductive install_call : Type :=
| InstallModule (product_id : Z) (organization_id module_version : string).

(** [JsonModule.ensure_module_installed] *)
Definition ensure_module_installed (self : Installation)
           (organization_id module_version : string)
  : Installation * list install_call :=
  if negb (_is_module_installed self) && _installs self
  then ({| _product_id := _product_id self; _installs := _installs self;
           _is_module_installed := true |},
        [InstallModule (_product_id self) organization_id module_version])
  else (self, []).

(** ** Notions used to state the properties *)

(** Two keys are the same key when they differ only in the spelling of the
    separator, hyphen or underscore. *)
Definition same_key (a b : string) : bool :=
  String.eqb (convert_lean_key_to_variable a) (convert_lean_key_to_variable b).

(** What a channel, as the caller passed it, holds for an entry id in any
    spelling; of several spellings the last one counts. *)
Definition lookup_spelled (opts : pydict) (id : string) : option pyval :=
  fold_left (fun found kv => if same_key (fst kv) id then Some (snd kv) else found)
            opts None.

(** Every spelling of the id that a channel holds maps to [None]. *)
Definition only_none (opts : pydict) (id : string) : bool :=
  forallb (fun kv => negb (same_key (fst kv) id) || is_none (snd kv)) opts.

(** The entries of the module at the moment the loop reaches position
    [i]: the entries before [i] are as the loop leaves them ([fin]), the
    others are as they were before the loop ([pre]). *)
Definition turn_configs (pre fin : list Configuration) (i : nat) : list Configuration :=
  firstn i fin ++ skipn i pre.

(** The entries of a list with their positions, counted from [start]. *)
Definition indexed_from {A : Type} (start : nat) (l : list A) : list (nat * A) :=
  combine (seq start (List.length l)) l.

Definition indexed {A : Type} (l : list A) : list (nat * A) := indexed_from 0 l.

Section Notions.

Variable MODULE_TYPE : string.
Variable MODULE_PLATFORM : string.
Variable ask_user_for_input : Configuration -> pyval -> bool -> pyval.

(** The filter gate for the entry at position [i], at the moment the
    loop of [config_build] or [get_settings] reaches it. *)
Definition active_at (self : JsonModule) (pre fin : list Configuration)
           (i : nat) (c : Configuration) : exc bool :=
  _check_if_config_passes_filters MODULE_TYPE MODULE_PLATFORM
    (with_configs self (turn_configs pre fin i)) c false.

Definition is_active_at (self : JsonModule) (pre fin : list Configuration)
           (i : nat) (c : Configuration) : bool :=
  match active_at self pre fin i c with
  | Ok true => true
  | _ => false
  end.

(** What one turn of the loop of [config_build] does to the entry at
    position [i]: the entry afterwards, the flags it adds to
    [missing_options], its events. *)
Definition turn_outcome (self : JsonModule) (lean_config : pyval)
           (interactive hide_input : bool) (normalized_options normalized_properties : pydict)
           (environment_name : option string) (pre fin : list Configuration)
           (ic : nat * Configuration) : Configuration * list string * list event :=
  if is_active_at self pre fin (fst ic) (snd ic) then
    let '(v, missing, events) :=
      settle ask_user_for_input interactive hide_input
             normalized_options normalized_properties (snd ic)
             (candidate normalized_options normalized_properties lean_config
                        environment_name (snd ic)) in
    (set_value (snd ic) v, missing, events)
  else (snd ic, [], []).

(** The persisted default of an entry: the configuration is read under
    the id of the entry as it is written; a failing read gives [None]. *)
Definition persisted_default (lean_config : pyval) (environment_name : option string)
           (c : Configuration) : pyval :=
  try_except (get_default lean_config (_id c) environment_name) PNone.

(** An entry genuinely misses its value: it is active at its turn and
    required, no spelling of its id is a key of the CLI options or of the
    properties, and its persisted default is [None] or blank. *)
Definition genuinely_missing (self : JsonModule) (lean_config : pyval)
           (user_provided_options properties : pydict)
           (environment_name : option string) (pre fin : list Configuration)
           (ic : nat * Configuration) : bool :=
  is_active_at self pre fin (fst ic) (snd ic)
  && negb (_optional (snd ic))
  && match lookup_spelled user_provided_options (_id (snd ic)) with
     | None => true | Some _ => false end
  && match lookup_spelled properties (_id (snd ic)) with
     | None => true | Some _ => false end
  && is_empty (persisted_default lean_config environment_name (snd ic)).

Definition flag_of (c : Configuration) : string := ("--" ++ _id c)%string.

Definition expected_missing (self : JsonModule) (lean_config : pyval)
           (user_provided_options properties : pydict)
           (environment_name : option string) (pre fin : list Configuration)
  : list string :=
  map (fun ic => flag_of (snd ic))
      (filter (genuinely_missing self lean_config user_provided_options
                                 properties environment_name pre fin)
              (indexed pre)).

(** The reading of "absent from every source" in which a source holds a
    value as soon as it has the key: no spelling of the id is a key of the
    CLI options or of the properties, and the persisted configuration has
    no value under the id, that is, its read gives [None]. *)
Definition absent_from_every_source (lean_config : pyval)
           (user_provided_options properties : pydict)
           (environment_name : option string) (c : Configuration) : bool :=
  match lookup_spelled user_provided_options (_id c) with
  | None => true | Some _ => false end
  && match lookup_spelled properties (_id c) with
     | None => true | Some _ => false end
  && is_none (persisted_default lean_config environment_name c).

(** The set of the claim read with key absence in all three sources:
    the active, required entries that are absent from every source. *)
Definition stated_missing (self : JsonModule) (lean_config : pyval)
           (user_provided_options properties : pydict)
           (environment_name : option string) (pre fin : list Configuration)
  : list string :=
  map (fun ic => flag_of (snd ic))
      (filter (fun ic =>
                 is_active_at self pre fin (fst ic) (snd ic)
                 && negb (_optional (snd ic))
                 && absent_from_every_source lean_config user_provided_options
                                             properties environment_name (snd ic))
              (indexed pre)).

(** The value of the source of highest precedence that has one for the
    entry: the CLI options under any spelling of the id; else the
    properties under any spelling; else the persisted configuration under
    the id as it is written. *)
Inductive wins (lean_config : pyval) (user_provided_options properties : pydict)
          (environment_name : option string) (c : Configuration) : pyval -> Prop :=
| wins_cli (v : pyval) :
    lookup_spelled user_provided_options (_id c) = Some v ->
    wins lean_config user_provided_options properties environment_name c v
| wins_properties (v : pyval) :
    lookup_spelled user_provided_options (_id c) = None ->
    lookup_spelled properties (_id c) = Some v ->
    wins lean_config user_provided_options properties environment_name c v
| wins_default (v : pyval) :
    lookup_spelled user_provided_options (_id c) = None ->
    lookup_spelled properties (_id c) = None ->
    get_default lean_config (_id c) environment_name = Ok v ->
    wins lean_config user_provided_options properties environment_name c v.

(** An entry writes the key [k] of the settings: under its id, or, for a
    composite entry with a mapping as value, under the keys of the
    mapping. *)
Definition writes_key (c : Configuration) (k : string) : bool :=
  match kind c, _value c with
  | AuthConfiguration, PDict d => dict_mem d k
  | _, _ => String.eqb (_id c) k
  end.

(** What one turn of the loop over the conditional entries in
    [get_settings] does to the entry at position [i]. *)
Definition conditional_outcome (self : JsonModule) (logger : bool)
           (pre fin : list Configuration) (ic : nat * Configuration)
  : Configuration * list event :=
  if is_conditional_internal (snd ic)
  then evaluate_conditional
         (with_configs self (turn_configs pre fin (fst ic))) logger (snd ic)
  else (snd ic, []).

(** The object a condition of a filter looks at, when every condition is
    evaluated: the type or the platform of the module, or the value of
    the entry the condition names. *)
Definition condition_target (self : JsonModule) (condition : Condition) : exc pyval :=
  if String.eqb (_dependent_config_id condition) MODULE_TYPE
  then Ok (PStr (_module_type self))
  else if String.eqb (_dependent_config_id condition) MODULE_PLATFORM
  then Ok (PStr (_platform self))
  else get_config_value_from_name self (_dependent_config_id condition).

Definition is_mapping (v : pyval) : bool :=
  match v with PDict _ => true | _ => false end.

End Notions.

(** The options of the conditional entries look backward: an option of a
    conditional entry never names the entry itself or a conditional entry
    that stands after it in the module. *)
Fixpoint looks_backward (cfgs : list Configuration) : bool :=
  match cfgs with
  | [] => true
  | c :: rest =>
      (negb (is_conditional_internal c)
       || forallb
            (fun option =>
               forallb
                 (fun d =>
                    negb (String.eqb (_id d) (_dependent_config_id (_condition option)))
                    || negb (is_conditional_internal d))
                 (c :: rest))
            (_value_options c))
      && looks_backward rest
  end.

(** Two entries that differ at most in their value. *)
Definition same_shape (a b : Configuration) : Prop :=
  set_value a PNone = set_value b PNone.

(** Two lists of entries agree on a name: they have the same names at the
    same places, and the same entries where the name is [dep]. *)
Definition agree_on (dep : string) (l1 l2 : list Configuration) : Prop :=
  Forall2 (fun a b => _id a = _id b /\ (_id a = dep -> a = b)) l1 l2.

(** The keys that one turn of the loop of [_normalized_options_map] writes. *)
Definition written (k x : string) : bool :=
  String.eqb k x
  || (Str.has_char "-" k && String.eqb (convert_lean_key_to_variable k) x)
  || (Str.has_char "_" k && String.eqb (convert_variable_to_lean_key k) x).

(** What the merge may turn the list [existing] into: the list itself, or
    its keys without repeats followed by further keys. *)
Definition grown_from (existing l : list pyval) : Prop :=
  l = existing
  \/ exists kept added,
      fromkeys existing = Ok kept /\ l = kept ++ added /\ fromkeys l = Ok l.

(** ** Further notions *)

(** An event is a warning: a message for the logger, or printed. *)
Definition is_warning (ev : event) : bool :=
  match ev with
  | LoggerWarning _ | Printed _ => true
  | Prompted _ _ _ | SavedProperty _ _ => false
  end.

(** An entry that [get_settings] stores under its own id: every entry but
    a composite entry whose value is a mapping. *)
Definition writes_own_id (c : Configuration) : bool :=
  match kind c, _value c with
  | AuthConfiguration, PDict _ => false
  | _, _ => true
  end.

(** The properties of the environment hold no property that is not
    [None]. *)
Definition all_none (props : pydict) : bool :=
  forallb (fun kv => is_none (snd kv)) props.

(** ** Sample modules

    Inputs for the examples.  The two identifiers of [lean/constants.py]
    take sample values; no sample entry depends on them. *)

Module Sample.

Definition MODULE_TYPE : string := "module-type".
Definition MODULE_PLATFORM : string := "module-platform".

(** A user who accepts the suggested default. *)
Definition ask (c : Configuration) (default : pyval) (hide_input : bool) : pyval :=
  default.

(** A condition that holds of the string equal to its pattern and raises
    on an object that is not a string. *)
Definition exact_match (dependent_config_id pattern : string) : Condition :=
  {| _dependent_config_id := dependent_config_id;
     check := fun v =>
                match v with
                | PStr s => Ok (String.eqb s pattern)
                | _ => Raise AttributeError
                end |}.

Definition entry (id : string) (optional : bool) (conditions : list Condition)
  : Configuration :=
  {| kind := InternalInputUserInput; _id := id; _value := PNone;
     _optional := optional; _input_default := PNone;
     _filter := {| _conditions := conditions |};
     _is_conditional := false; _value_options := [] |}.

Definition conditional_entry (id : string) (value : pyval)
           (options : list ConditionalValueOption) : Configuration :=
  {| kind := InternalInputUserInput; _id := id; _value := value;
     _optional := true; _input_default := PNone;
     _filter := {| _conditions := [] |};
     _is_conditional := true; _value_options := options |}.

Definition auth_entry (id : string) (value : pyval) : Configuration :=
  {| kind := AuthConfiguration; _id := id; _value := value;
     _optional := true; _input_default := PNone;
     _filter := {| _conditions := [] |};
     _is_conditional := false; _value_options := [] |}.

Definition module_of (cfgs : list Configuration) : JsonModule :=
  {| _module_type := "brokerage"; _platform := "cli";
     _module_id := "InteractiveBrokersBrokerage";
     _display_name := "Interactive Brokers"; _lean_configs := cfgs |}.

Definition build (self : JsonModule) (lean_config : pyval) (interactive : bool)
           (user_provided_options properties : pydict)
  : exc unit * JsonModule * list event :=
  config_build MODULE_TYPE MODULE_PLATFORM ask self lean_config interactive
               user_provided_options properties None false.

Definition resolve (self : JsonModule) (lean_config : pyval) (interactive : bool)
           (user_provided_options properties : pydict)
  : exc (list string) * list Configuration * list event :=
  resolve_entries MODULE_TYPE MODULE_PLATFORM ask self lean_config interactive
                  user_provided_options properties None false.

(** The value of the entry at a position. *)
Definition value_at (cfgs : list Configuration) (i : nat) : option pyval :=
  option_map _value (nth_error cfgs i).

Definition account : Configuration := entry "ib-account" false [].
Definition user_name : Configuration := entry "ib-user-name" false [].
Definition restart_time : Configuration := entry "ib-weekly-restart-utc-time" true [].

Definition from_cli : pydict := [("ib_account", PStr "from-cli")].
Definition from_properties : pydict := [("ib-account", PStr "from-properties")].
Definition from_config : pyval := PDict [("ib-account", PStr "from-config")].

(** An optional entry with a declared default. *)
Definition restart_with_default : Configuration :=
  {| kind := InternalInputUserInput; _id := "ib-weekly-restart-utc-time";
     _value := PNone; _optional := true; _input_default := PStr "22:00:00";
     _filter := {| _conditions := [] |};
     _is_conditional := false; _value_options := [] |}.

Definition one_entry : JsonModule := module_of [account].
Definition three_entries : JsonModule := module_of [account; user_name; restart_time].

(** The persisted configuration whose environment [env] has one property,
    an override of the list-like key; the settings with a list under that
    key. *)
Definition handler_override (value : pyval) : pyval :=
  PDict [("environments",
          PDict [("env", PDict [("properties",
                                 PDict [("data-queue-handler", value)])])])].

Definition handler_settings (existing : list pyval) : pydict :=
  [("data-queue-handler", PList existing)].

(** The text of the JSON array of the strings B and C. *)
Definition array_text : string :=
  ("[" ++ dq ++ "B" ++ dq ++ "," ++ dq ++ "C" ++ dq ++ "]")%string.

(** An entry behind two conditions: the first on a composite entry whose
    value is a mapping, the second on the entry [mode]. *)
Definition credentials : Configuration :=
  auth_entry "ib-auth" (PDict [("client-id", PStr "x"); ("token", PStr "x")]).

Definition mode : Configuration := set_value (entry "mode" true []) (PStr "paper").

Definition gated : Configuration :=
  entry "ib-trading-mode" true [exact_match "ib-auth" "x"; exact_match "mode" "live"].

Definition gated_reversed : Configuration :=
  entry "ib-trading-mode" true [exact_match "mode" "live"; exact_match "ib-auth" "x"].

Definition gated_module : JsonModule := module_of [credentials; mode; gated].

(** A conditional entry whose only option does not match, with and
    without a value of its own. *)
Definition agent_option : ConditionalValueOption :=
  {| _condition := exact_match "mode" "live"; _option_value := PStr "agent" |}.

Definition agent_unset : Configuration :=
  conditional_entry "ib-agent-description" PNone [agent_option].

Definition agent_set : Configuration :=
  conditional_entry "ib-agent-description" (PStr "Individual") [agent_option].

Definition settings_call (self : JsonModule)
  : list (string * string) * JsonModule * list event :=
  get_settings MODULE_TYPE MODULE_PLATFORM self PNone None false.

Definition settings_of (self : JsonModule) : list (string * string) :=
  fst (fst (settings_call self)).

(** Two conditional entries, the first of which depends on the second. *)
Definition relay_option : ConditionalValueOption :=
  {| _condition := exact_match "ib-agent-description" "agent";
     _option_value := PStr "relayed" |}.

Definition relay : Configuration := conditional_entry "ib-relay" PNone [relay_option].

Definition paper_option : ConditionalValueOption :=
  {| _condition := exact_match "mode" "paper"; _option_value := PStr "agent" |}.

Definition agent_paper : Configuration :=
  conditional_entry "ib-agent-description" PNone [paper_option].

Definition forward_module : JsonModule := module_of [relay; agent_paper; mode].
Definition backward_module : JsonModule := module_of [mode; agent_paper; relay].

(** An entry whose filter names an entry that the module does not have. *)
Definition orphan : Configuration :=
  entry "ib-orphan" true [exact_match "ib-missing" "x"].

(** A persisted configuration whose read fails for the environment
    [live]: the value of [environments] is a string. *)
Definition broken_config : pyval := PDict [("environments", PStr "live")].

End Sample.

(** ** Further sample inputs *)

Module Cases.

(** A module whose second entry is behind a condition on the first, which
    does not hold. *)
Definition behind_mode : JsonModule :=
  Sample.module_of [Sample.mode; Sample.gated_reversed].

(** A persisted configuration with a value at top level and another in the
    block of the environment [live]. *)
Definition live_block : pydict := [("ib-account", PStr "of-live")].
Definition environments : pydict := [("live", PDict live_block)].
Definition layered : pydict :=
  [("environments", PDict environments); ("ib-account", PStr "of-top")].

(** A path entry, and a path entry whose filter names an entry that the
    module does not have. *)
Definition path_entry (id : string) (value : pyval) (conditions : list Condition)
  : Configuration :=
  {| kind := PathParameterUserInput; _id := id; _value := value;
     _optional := true; _input_default := PNone;
     _filter := {| _conditions := conditions |};
     _is_conditional := false; _value_options := [] |}.

Definition gateway : Configuration := path_entry "ib-gateway" (PStr "/opt/ib") [].

Definition lost_path : Configuration :=
  path_entry "ib-logs" (PStr "/var/log") [Sample.exact_match "ib-missing" "x"].

Definition mounted : JsonModule := Sample.module_of [Sample.mode; gateway].

(** The persisted configuration whose environment [env] has one property
    of a key that is not list-like. *)
Definition account_properties : pydict := [("ib-account", PStr "U1")].

Definition account_override : pyval :=
  PDict [("environments",
          PDict [("env", PDict [("properties", PDict account_properties)])])].

Definition merged_handlers : pydict :=
  Sample.handler_settings [PStr "A"; PStr "B"; PStr "C"].

(** A conditional entry with a value and two options: the first does not
    match, the second names an entry that the module does not have. *)
Definition lost_option : ConditionalValueOption :=
  {| _condition := Sample.exact_match "ib-missing" "x"; _option_value := PStr "agent" |}.

Definition agent_lost : Configuration :=
  Sample.conditional_entry "ib-agent-description" (PStr "Individual")
                           [Sample.agent_option; lost_option].

Definition lost_module : JsonModule :=
  Sample.module_of [Sample.mode; Sample.orphan; agent_lost].

(** A required entry that the user may be asked for, with a suggested
    default. *)
Definition trading_mode : Configuration :=
  {| kind := OtherConfiguration; _id := "ib-trading-mode"; _value := PNone;
     _optional := false; _input_default := PStr "paper";
     _filter := {| _conditions := [] |};
     _is_conditional := false; _value_options := [] |}.

(** A composite entry whose mapping holds a path with a backslash. *)
Definition windows_home : string := ("C:" ++ backslash_string ++ "ib")%string.

Definition keyed : Configuration :=
  Sample.auth_entry "ib-auth" (PDict [("ib-home", PStr windows_home)]).

End Cases.

(** * Properties *)

(** ** Strings and dictionaries *)

Lemma dict_get_set {V : Type} (d : list (string * V)) (k k' : string) (v : V) :
  dict_get (dict_set d k v) k' = if String.eqb k k' then Some v else dict_get d k'.
Proof.
  induction d as [|[a w] d IH]; simpl.
  - reflexivity.
  - destruct (String.eqb a k) eqn:Eak; simpl.
    + apply String.eqb_eq in Eak; subst a.
      destruct (String.eqb k k'); reflexivity.
    + rewrite IH. destruct (String.eqb a k') eqn:Eak'; [|reflexivity].
      apply String.eqb_eq in Eak'; subst a. now rewrite String.eqb_sym, Eak.
Qed.

Lemma dict_mem_set {V : Type} (d : list (string * V)) (k k' : string) (v : V) :
  dict_mem (dict_set d k v) k' = String.eqb k k' || dict_mem d k'.
Proof.
  unfold dict_mem. rewrite dict_get_set. now destruct (String.eqb k k').
Qed.

Lemma to_var_idem (s : string) :
  convert_lean_key_to_variable (convert_lean_key_to_variable s)
  = convert_lean_key_to_variable s.
Proof.
  unfold convert_lean_key_to_variable.
  induction s as [|c s IH]; simpl; [reflexivity|].
  rewrite IH. f_equal.
  destruct (Ascii.eqb c "-") eqn:E; [reflexivity | now rewrite E].
Qed.

Lemma to_var_of_lean (s : string) :
  convert_lean_key_to_variable (convert_variable_to_lean_key s)
  = convert_lean_key_to_variable s.
Proof.
  unfold convert_lean_key_to_variable, convert_variable_to_lean_key.
  induction s as [|c s IH]; simpl; [reflexivity|].
  rewrite IH. f_equal.
  destruct (Ascii.eqb c "_") eqn:E.
  - apply Ascii.eqb_eq in E; subst c. reflexivity.
  - reflexivity.
Qed.

Lemma to_var_without_hyphen (s : string) :
  Str.has_char "-" s = false -> convert_lean_key_to_variable s = s.
Proof.
  unfold convert_lean_key_to_variable.
  induction s as [|c s IH]; simpl; [reflexivity|].
  intros H. apply orb_false_iff in H as [Hc Hs].
  rewrite Hc, (IH Hs). reflexivity.
Qed.

Lemma same_key_refl (a : string) : same_key a a = true.
Proof. unfold same_key. apply String.eqb_refl. Qed.

Lemma same_key_var (a : string) : same_key (convert_lean_key_to_variable a) a = true.
Proof. unfold same_key. rewrite to_var_idem. apply String.eqb_refl. Qed.

Lemma same_key_trans (a b c : string) :
  same_key a b = true -> same_key b c = true -> same_key a c = true.
Proof.
  unfold same_key. intros H1 H2.
  apply String.eqb_eq in H1, H2. rewrite H1, H2. apply String.eqb_refl.
Qed.

Lemma same_key_sym (a b : string) : same_key a b = same_key b a.
Proof. unfold same_key. apply String.eqb_sym. Qed.

(** ** The normalised options map *)

Lemma get_normalized_insert (out : pydict) (k x : string) (v : pyval) :
  dict_get (normalized_insert out k v) x
  = if written k x then Some v else dict_get out x.
Proof.
  unfold normalized_insert, written,
    convert_lean_key_to_variable, convert_variable_to_lean_key.
  destruct (Str.has_char "-" k), (Str.has_char "_" k); simpl;
    repeat rewrite dict_get_set;
    destruct (String.eqb k x),
             (String.eqb (Str.replace_char "-" "_" k) x),
             (String.eqb (Str.replace_char "_" "-" k) x); reflexivity.
Qed.

Lemma written_same_key (k x : string) : written k x = true -> same_key k x = true.
Proof.
  unfold written, same_key. intros H.
  apply orb_true_iff in H as [H|H]; [apply orb_true_iff in H as [H|H]|].
  - apply String.eqb_eq in H; subst. apply String.eqb_refl.
  - apply andb_true_iff in H as [_ H]. apply String.eqb_eq in H; subst x.
    rewrite to_var_idem. apply String.eqb_refl.
  - apply andb_true_iff in H as [_ H]. apply String.eqb_eq in H; subst x.
    rewrite to_var_of_lean. apply String.eqb_refl.
Qed.

Lemma written_var (k : string) : written k (convert_lean_key_to_variable k) = true.
Proof.
  unfold written. destruct (Str.has_char "-" k) eqn:E.
  - rewrite String.eqb_refl. simpl. now rewrite orb_true_r.
  - rewrite (to_var_without_hyphen k E), String.eqb_refl. reflexivity.
Qed.

Lemma written_var_of (k id : string) :
  written k (convert_lean_key_to_variable id) = same_key k id.
Proof.
  destruct (same_key k id) eqn:E.
  - unfold same_key in E. apply String.eqb_eq in E. rewrite <- E. apply written_var.
  - destruct (written k (convert_lean_key_to_variable id)) eqn:W; [|reflexivity].
    apply written_same_key in W.
    rewrite (same_key_trans _ _ _ W (same_key_var id)) in E. discriminate.
Qed.

Lemma normalized_get_var_from (opts out : pydict) (id : string) (found : option pyval) :
  dict_get out (convert_lean_key_to_variable id) = found ->
  dict_get (fold_left (fun out kv => normalized_insert out (fst kv) (snd kv)) opts out)
           (convert_lean_key_to_variable id)
  = fold_left (fun found kv => if same_key (fst kv) id then Some (snd kv) else found)
              opts found.
Proof.
  revert out found. induction opts as [|[k v] opts IH]; intros out found H; simpl.
  - exact H.
  - apply IH. rewrite get_normalized_insert, written_var_of, H. reflexivity.
Qed.

(** Under the underscored spelling of an id the normalised map holds what
    the channel holds for the id. *)
Lemma normalized_get_var (opts : pydict) (id : string) :
  dict_get (_normalized_options_map opts) (convert_lean_key_to_variable id)
  = lookup_spelled opts id.
Proof.
  unfold _normalized_options_map, lookup_spelled.
  now apply normalized_get_var_from.
Qed.

Lemma normalized_origin_from (opts out : pydict) (x : string) (v : pyval) :
  dict_get (fold_left (fun out kv => normalized_insert out (fst kv) (snd kv)) opts out) x
  = Some v ->
  dict_get out x = Some v \/ exists k, In (k, v) opts /\ same_key k x = true.
Proof.
  revert out. induction opts as [|[k w] opts IH]; intros out H; simpl in *.
  - now left.
  - apply IH in H as [H | (k' & Hin & Hk)].
    + rewrite get_normalized_insert in H.
      destruct (written k x) eqn:W.
      * injection H as <-. right. exists k. split; [now left|].
        now apply written_same_key.
      * now left.
    + right. exists k'. split; [now right | exact Hk].
Qed.

(** Every value of the normalised map comes from a key of the channel that
    spells the same key. *)
Lemma normalized_origin (opts : pydict) (x : string) (v : pyval) :
  dict_get (_normalized_options_map opts) x = Some v ->
  exists k, In (k, v) opts /\ same_key k x = true.
Proof.
  intros H. apply normalized_origin_from in H as [H | H]; [discriminate | exact H].
Qed.

Lemma lookup_spelled_from_none (opts : pydict) (id : string) (found : option pyval) :
  fold_left (fun found kv => if same_key (fst kv) id then Some (snd kv) else found)
            opts found = None ->
  found = None /\ forall k v, In (k, v) opts -> same_key k id = false.
Proof.
  revert found. induction opts as [|[k w] opts IH]; intros found H; simpl in *.
  - split; [exact H | intros k v []].
  - apply IH in H as [H1 H2]. destruct (same_key k id) eqn:E; [discriminate|].
    split; [exact H1|]. intros k' v' [Heq | Hin].
    + injection Heq as <- <-. exact E.
    + eapply H2; eauto.
Qed.

Lemma lookup_spelled_none (opts : pydict) (id : string) :
  lookup_spelled opts id = None ->
  forall k v, In (k, v) opts -> same_key k id = false.
Proof. intros H. now apply lookup_spelled_from_none in H as [_ H]. Qed.

(** A channel that holds nothing for an id has, normalised, no key that
    spells the id. *)
Lemma normalized_get_none (opts : pydict) (id x : string) :
  lookup_spelled opts id = None -> same_key x id = true ->
  dict_get (_normalized_options_map opts) x = None.
Proof.
  intros H Hx. destruct (dict_get (_normalized_options_map opts) x) eqn:G; [|reflexivity].
  apply normalized_origin in G as (k & Hin & Hk).
  pose proof (same_key_trans _ _ _ Hk Hx) as C.
  rewrite (lookup_spelled_none _ _ H _ _ Hin) in C. discriminate.
Qed.

Lemma only_none_get (opts : pydict) (id x : string) (v : pyval) :
  only_none opts id = true -> same_key x id = true ->
  dict_get (_normalized_options_map opts) x = Some v -> v = PNone.
Proof.
  intros H Hx G. apply normalized_origin in G as (k & Hin & Hk).
  unfold only_none in H. rewrite forallb_forall in H.
  specialize (H _ Hin). simpl in H.
  rewrite (same_key_trans _ _ _ Hk Hx) in H. simpl in H.
  destruct v; simpl in H; try discriminate. reflexivity.
Qed.

Lemma lookup_none_only_none (opts : pydict) (id : string) :
  lookup_spelled opts id = None -> only_none opts id = true.
Proof.
  intros H. unfold only_none. apply forallb_forall. intros [k v] Hin. simpl.
  now rewrite (lookup_spelled_none _ _ H _ _ Hin).
Qed.

(** The test [lean_key in opts or var_key in opts] on a normalised map. *)
Lemma present_normalized (opts : pydict) (id : string) :
  dict_mem (_normalized_options_map opts) id
  || dict_mem (_normalized_options_map opts) (convert_lean_key_to_variable id)
  = match lookup_spelled opts id with Some _ => true | None => false end.
Proof.
  unfold dict_mem. rewrite normalized_get_var.
  destruct (lookup_spelled opts id) eqn:L.
  - apply orb_true_r.
  - now rewrite (normalized_get_none _ _ _ L (same_key_refl id)).
Qed.

(** ** Lists with positions *)

Lemma indexed_from_cons {A : Type} (n : nat) (x : A) (l : list A) :
  indexed_from n (x :: l) = (n, x) :: indexed_from (S n) l.
Proof. reflexivity. Qed.

Lemma indexed_from_ge {A : Type} (l : list A) (n j : nat) (x : A) :
  In (j, x) (indexed_from n l) -> n <= j.
Proof.
  unfold indexed_from. intros H. apply in_combine_l in H.
  apply in_seq in H. lia.
Qed.

Lemma indexed_from_nth {A : Type} (l : list A) (n j : nat) (x : A) :
  nth_error l j = Some x -> In (n + j, x) (indexed_from n l).
Proof.
  revert n j. induction l as [|y l IH]; intros n j H.
  - destruct j; discriminate.
  - rewrite indexed_from_cons. destruct j as [|j]; simpl in H.
    + injection H as <-. left. f_equal. lia.
    + right. replace (n + S j) with (S n + j) by lia. now apply IH.
Qed.

Lemma nth_error_map_indexed {A B : Type} (f : nat * A -> B) (l : list A)
      (n j : nat) (x : A) :
  nth_error l j = Some x ->
  nth_error (map f (indexed_from n l)) j = Some (f (n + j, x)).
Proof.
  revert n j. induction l as [|y l IH]; intros n j H.
  - destruct j; discriminate.
  - rewrite indexed_from_cons. destruct j as [|j]; simpl in *.
    + injection H as <-. now rewrite Nat.add_0_r.
    + rewrite (IH (S n) j H). do 2 f_equal. f_equal. lia.
Qed.

Lemma turn_configs_here (done todo fin : list Configuration) :
  firstn (List.length done) fin = done ->
  turn_configs (done ++ todo) fin (List.length done) = done ++ todo.
Proof.
  intros H. unfold turn_configs. rewrite H. f_equal.
  rewrite skipn_app, skipn_all, Nat.sub_diag. reflexivity.
Qed.

Lemma turn_configs_later (done rest fin : list Configuration)
      (c c' : Configuration) (j : nat) :
  List.length done < j ->
  turn_configs (done ++ c :: rest) fin j = turn_configs (done ++ c' :: rest) fin j.
Proof.
  intros H. unfold turn_configs. f_equal.
  rewrite !skipn_app. rewrite !skipn_all2 by lia.
  destruct (j - List.length done) as [|m] eqn:E; [lia | reflexivity].
Qed.

Lemma firstn_prefix {A : Type} (done l : list A) :
  firstn (List.length done) (done ++ l) = done.
Proof.
  rewrite firstn_app, firstn_all, Nat.sub_diag. simpl. apply app_nil_r.
Qed.

(** ** The candidate value and the emptiness rule *)

Section Resolution.

Variable MODULE_TYPE : string.
Variable MODULE_PLATFORM : string.
Variable ask_user_for_input : Configuration -> pyval -> bool -> pyval.

Variables (lean_config : pyval) (environment_name : option string).
Variables (user_provided_options properties : pydict).

Let U := _normalized_options_map user_provided_options.
Let P := _normalized_options_map properties.

Lemma provided_only_none (id x : string) :
  only_none user_provided_options id = true -> same_key x id = true ->
  match dict_get U x with
  | Some v => if is_none v then None else Some v
  | None => None
  end = None.
Proof.
  intros H Hx. destruct (dict_get U x) eqn:G; [|reflexivity].
  rewrite (only_none_get _ _ _ _ H Hx G). reflexivity.
Qed.

(** Step 1: a CLI value that is not [None] is the candidate. *)
Lemma candidate_cli (c : Configuration) (v : pyval) :
  lookup_spelled user_provided_options (_id c) = Some v ->
  is_none v = false ->
  candidate U P lean_config environment_name c = v.
Proof.
  intros L N. unfold candidate, U.
  rewrite normalized_get_var, L, N. reflexivity.
Qed.

(** Step 2: without a CLI value, a key of the properties gives the
    candidate, whatever its value. *)
Lemma candidate_properties (c : Configuration) (v : pyval) :
  only_none user_provided_options (_id c) = true ->
  lookup_spelled properties (_id c) = Some v ->
  candidate U P lean_config environment_name c = v.
Proof.
  intros H L. unfold candidate.
  rewrite (provided_only_none _ _ H (same_key_var _)).
  rewrite (provided_only_none _ _ H (same_key_refl _)).
  unfold P. rewrite normalized_get_var, L. reflexivity.
Qed.

(** Step 3: without both, the candidate is the persisted default. *)
Lemma candidate_default (c : Configuration) :
  only_none user_provided_options (_id c) = true ->
  lookup_spelled properties (_id c) = None ->
  candidate U P lean_config environment_name c
  = persisted_default lean_config environment_name c.
Proof.
  intros H L. unfold candidate.
  rewrite (provided_only_none _ _ H (same_key_var _)).
  rewrite (provided_only_none _ _ H (same_key_refl _)).
  unfold P. rewrite normalized_get_var, L.
  rewrite (normalized_get_none _ _ _ L (same_key_refl _)). reflexivity.
Qed.

Lemma settle_not_empty (interactive hide_input : bool) (c : Configuration)
      (v : pyval) :
  is_empty v = false ->
  settle ask_user_for_input interactive hide_input U P c v = (v, [], []).
Proof. intros H. unfold settle. now rewrite H. Qed.

(** Whether a candidate that is empty counts as provided. *)
Lemma settle_required_empty (hide_input : bool) (c : Configuration) (v : pyval) :
  is_empty v = true -> _optional c = false ->
  settle ask_user_for_input false hide_input U P c v
  = match lookup_spelled properties (_id c), lookup_spelled user_provided_options (_id c) with
    | None, None => (v, [flag_of c], [])
    | _, _ => (if is_none v then PStr EmptyString else v, [], [])
    end.
Proof.
  intros E O. unfold settle. rewrite E, O.
  unfold U, P. rewrite !present_normalized.
  destruct (lookup_spelled properties (_id c)),
           (lookup_spelled user_provided_options (_id c)); reflexivity.
Qed.

(** ** The loop of [config_build] *)

Variables (self : JsonModule) (interactive hide_input : bool).

Let outcome_at := turn_outcome MODULE_TYPE MODULE_PLATFORM ask_user_for_input
                    self lean_config interactive hide_input U P environment_name.

Lemma turn_outcome_ext (pre pre' fin : list Configuration) (ic : nat * Configuration) :
  turn_configs pre fin (fst ic) = turn_configs pre' fin (fst ic) ->
  outcome_at pre fin ic = outcome_at pre' fin ic.
Proof.
  intros H. unfold outcome_at, turn_outcome, is_active_at, active_at.
  now rewrite H.
Qed.

(** The loop visits every entry once, in order; what it does to the entry
    at a position is [turn_outcome] at that position. *)
Lemma build_loop_outcome (todo done : list Configuration)
      (missing : list string) (log : list event)
      (res : list string) (fin : list Configuration) (log' : list event) :
  build_loop MODULE_TYPE MODULE_PLATFORM ask_user_for_input self lean_config
             interactive hide_input U P environment_name done todo missing log
  = (Ok res, fin, log') ->
  let outs := map (outcome_at (done ++ todo) fin)
                  (indexed_from (List.length done) todo) in
  fin = done ++ map (fun o => fst (fst o)) outs
  /\ res = missing ++ flat_map (fun o => snd (fst o)) outs
  /\ log' = log ++ flat_map (fun o => snd o) outs.
Proof.
  revert done missing log.
  induction todo as [|c rest IH]; intros done missing log H; simpl in H.
  - injection H as <- <- <-. simpl. now rewrite !app_nil_r.
  - destruct (_check_if_config_passes_filters MODULE_TYPE MODULE_PLATFORM
                (with_configs self (done ++ c :: rest)) c false)
      as [[|]|e] eqn:Ef.
    + destruct (settle ask_user_for_input interactive hide_input U P c
                       (candidate U P lean_config environment_name c))
        as [[v m] ev] eqn:Es.
      apply IH in H. cbv zeta in H. destruct H as (Hfin & Hres & Hlog).
      rewrite length_app in Hfin, Hres, Hlog. simpl in Hfin, Hres, Hlog.
      rewrite Nat.add_1_r in Hfin, Hres, Hlog.
      assert (Hpre : firstn (List.length done) fin = done).
      { rewrite Hfin, <- app_assoc. apply firstn_prefix. }
      assert (Hhead : outcome_at (done ++ c :: rest) fin (List.length done, c)
                      = (set_value c v, m, ev)).
      { unfold outcome_at, turn_outcome, is_active_at, active_at. simpl fst; simpl snd.
        rewrite (turn_configs_here _ _ _ Hpre), Ef.
        fold U P. now rewrite Es. }
      assert (Htail : map (outcome_at ((done ++ [set_value c v]) ++ rest) fin)
                          (indexed_from (S (List.length done)) rest)
                      = map (outcome_at (done ++ c :: rest) fin)
                            (indexed_from (S (List.length done)) rest)).
      { apply map_ext_in. intros [j d] Hin. apply turn_outcome_ext. simpl.
        rewrite <- app_assoc. simpl.
        apply turn_configs_later. apply indexed_from_ge in Hin. lia. }
      rewrite Htail in Hfin, Hres, Hlog.
      cbv zeta. rewrite indexed_from_cons. simpl map. rewrite Hhead.
      simpl. repeat split.
      * rewrite Hfin at 1. now rewrite <- app_assoc.
      * rewrite Hres. now rewrite <- app_assoc.
      * rewrite Hlog. now rewrite <- app_assoc.
    + apply IH in H. cbv zeta in H. destruct H as (Hfin & Hres & Hlog).
      rewrite length_app in Hfin, Hres, Hlog. simpl in Hfin, Hres, Hlog.
      rewrite Nat.add_1_r in Hfin, Hres, Hlog.
      replace ((done ++ [c]) ++ rest) with (done ++ c :: rest)
        in Hfin, Hres, Hlog by now rewrite <- app_assoc.
      rewrite <- app_assoc in Hfin. simpl in Hfin.
      assert (Hpre : firstn (List.length done) fin = done).
      { rewrite Hfin. apply firstn_prefix. }
      assert (Hhead : outcome_at (done ++ c :: rest) fin (List.length done, c)
                      = (c, [], [])).
      { unfold outcome_at, turn_outcome, is_active_at, active_at. simpl fst; simpl snd.
        now rewrite (turn_configs_here _ _ _ Hpre), Ef. }
      cbv zeta. rewrite indexed_from_cons. simpl map. rewrite Hhead.
      simpl. repeat split; assumption.
    + discriminate.
Qed.

(** However the loop ends, the entries it has visited are in front of the
    result. *)
Lemma build_loop_prefix (todo done : list Configuration)
      (missing : list string) (log : list event) :
  exists todo',
    snd (fst (build_loop MODULE_TYPE MODULE_PLATFORM ask_user_for_input self
                         lean_config interactive hide_input U P environment_name
                         done todo missing log)) = done ++ todo'.
Proof.
  revert done missing log.
  induction todo as [|c rest IH]; intros done missing log; simpl.
  - exists []. now rewrite app_nil_r.
  - destruct (_check_if_config_passes_filters MODULE_TYPE MODULE_PLATFORM
                (with_configs self (done ++ c :: rest)) c false) as [[|]|e].
    + destruct (settle ask_user_for_input interactive hide_input U P c
                       (candidate U P lean_config environment_name c))
        as [[v m] ev].
      destruct (IH (done ++ [set_value c v]) (missing ++ m) (log ++ ev))
        as [todo' ->].
      exists (set_value c v :: todo'). now rewrite <- app_assoc.
    + destruct (IH (done ++ [c]) missing log) as [todo' ->].
      exists (c :: todo'). now rewrite <- app_assoc.
    + now exists (c :: rest).
Qed.

(** However the loop ends: an entry that it reaches (the filter checks of
    the entries before it return) and that is active at its turn leaves
    the loop with the settled candidate as value. *)
Lemma build_loop_stored (todo done : list Configuration)
      (missing : list string) (log : list event)
      (outcome : exc (list string)) (fin : list Configuration) (log' : list event)
      (i : nat) (c : Configuration) :
  build_loop MODULE_TYPE MODULE_PLATFORM ask_user_for_input self lean_config
             interactive hide_input U P environment_name done todo missing log
  = (outcome, fin, log') ->
  nth_error todo i = Some c ->
  (forall j d, j < i -> nth_error todo j = Some d ->
               exists b, active_at MODULE_TYPE MODULE_PLATFORM self
                                   (done ++ todo) fin (List.length done + j) d
                         = Ok b) ->
  active_at MODULE_TYPE MODULE_PLATFORM self (done ++ todo) fin
            (List.length done + i) c = Ok true ->
  nth_error fin (List.length done + i)
  = Some (set_value c
            (fst (fst (settle ask_user_for_input interactive hide_input U P c
                              (candidate U P lean_config environment_name c))))).
Proof.
  revert done missing log i.
  induction todo as [|c0 rest IH]; intros done missing log i H Hc Hbefore Ha.
  - destruct i; discriminate.
  - assert (Hpre : firstn (List.length done) fin = done).
    { destruct (build_loop_prefix (c0 :: rest) done missing log) as [todo' E].
      rewrite H in E. simpl in E. rewrite E. apply firstn_prefix. }
    assert (Hhere : active_at MODULE_TYPE MODULE_PLATFORM self
                              (done ++ c0 :: rest) fin (List.length done) c0
                    = _check_if_config_passes_filters
                        MODULE_TYPE MODULE_PLATFORM
                        (with_configs self (done ++ c0 :: rest)) c0 false).
    { unfold active_at. now rewrite (turn_configs_here _ _ _ Hpre). }
    assert (Hfirst : i <> 0 ->
                     exists b, _check_if_config_passes_filters
                                 MODULE_TYPE MODULE_PLATFORM
                                 (with_configs self (done ++ c0 :: rest)) c0 false
                               = Ok b).
    { intros Hi. destruct (Hbefore 0 c0) as [b Hb]; [lia | reflexivity |].
      rewrite Nat.add_0_r, Hhere in Hb. now exists b. }
    simpl in H.
    destruct (_check_if_config_passes_filters MODULE_TYPE MODULE_PLATFORM
                (with_configs self (done ++ c0 :: rest)) c0 false)
      as [[|]|e] eqn:Ef.
    + destruct (settle ask_user_for_input interactive hide_input U P c0
                       (candidate U P lean_config environment_name c0))
        as [[v m] ev] eqn:Es.
      destruct i as [|i].
      * simpl in Hc. injection Hc as <-. rewrite Es. simpl.
        destruct (build_loop_prefix rest (done ++ [set_value c0 v])
                                    (missing ++ m) (log ++ ev)) as [todo' E].
        rewrite H in E. simpl in E. rewrite E, <- app_assoc, Nat.add_0_r.
        rewrite nth_error_app2 by lia. now rewrite Nat.sub_diag.
      * simpl in Hc.
        replace (List.length done + S i)
          with (List.length (done ++ [set_value c0 v]) + i)
          by (rewrite length_app; simpl; lia).
        apply (IH _ _ _ _ H Hc).
        -- intros j d Hj Hd.
           destruct (Hbefore (S j) d) as [b Hb]; [lia | exact Hd |].
           exists b. rewrite <- Hb. unfold active_at.
           rewrite <- app_assoc. simpl.
           replace (List.length (done ++ [set_value c0 v]) + j)
             with (List.length done + S j) by (rewrite length_app; simpl; lia).
           now rewrite (turn_configs_later done rest fin (set_value c0 v) c0)
             by lia.
        -- rewrite <- Ha. unfold active_at.
           rewrite <- app_assoc. simpl.
           replace (List.length (done ++ [set_value c0 v]) + i)
             with (List.length done + S i) by (rewrite length_app; simpl; lia).
           now rewrite (turn_configs_later done rest fin (set_value c0 v) c0)
             by lia.
    + destruct i as [|i].
      * simpl in Hc. injection Hc as <-.
        rewrite Nat.add_0_r, Hhere in Ha. discriminate.
      * simpl in Hc.
        replace (List.length done + S i) with (List.length (done ++ [c0]) + i)
          by (rewrite length_app; simpl; lia).
        apply (IH _ _ _ _ H Hc).
        -- intros j d Hj Hd.
           destruct (Hbefore (S j) d) as [b Hb]; [lia | exact Hd |].
           exists b. rewrite <- Hb. rewrite <- app_assoc. simpl.
           f_equal. rewrite length_app. simpl. lia.
        -- rewrite <- Ha. rewrite <- app_assoc. simpl.
           f_equal. rewrite length_app. simpl. lia.
    + destruct i as [|i].
      * simpl in Hc. injection Hc as <-.
        rewrite Nat.add_0_r, Hhere in Ha. discriminate.
      * destruct Hfirst as [b Hb]; [lia | discriminate].
Qed.

(** A loop that runs to its end has reached every entry: every filter
    check has returned. *)
Lemma build_loop_reached (todo done : list Configuration)
      (missing : list string) (log : list event)
      (res : list string) (fin : list Configuration) (log' : list event)
      (j : nat) (d : Configuration) :
  build_loop MODULE_TYPE MODULE_PLATFORM ask_user_for_input self lean_config
             interactive hide_input U P environment_name done todo missing log
  = (Ok res, fin, log') ->
  nth_error todo j = Some d ->
  exists b, active_at MODULE_TYPE MODULE_PLATFORM self (done ++ todo) fin
                      (List.length done + j) d = Ok b.
Proof.
  revert done missing log j.
  induction todo as [|c0 rest IH]; intros done missing log j H Hd.
  - destruct j; discriminate.
  - assert (Hpre : firstn (List.length done) fin = done).
    { destruct (build_loop_prefix (c0 :: rest) done missing log) as [todo' E].
      rewrite H in E. simpl in E. rewrite E. apply firstn_prefix. }
    assert (Hhere : active_at MODULE_TYPE MODULE_PLATFORM self
                              (done ++ c0 :: rest) fin (List.length done) c0
                    = _check_if_config_passes_filters
                        MODULE_TYPE MODULE_PLATFORM
                        (with_configs self (done ++ c0 :: rest)) c0 false).
    { unfold active_at. now rewrite (turn_configs_here _ _ _ Hpre). }
    simpl in H.
    destruct (_check_if_config_passes_filters MODULE_TYPE MODULE_PLATFORM
                (with_configs self (done ++ c0 :: rest)) c0 false)
      as [[|]|e] eqn:Ef; [| |discriminate].
    + destruct (settle ask_user_for_input interactive hide_input U P c0
                       (candidate U P lean_config environment_name c0))
        as [[v m] ev] eqn:Es.
      destruct j as [|j].
      * simpl in Hd. injection Hd as <-. exists true.
        now rewrite Nat.add_0_r, Hhere.
      * simpl in Hd. destruct (IH _ _ _ _ H Hd) as [b Hb]. exists b.
        rewrite <- Hb. unfold active_at. rewrite <- app_assoc. simpl.
        replace (List.length (done ++ [set_value c0 v]) + j)
          with (List.length done + S j) by (rewrite length_app; simpl; lia).
        now rewrite (turn_configs_later done rest fin c0 (set_value c0 v)) by lia.
    + destruct j as [|j].
      * simpl in Hd. injection Hd as <-. exists false.
        now rewrite Nat.add_0_r, Hhere.
      * simpl in Hd. destruct (IH _ _ _ _ H Hd) as [b Hb]. exists b.
        rewrite <- Hb. rewrite <- app_assoc. simpl.
        f_equal. rewrite length_app. simpl. lia.
Qed.

(** The loop of [config_build] logs no warning: its events are prompts and
    saved properties. *)
Lemma build_loop_no_warning (todo done : list Configuration)
      (missing : list string) (log : list event) :
  forallb (fun ev => negb (is_warning ev)) log = true ->
  forallb (fun ev => negb (is_warning ev))
          (snd (build_loop MODULE_TYPE MODULE_PLATFORM ask_user_for_input self
                           lean_config interactive hide_input U P environment_name
                           done todo missing log)) = true.
Proof.
  revert done missing log.
  induction todo as [|c rest IH]; intros done missing log H; simpl; [exact H|].
  destruct (_check_if_config_passes_filters MODULE_TYPE MODULE_PLATFORM
              (with_configs self (done ++ c :: rest)) c false) as [[|]|e].
  - destruct (settle ask_user_for_input interactive hide_input U P c
                     (candidate U P lean_config environment_name c))
      as [[v m] ev] eqn:Es.
    apply IH. rewrite forallb_app, H. simpl.
    unfold settle in Es.
    destruct (is_empty (candidate U P lean_config environment_name c)).
    + destruct interactive.
      * injection Es as _ _ <-.
        now destruct (kind_eqb (kind c) BrokerageEnvConfiguration).
      * destruct (_optional c); [now injection Es as _ _ <-|].
        destruct (_ || _); now injection Es as _ _ <-.
    + now injection Es as _ _ <-.
  - now apply IH.
  - exact H.
Qed.

End Resolution.

(** ** config_build *)

Lemma flat_map_flags {A B : Type} (f : A -> list B) (p : A -> bool) (g : A -> B)
      (l : list A) :
  (forall x, In x l -> f x = if p x then [g x] else []) ->
  flat_map f l = map g (filter p l).
Proof.
  induction l as [|x l IH]; intros H; simpl; [reflexivity|].
  rewrite (H x (or_introl eq_refl)), IH by (intros y Hy; apply H; now right).
  now destruct (p x).
Qed.

Lemma flag_of_inj (c d : Configuration) : flag_of c = flag_of d -> _id c = _id d.
Proof. unfold flag_of. simpl. intros H. now injection H. Qed.

Section ConfigBuild.

Variable MODULE_TYPE : string.
Variable MODULE_PLATFORM : string.
Variable ask_user_for_input : Configuration -> pyval -> bool -> pyval.

Variables (self : JsonModule) (lean_config : pyval).
Variables (user_provided_options properties : pydict).
Variables (environment_name : option string).

Let U := _normalized_options_map user_provided_options.
Let P := _normalized_options_map properties.
Let pre := prefill lean_config environment_name (_lean_configs self).

Local Abbreviation resolve interactive hide_input :=
  (resolve_entries MODULE_TYPE MODULE_PLATFORM ask_user_for_input self lean_config
                   interactive user_provided_options properties environment_name
                   hide_input).
Local Abbreviation build interactive hide_input :=
  (config_build MODULE_TYPE MODULE_PLATFORM ask_user_for_input self lean_config
                interactive user_provided_options properties environment_name
                hide_input).
Local Abbreviation outcome_at interactive hide_input :=
  (turn_outcome MODULE_TYPE MODULE_PLATFORM ask_user_for_input self lean_config
                interactive hide_input U P environment_name).
Local Abbreviation active fin i c :=
  (active_at MODULE_TYPE MODULE_PLATFORM self pre fin i c).

Lemma resolve_entries_outcome (interactive hide_input : bool)
      (missing : list string) (fin : list Configuration) (log : list event) :
  resolve interactive hide_input = (Ok missing, fin, log) ->
  let outs := map (outcome_at interactive hide_input pre fin) (indexed pre) in
  fin = map (fun o => fst (fst o)) outs
  /\ missing = flat_map (fun o => snd (fst o)) outs
  /\ log = flat_map (fun o => snd o) outs.
Proof.
  intros H. unfold resolve_entries in H.
  apply build_loop_outcome in H. exact H.
Qed.

(** The last statement of [config_build]: the failure is raised from
    [missing_options]. *)
Lemma config_build_of_resolve (interactive hide_input : bool)
      (missing : list string) (fin : list Configuration) (log : list event) :
  resolve interactive hide_input = (Ok missing, fin, log) ->
  build interactive hide_input
  = (match missing with
     | [] => Ok tt
     | _ => Raise (RuntimeError (missing_message missing))
     end, with_configs self fin, log).
Proof.
  intros H. unfold config_build. rewrite H. now destruct missing.
Qed.

Lemma config_build_returns (interactive hide_input : bool)
      (self' : JsonModule) (log : list event) :
  build interactive hide_input = (Ok tt, self', log) ->
  resolve interactive hide_input = (Ok [], _lean_configs self', log).
Proof.
  unfold config_build.
  destruct (resolve interactive hide_input) as [[[missing|e] fin] lg]; intros H.
  - destruct missing; simpl in H; [|discriminate].
    injection H as <- <-. reflexivity.
  - discriminate.
Qed.

(** The entry at a position that is active at its turn leaves the loop
    with the settled candidate as value. *)
Lemma resolve_entries_stored (interactive hide_input : bool)
      (missing : list string) (fin : list Configuration) (log : list event)
      (i : nat) (c : Configuration) :
  resolve interactive hide_input = (Ok missing, fin, log) ->
  nth_error pre i = Some c ->
  active fin i c = Ok true ->
  nth_error fin i
  = Some (set_value c
            (fst (fst (settle ask_user_for_input interactive hide_input U P c
                              (candidate U P lean_config environment_name c))))).
Proof.
  intros H Hc Ha. apply resolve_entries_outcome in H. cbv zeta in H.
  destruct H as (Hfin & _ & _). rewrite Hfin at 1. rewrite map_map.
  unfold indexed. rewrite (nth_error_map_indexed _ _ 0 i c Hc). simpl.
  unfold turn_outcome, is_active_at. simpl. rewrite Ha.
  now destruct (settle ask_user_for_input interactive hide_input U P c
                       (candidate U P lean_config environment_name c)) as [[v m] ev].
Qed.

(** The flags one turn adds in non-interactive mode. *)
Lemma turn_missing (hide_input : bool) (fin : list Configuration)
      (ic : nat * Configuration) :
  snd (fst (outcome_at false hide_input pre fin ic))
  = if genuinely_missing MODULE_TYPE MODULE_PLATFORM self lean_config
                         user_provided_options properties environment_name
                         pre fin ic
    then [flag_of (snd ic)] else [].
Proof.
  destruct ic as [i c]. unfold turn_outcome, genuinely_missing. simpl.
  destruct (is_active_at MODULE_TYPE MODULE_PLATFORM self pre fin i c);
    [|reflexivity].
  simpl.
  set (cand := candidate U P lean_config environment_name c).
  assert (E : forall X : pyval * list string * list event,
             snd (fst (let '(v, m, e) := X in (set_value c v, m, e))) = snd (fst X))
    by (now intros [[? ?] ?]).
  rewrite E. clear E.
  destruct (_optional c) eqn:O; simpl.
  - unfold settle. rewrite O. now destruct (is_empty cand).
  - destruct (is_empty cand) eqn:Ec.
    + unfold U, P. rewrite (settle_required_empty _ _ _ _ _ _ Ec O).
      destruct (lookup_spelled user_provided_options (_id c)) eqn:Lu;
        destruct (lookup_spelled properties (_id c)) eqn:Lp; simpl; try reflexivity.
      unfold cand, U, P in Ec.
      rewrite (candidate_default _ _ _ _ _ (lookup_none_only_none _ _ Lu) Lp) in Ec.
      now rewrite Ec.
    + unfold U, P. rewrite (settle_not_empty _ _ _ _ _ _ _ Ec). simpl.
      destruct (lookup_spelled user_provided_options (_id c)) eqn:Lu;
        destruct (lookup_spelled properties (_id c)) eqn:Lp; simpl; try reflexivity.
      unfold cand, U, P in Ec.
      rewrite (candidate_default _ _ _ _ _ (lookup_none_only_none _ _ Lu) Lp) in Ec.
      now rewrite Ec.
Qed.

Lemma resolve_entries_missing (hide_input : bool)
      (missing : list string) (fin : list Configuration) (log : list event) :
  resolve false hide_input = (Ok missing, fin, log) ->
  missing = expected_missing MODULE_TYPE MODULE_PLATFORM self lean_config
                             user_provided_options properties environment_name
                             pre fin.
Proof.
  intros H. apply resolve_entries_outcome in H. cbv zeta in H.
  destruct H as (_ & Hm & _). rewrite Hm. unfold expected_missing.
  rewrite flat_map_concat_map, map_map, <- flat_map_concat_map.
  apply flat_map_flags. intros ic _. apply turn_missing.
Qed.

(** [config_build] logs no warning, however it ends. *)
Lemma config_build_no_warning (interactive hide_input : bool) :
  forallb (fun ev => negb (is_warning ev)) (snd (build interactive hide_input))
  = true.
Proof.
  assert (E : snd (build interactive hide_input)
              = snd (resolve interactive hide_input)).
  { unfold config_build.
    destruct (resolve interactive hide_input) as [[[missing|e] fin] lg];
      [destruct (0 <? List.length missing)%nat|]; reflexivity. }
  rewrite E. unfold resolve_entries.
  now apply build_loop_no_warning.
Qed.

(** Whatever the outcome of [config_build], the entries of the module
    afterwards are the entries as the loop left them. *)
Lemma config_build_entries (interactive hide_input : bool)
      (outcome : exc unit) (self' : JsonModule) (log : list event) :
  build interactive hide_input = (outcome, self', log) ->
  exists r, resolve interactive hide_input = (r, _lean_configs self', log).
Proof.
  unfold config_build.
  destruct (resolve interactive hide_input) as [[[missing|e] fin] lg]; intros H.
  - exists (Ok missing).
    destruct (0 <? List.length missing)%nat; injection H as _ <- <-; reflexivity.
  - exists (Raise e). injection H as _ <- <-. reflexivity.
Qed.

(** When the loop runs to its end, as it does when [config_build] returns
    and when it raises the failure for the missing options, every entry
    has been reached. *)
Lemma resolve_entries_reached (interactive hide_input : bool)
      (missing : list string) (fin : list Configuration) (log : list event)
      (j : nat) (d : Configuration) :
  resolve interactive hide_input = (Ok missing, fin, log) ->
  nth_error pre j = Some d ->
  exists b, active fin j d = Ok b.
Proof.
  intros H Hd. unfold resolve_entries in H.
  exact (build_loop_reached MODULE_TYPE MODULE_PLATFORM ask_user_for_input
           lean_config environment_name user_provided_options properties
           self interactive hide_input _ [] [] [] _ _ _ j d H Hd).
Qed.

(** C1 (as amended): precedence of the sources.  For an entry that
    [config_build] processes (the loop reaches the entry, the filter checks
    of the entries before it having returned, and the entry is active at
    its turn), and however the call ends, the value of the source of
    highest precedence wins and, when it is not empty, is the resolved
    value: the CLI option under the hyphenated or underscored spelling of
    the id; without it, the property under either spelling; without both,
    the persisted default, which is looked up under the id as it is written
    only. *)
Theorem config_build_precedence (interactive hide_input : bool)
        (outcome : exc unit) (self' : JsonModule) (log : list event)
        (i : nat) (c : Configuration) (v : pyval) :
  build interactive hide_input = (outcome, self', log) ->
  nth_error pre i = Some c ->
  (forall j d, j < i -> nth_error pre j = Some d ->
               exists b, active (_lean_configs self') j d = Ok b) ->
  active (_lean_configs self') i c = Ok true ->
  wins lean_config user_provided_options properties environment_name c v ->
  is_empty v = false ->
  nth_error (_lean_configs self') i = Some (set_value c v).
Proof.
  intros H Hc Hbefore Ha W E.
  apply config_build_entries in H as [r H]. unfold resolve_entries in H.
  pose proof (build_loop_stored MODULE_TYPE MODULE_PLATFORM ask_user_for_input
                lean_config environment_name user_provided_options properties
                self interactive hide_input _ [] [] [] _ _ _ i c H Hc Hbefore Ha)
    as S.
  cbn [List.length Nat.add] in S. rewrite S. do 2 f_equal.
  assert (N : is_none v = false) by (destruct v; simpl in *; congruence).
  assert (C : candidate U P lean_config environment_name c = v).
  { destruct W as [v L | v Lu Lp | v Lu Lp D].
    - now apply candidate_cli.
    - apply candidate_properties; [now apply lookup_none_only_none | exact Lp].
    - unfold U, P. rewrite candidate_default;
        [| now apply lookup_none_only_none | exact Lp].
      unfold persisted_default. now rewrite D. }
  fold U P. rewrite C. unfold U, P. now rewrite settle_not_empty.
Qed.

(** C2 (as amended): in non-interactive mode, when no filter check ends the
    loop with an exception, the failure of [config_build] lists exactly the
    entries that are active at their turn and required, whose id is in no
    spelling a key of the CLI options or of the properties, and whose
    persisted default is [None] or blank; there is one failure for all of
    them, and none when there is no such entry. *)
Theorem config_build_missing_options (hide_input : bool)
        (missing : list string) (fin : list Configuration) (log : list event) :
  resolve false hide_input = (Ok missing, fin, log) ->
  let expected :=
    expected_missing MODULE_TYPE MODULE_PLATFORM self lean_config
                     user_provided_options properties environment_name pre fin in
  build false hide_input
  = (match expected with
     | [] => Ok tt
     | _ => Raise (RuntimeError (missing_message expected))
     end, with_configs self fin, log).
Proof.
  intros H. cbv zeta.
  rewrite <- (resolve_entries_missing _ _ _ _ H).
  now apply config_build_of_resolve.
Qed.

(** C3: a required entry whose key is in the properties with the empty
    string as value is not reported missing by the non-interactive
    [config_build]: its flag is not in [missing_options], from which the
    failure is raised; and the empty string is the value of the entry when
    the loop visits it and the CLI options give no value. *)
Theorem config_build_explicit_empty_property (hide_input : bool)
        (missing : list string) (fin : list Configuration) (log : list event)
        (i : nat) (c : Configuration) :
  resolve false hide_input = (Ok missing, fin, log) ->
  nth_error pre i = Some c ->
  _optional c = false ->
  lookup_spelled properties (_id c) = Some (PStr EmptyString) ->
  ~ In (flag_of c) missing
  /\ build false hide_input
     = (match missing with
        | [] => Ok tt
        | _ => Raise (RuntimeError (missing_message missing))
        end, with_configs self fin, log)
  /\ (only_none user_provided_options (_id c) = true ->
      active fin i c = Ok true ->
      nth_error fin i = Some (set_value c (PStr EmptyString))).
Proof.
  intros H Hc O L. split; [|split].
  - rewrite (resolve_entries_missing _ _ _ _ H). unfold expected_missing.
    intros Hin. apply in_map_iff in Hin as ([j d] & Hflag & Hd).
    apply filter_In in Hd as [_ Hd]. simpl in Hflag.
    apply flag_of_inj in Hflag. unfold genuinely_missing in Hd. simpl in Hd.
    rewrite Hflag, L in Hd. rewrite !andb_false_r in Hd. simpl in Hd. discriminate.
  - now apply config_build_of_resolve.
  - intros N Ha. rewrite (resolve_entries_stored _ _ _ _ _ _ _ H Hc Ha).
    do 2 f_equal. fold U P.
    unfold U, P. rewrite (candidate_properties _ _ _ _ _ _ N L).
    rewrite settle_required_empty by (reflexivity || assumption).
    now rewrite L.
Qed.

(** C9 (as amended): [None] as a value.  In non-interactive mode, for a
    required entry that is active at its turn, the failure of
    [config_build] is raised from the list [missing_options], and: a key of
    the properties that maps to [None] counts as provided, the entry gets
    the empty string and is not reported missing; a key of the CLI options
    that maps to [None] is passed over when the value is chosen, which is
    then the value of the properties and, without it, the persisted
    default, but the key counts as provided all the same: the entry is not
    reported missing, and it gets the empty string when the sources below
    give [None]. *)
Theorem config_build_none_values (hide_input : bool)
        (missing : list string) (fin : list Configuration) (log : list event)
        (i : nat) (c : Configuration) :
  resolve false hide_input = (Ok missing, fin, log) ->
  nth_error pre i = Some c ->
  _optional c = false ->
  active fin i c = Ok true ->
  build false hide_input
  = (match missing with
     | [] => Ok tt
     | _ => Raise (RuntimeError (missing_message missing))
     end, with_configs self fin, log)
  /\ (lookup_spelled user_provided_options (_id c) = None ->
      lookup_spelled properties (_id c) = Some PNone ->
      nth_error fin i = Some (set_value c (PStr EmptyString))
      /\ ~ In (flag_of c) missing)
  /\ (lookup_spelled user_provided_options (_id c) = Some PNone ->
      only_none user_provided_options (_id c) = true ->
      let below :=
        match lookup_spelled properties (_id c) with
        | Some v => v
        | None => persisted_default lean_config environment_name c
        end in
      nth_error fin i
      = Some (set_value c (if is_none below then PStr EmptyString else below))
      /\ ~ In (flag_of c) missing).
Proof.
  intros H Hc O Ha. split; [now apply config_build_of_resolve|].
  assert (NotMissing : lookup_spelled user_provided_options (_id c) <> None
                       \/ lookup_spelled properties (_id c) <> None ->
                       ~ In (flag_of c) missing).
  { intros Hk. rewrite (resolve_entries_missing _ _ _ _ H). unfold expected_missing.
    intros Hin. apply in_map_iff in Hin as ([j d] & Hflag & Hd).
    apply filter_In in Hd as [_ Hd]. simpl in Hflag.
    apply flag_of_inj in Hflag. unfold genuinely_missing in Hd. simpl in Hd.
    rewrite Hflag in Hd.
    destruct (lookup_spelled user_provided_options (_id c));
      destruct (lookup_spelled properties (_id c));
      rewrite ?andb_false_r in Hd; simpl in Hd; try discriminate.
    destruct Hk as [Hk | Hk]; now apply Hk. }
  split.
  - intros Lu Lp. split.
    + rewrite (resolve_entries_stored _ _ _ _ _ _ _ H Hc Ha). do 2 f_equal.
      unfold U, P.
      rewrite (candidate_properties _ _ _ _ _ _ (lookup_none_only_none _ _ Lu) Lp).
      rewrite settle_required_empty by (reflexivity || assumption).
      now rewrite Lp.
    + apply NotMissing. right. congruence.
  - intros Lu N below. split.
    + rewrite (resolve_entries_stored _ _ _ _ _ _ _ H Hc Ha). do 2 f_equal.
      assert (C : candidate U P lean_config environment_name c = below).
      { unfold below.
        destruct (lookup_spelled properties (_id c)) as [v|] eqn:Lp.
        - now apply candidate_properties.
        - unfold U, P. now rewrite candidate_default. }
      rewrite C. unfold U, P.
      destruct (is_empty below) eqn:E.
      * rewrite settle_required_empty by assumption. rewrite Lu.
        now destruct (lookup_spelled properties (_id c)).
      * rewrite settle_not_empty by assumption.
        destruct below; simpl in *; congruence.
    + apply NotMissing. left. congruence.
Qed.

End ConfigBuild.

(** *** Examples for [config_build] *)

(** C1, example: the entry [ib-account] with a CLI option in the
    underscored spelling, a property and a persisted default; then without
    the CLI option; then with the persisted default alone.  And a call
    that raises: of three entries the second has a CLI option and the
    first, which is required, has no value anywhere. *)
Lemma config_build_precedence_witness :
  Sample.value_at
    (_lean_configs (snd (fst (Sample.build Sample.one_entry Sample.from_config false
                                           Sample.from_cli Sample.from_properties)))) 0
  = Some (PStr "from-cli")
  /\ Sample.value_at
       (_lean_configs (snd (fst (Sample.build Sample.one_entry Sample.from_config false
                                              [] Sample.from_properties)))) 0
     = Some (PStr "from-properties")
  /\ Sample.value_at
       (_lean_configs (snd (fst (Sample.build Sample.one_entry Sample.from_config false
                                              [] [])))) 0
     = Some (PStr "from-config")
  /\ (fst (fst (Sample.build Sample.three_entries (PDict []) false
                             [("ib_user_name", PStr "from-cli")] []))
      = Raise (RuntimeError "You are missing the following option: --ib-account")
      /\ Sample.value_at
           (_lean_configs
              (snd (fst (Sample.build Sample.three_entries (PDict []) false
                                      [("ib_user_name", PStr "from-cli")] [])))) 1
         = Some (PStr "from-cli")).
Proof.
  unfold Sample.value_at. split; [|split; [|split; [|split]]].
  - rewrite (config_build_precedence
               Sample.MODULE_TYPE Sample.MODULE_PLATFORM Sample.ask
               Sample.one_entry Sample.from_config Sample.from_cli
               Sample.from_properties None false false (Ok tt)
               (snd (fst (Sample.build Sample.one_entry Sample.from_config false
                                       Sample.from_cli Sample.from_properties)))
               [] 0 (set_value Sample.account (PStr "from-config"))
               (PStr "from-cli"));
      [reflexivity | reflexivity | reflexivity | intros j d Hj; lia | reflexivity
       | now apply wins_cli | reflexivity].
  - rewrite (config_build_precedence
               Sample.MODULE_TYPE Sample.MODULE_PLATFORM Sample.ask
               Sample.one_entry Sample.from_config []
               Sample.from_properties None false false (Ok tt)
               (snd (fst (Sample.build Sample.one_entry Sample.from_config false
                                       [] Sample.from_properties)))
               [] 0 (set_value Sample.account (PStr "from-config"))
               (PStr "from-properties"));
      [reflexivity | reflexivity | reflexivity | intros j d Hj; lia | reflexivity
       | now apply wins_properties | reflexivity].
  - rewrite (config_build_precedence
               Sample.MODULE_TYPE Sample.MODULE_PLATFORM Sample.ask
               Sample.one_entry Sample.from_config [] [] None false false (Ok tt)
               (snd (fst (Sample.build Sample.one_entry Sample.from_config false
                                       [] [])))
               [] 0 (set_value Sample.account (PStr "from-config"))
               (PStr "from-config"));
      [reflexivity | reflexivity | reflexivity | intros j d Hj; lia | reflexivity
       | now apply wins_default | reflexivity].
  - reflexivity.
  - rewrite (config_build_precedence
               Sample.MODULE_TYPE Sample.MODULE_PLATFORM Sample.ask
               Sample.three_entries (PDict []) [("ib_user_name", PStr "from-cli")] []
               None false false
               (Raise (RuntimeError "You are missing the following option: --ib-account"))
               (snd (fst (Sample.build Sample.three_entries (PDict []) false
                                       [("ib_user_name", PStr "from-cli")] [])))
               [] 1 Sample.user_name (PStr "from-cli"));
      [reflexivity | reflexivity | reflexivity | | reflexivity
       | now apply wins_cli | reflexivity].
    intros j d Hj Hd. exists true.
    destruct j as [|j]; [injection Hd as <-; reflexivity | lia].
Defined.

(** C1, counterexample.  The persisted configuration holds a value for
    [ib-account] under the underscored spelling, the spelling under which
    a property is found; [config_build] does not find it and reports the
    entry missing.  And a CLI option that is supplied as the empty string
    wins over the property, but is not the resolved value of an optional
    entry with a declared default. *)
Lemma config_build_precedence_counterexample :
  let persisted := [("ib_account", PStr "from-config")] in
  let blank := [("ib-weekly-restart-utc-time", PStr EmptyString)] in
  let props := [("ib-weekly-restart-utc-time", PStr "from-properties")] in
  (lookup_spelled persisted "ib-account" = Some (PStr "from-config")
   /\ Sample.value_at
        (_lean_configs (snd (fst (Sample.build Sample.one_entry (PDict []) false
                                               [] persisted)))) 0
      = Some (PStr "from-config")
   /\ Sample.build Sample.one_entry (PDict persisted) false [] []
      = (Raise (RuntimeError "You are missing the following option: --ib-account"),
         Sample.one_entry, []))
  /\ Sample.value_at
       (_lean_configs
          (snd (fst (Sample.build (Sample.module_of [Sample.restart_with_default])
                                  (PDict []) false blank props)))) 0
     = Some (PStr "22:00:00").
Proof. repeat split. Qed.

(** C2, example: two required entries without a value anywhere and an
    optional one. *)
Lemma config_build_missing_options_witness :
  Sample.build Sample.three_entries (PDict []) false [] []
  = (Raise (RuntimeError
              "You are missing the following options: --ib-account, --ib-user-name"),
     Sample.three_entries, []).
Proof.
  exact (config_build_missing_options
           Sample.MODULE_TYPE Sample.MODULE_PLATFORM Sample.ask
           Sample.three_entries (PDict []) [] [] None false
           ["--ib-account"; "--ib-user-name"]
           (_lean_configs Sample.three_entries) [] eq_refl).
Defined.

(** C2, counterexample.  The persisted configuration has the key
    [ib-account], with a blank value: no active, required entry is absent
    from every source, and still [config_build] raises the failure.  And
    with [ib-account] mapped to [None] in the CLI options and nothing
    else, no source has a value for the entry, and [config_build] raises
    no failure. *)
Lemma config_build_missing_options_counterexample :
  let persisted := PDict [("ib-account", PStr EmptyString)] in
  let pre := prefill persisted None (_lean_configs Sample.one_entry) in
  let fin := _lean_configs (snd (fst (Sample.build Sample.one_entry persisted false [] []))) in
  (get_default persisted "ib-account" None = Ok (PStr EmptyString)
   /\ stated_missing Sample.MODULE_TYPE Sample.MODULE_PLATFORM Sample.one_entry
                     persisted [] [] None pre fin = []
   /\ fst (fst (Sample.build Sample.one_entry persisted false [] []))
      = Raise (RuntimeError "You are missing the following option: --ib-account"))
  /\ Sample.build Sample.one_entry (PDict []) false [("ib-account", PNone)] []
     = (Ok tt, Sample.module_of [set_value Sample.account (PStr EmptyString)], []).
Proof. repeat split. Qed.

(** C3, example: the required entry [ib-account] with the empty string as
    property, next to a required entry without a value: the failure names
    the second entry only. *)
Lemma config_build_explicit_empty_property_witness :
  let props := [("ib-account", PStr EmptyString)] in
  Sample.build Sample.three_entries (PDict []) false [] props
  = (Raise (RuntimeError "You are missing the following option: --ib-user-name"),
     Sample.module_of [set_value Sample.account (PStr EmptyString);
                       Sample.user_name; Sample.restart_time], [])
  /\ ~ In "--ib-account" ["--ib-user-name"]
  /\ Sample.value_at
       (snd (fst (Sample.resolve Sample.three_entries (PDict []) false [] props))) 0
     = Some (PStr EmptyString).
Proof.
  cbv zeta.
  destruct (config_build_explicit_empty_property
              Sample.MODULE_TYPE Sample.MODULE_PLATFORM Sample.ask
              Sample.three_entries (PDict []) [] [("ib-account", PStr EmptyString)]
              None false ["--ib-user-name"]
              [set_value Sample.account (PStr EmptyString);
               Sample.user_name; Sample.restart_time] []
              0 Sample.account eq_refl eq_refl eq_refl eq_refl)
    as (Hflag & Hbuild & Hvalue).
  split; [exact Hbuild|]. split; [exact Hflag|].
  unfold Sample.value_at.
  change (snd (fst (Sample.resolve Sample.three_entries (PDict []) false []
                                   [("ib-account", PStr EmptyString)])))
    with [set_value Sample.account (PStr EmptyString);
          Sample.user_name; Sample.restart_time].
  now rewrite (Hvalue eq_refl eq_refl).
Defined.

(** C9, example: [ib-account] maps to [None] in the properties; it maps
    to [None] in the CLI options while the properties have a value; and it
    maps to [None] in the CLI options and no other source has a value. *)
Lemma config_build_none_values_witness :
  Sample.value_at
    (snd (fst (Sample.resolve Sample.one_entry (PDict []) false
                              [] [("ib_account", PNone)]))) 0
  = Some (PStr EmptyString)
  /\ Sample.value_at
       (snd (fst (Sample.resolve Sample.one_entry (PDict []) false
                                 [("ib_account", PNone)] Sample.from_properties))) 0
     = Some (PStr "from-properties")
  /\ (Sample.value_at
        (snd (fst (Sample.resolve Sample.one_entry (PDict []) false
                                  [("ib_account", PNone)] []))) 0
      = Some (PStr EmptyString)
      /\ Sample.build Sample.one_entry (PDict []) false [("ib_account", PNone)] []
         = (Ok tt, Sample.module_of [set_value Sample.account (PStr EmptyString)],
            [])).
Proof.
  unfold Sample.value_at. split; [|split].
  - destruct (config_build_none_values
                Sample.MODULE_TYPE Sample.MODULE_PLATFORM Sample.ask
                Sample.one_entry (PDict []) [] [("ib_account", PNone)] None false
                [] (snd (fst (Sample.resolve Sample.one_entry (PDict []) false
                                             [] [("ib_account", PNone)]))) []
                0 Sample.account eq_refl eq_refl eq_refl eq_refl) as (_ & Ha & _).
    destruct (Ha eq_refl eq_refl) as [Hv _]. now rewrite Hv.
  - destruct (config_build_none_values
                Sample.MODULE_TYPE Sample.MODULE_PLATFORM Sample.ask
                Sample.one_entry (PDict []) [("ib_account", PNone)]
                Sample.from_properties None false
                [] (snd (fst (Sample.resolve Sample.one_entry (PDict []) false
                                             [("ib_account", PNone)]
                                             Sample.from_properties))) []
                0 Sample.account eq_refl eq_refl eq_refl eq_refl) as (_ & _ & Hb).
    destruct (Hb eq_refl eq_refl) as [Hv _]. now rewrite Hv.
  - destruct (config_build_none_values
                Sample.MODULE_TYPE Sample.MODULE_PLATFORM Sample.ask
                Sample.one_entry (PDict []) [("ib_account", PNone)] [] None false
                [] (snd (fst (Sample.resolve Sample.one_entry (PDict []) false
                                             [("ib_account", PNone)] []))) []
                0 Sample.account eq_refl eq_refl eq_refl eq_refl) as (Hbuild & _ & Hb).
    destruct (Hb eq_refl eq_refl) as [Hv _]. split; [now rewrite Hv | exact Hbuild].
Defined.

(** C9, counterexample: [ib-account] maps to [None] in the CLI options and
    no other source has a value.  Were the key treated as absent, the call
    would end as the call without the key does, with the failure for the
    missing option; it returns, and the entry holds the empty string. *)
Lemma config_build_none_values_counterexample :
  Sample.build Sample.one_entry (PDict []) false [] []
  = (Raise (RuntimeError "You are missing the following option: --ib-account"),
     Sample.one_entry, [])
  /\ Sample.build Sample.one_entry (PDict []) false [("ib_account", PNone)] []
     = (Ok tt, Sample.module_of [set_value Sample.account (PStr EmptyString)], [])
  /\ Sample.build Sample.one_entry (PDict []) false [("ib_account", PNone)] []
     <> Sample.build Sample.one_entry (PDict []) false [] [].
Proof. split; [reflexivity|]. split; [reflexivity | discriminate]. Qed.

(** ** The settings merge *)

Section Merge.

Variable loads : string -> exc pyval.

Lemma fromkeys_from_app (a b seen : list pyval) :
  fromkeys_from seen (a ++ b)
  = (s <- fromkeys_from seen a ;; fromkeys_from s b).
Proof.
  revert seen. induction a as [|x a IH]; intros seen; simpl; [reflexivity|].
  destruct (hashable x); simpl; [|reflexivity].
  destruct (existsb (key_eqb x) seen); apply IH.
Qed.

(** The keys seen so far stay in front. *)
Lemma fromkeys_from_prefix (l seen r : list pyval) :
  fromkeys_from seen l = Ok r -> exists added, r = seen ++ added.
Proof.
  revert seen. induction l as [|x l IH]; intros seen H; simpl in H.
  - injection H as <-. exists []. now rewrite app_nil_r.
  - destruct (hashable x); simpl in H; [|discriminate].
    destruct (existsb (key_eqb x) seen).
    + now apply IH.
    + apply IH in H as [added ->]. exists (x :: added).
      now rewrite <- app_assoc.
Qed.

(** A list without repeated keys is left as it is. *)
Lemma fromkeys_from_stable (l seen r : list pyval) :
  fromkeys_from seen l = Ok r -> fromkeys seen = Ok seen -> fromkeys r = Ok r.
Proof.
  revert seen. induction l as [|x l IH]; intros seen H S; simpl in H.
  - now injection H as <-.
  - destruct (hashable x) eqn:Hx; simpl in H; [|discriminate].
    destruct (existsb (key_eqb x) seen) eqn:Ex.
    + now apply (IH seen).
    + apply (IH (seen ++ [x])); [exact H|].
      unfold fromkeys in *. rewrite fromkeys_from_app, S. simpl.
      now rewrite Hx, Ex.
Qed.

Lemma fromkeys_stable (l r : list pyval) :
  fromkeys l = Ok r -> fromkeys r = Ok r.
Proof. intros H. now apply (fromkeys_from_stable l [] r). Qed.

Lemma grown_from_merge (existing l parsed merged : list pyval) :
  grown_from existing l ->
  fromkeys (l ++ parsed) = Ok merged ->
  grown_from existing merged.
Proof.
  intros G H. right. unfold fromkeys in H. rewrite fromkeys_from_app in H.
  destruct (fromkeys_from [] l) as [k1|e] eqn:K; simpl in H; [|discriminate].
  pose proof (fromkeys_from_prefix _ _ _ H) as [added ->].
  pose proof (fromkeys_from_stable _ _ _ H (fromkeys_stable _ _ K)) as St.
  destruct G as [-> | (kept & added0 & Hk & -> & Hl)].
  - exists k1, added. auto.
  - unfold fromkeys in Hl. rewrite Hl in K. injection K as <-.
    exists kept, (added0 ++ added). rewrite app_assoc. auto.
Qed.

Lemma py_list_of_list (l : list pyval) :
  py_list (if truthy (PList l) then PList l else PList []) = Ok l.
Proof. now destruct l. Qed.

Lemma update_entry_grows (target target' : pydict) (key k : string)
      (value : pyval) (existing l : list pyval) :
  is_list_like key = true ->
  dict_get target key = Some (PList l) ->
  grown_from existing l ->
  update_entry loads target k value = Ok target' ->
  exists l', dict_get target' key = Some (PList l') /\ grown_from existing l'.
Proof.
  intros LL G I H. unfold update_entry in H.
  destruct (is_none value).
  { injection H as <-. eauto. }
  destruct (String.eqb k key) eqn:E.
  - apply String.eqb_eq in E; subst k. rewrite G, LL in H.
    rewrite py_list_of_list in H. simpl in H.
    destruct (fromkeys (l ++ parse_list_value loads value)) as [merged|e] eqn:M;
      simpl in H; [|discriminate].
    injection H as <-. exists merged. rewrite dict_get_set, String.eqb_refl.
    split; [reflexivity|]. eapply grown_from_merge; eauto.
  - assert (K : forall (t : pydict) (v : pyval),
               dict_get (dict_set t k v) key = dict_get t key)
      by (intros; now rewrite dict_get_set, E).
    destruct (dict_get target k).
    + destruct (is_list_like k).
      * destruct (py_list _); simpl in H; [|discriminate].
        destruct (fromkeys _); simpl in H; [|discriminate].
        injection H as <-. rewrite K. eauto.
      * injection H as <-. rewrite K. eauto.
    + injection H as <-. rewrite K. eauto.
Qed.

Lemma update_loop_grows (items target target' : pydict) (outcome : exc unit)
      (key : string) (existing l : list pyval) :
  is_list_like key = true ->
  dict_get target key = Some (PList l) ->
  grown_from existing l ->
  update_loop loads items target = (outcome, target') ->
  exists l', dict_get target' key = Some (PList l') /\ grown_from existing l'.
Proof.
  intros LL. revert target l.
  induction items as [|[k v] items IH]; intros target l G I H; simpl in H.
  - injection H as <- <-. eauto.
  - destruct (update_entry loads target k v) as [t1|e] eqn:U.
    + destruct (update_entry_grows _ _ _ _ _ _ _ LL G I U) as (l1 & G1 & I1).
      eapply IH; eauto.
    + injection H as <- <-. eauto.
Qed.

(** C6 (as amended): the three merges of the list-like key, from the
    existing value A.  The text "A, B" is not JSON and is split at the
    comma; the empty string is parsed as the empty list and the merge, a
    union, leaves the existing list as it is; the text of a JSON array is
    parsed and joined. *)
Theorem update_settings_list_merge :
  (forall v, loads "A, B" <> Ok v) ->
  loads Sample.array_text = Ok (PList [PStr "B"; PStr "C"]) ->
  let merge (value : pyval) :=
    _update_settings loads (Some "env") (Sample.handler_settings [PStr "A"])
                     (Sample.handler_override value) in
  merge (PStr "A, B") = (Ok tt, Sample.handler_settings [PStr "A"; PStr "B"])
  /\ merge (PStr EmptyString) = (Ok tt, Sample.handler_settings [PStr "A"])
  /\ merge (PStr Sample.array_text)
     = (Ok tt, Sample.handler_settings [PStr "A"; PStr "B"; PStr "C"]).
Proof.
  intros Hcsv Harray. cbv zeta. split; [|split].
  - unfold _update_settings, Sample.handler_override, Sample.handler_settings.
    simpl. unfold update_entry. simpl. unfold parse_list_value.
    replace (empty_ish "A, B") with false by reflexivity.
    destruct (loads "A, B") as [v|e] eqn:L; [now destruct (Hcsv v)|].
    reflexivity.
  - reflexivity.
  - unfold _update_settings, Sample.handler_override, Sample.handler_settings.
    simpl. unfold update_entry. simpl. unfold parse_list_value.
    replace (empty_ish Sample.array_text) with false by reflexivity.
    rewrite Harray. reflexivity.
Qed.

(** C10 (as amended): for a list-like key that the settings hold with a
    list as value, the list after [_update_settings], however the call
    ends, is the list before, or begins with the keys of the list before
    without their repeats, in the order of their first occurrence; a list
    without repeats is a prefix of the list after. *)
Theorem update_settings_keeps_existing (environment_name : option string)
        (target target' : pydict) (lean_config : pyval) (outcome : exc unit)
        (key : string) (existing : list pyval) :
  _update_settings loads environment_name target lean_config = (outcome, target') ->
  is_list_like key = true ->
  dict_get target key = Some (PList existing) ->
  exists merged,
    dict_get target' key = Some (PList merged)
    /\ (merged = existing
        \/ exists kept added, fromkeys existing = Ok kept /\ merged = kept ++ added)
    /\ (fromkeys existing = Ok existing -> exists added, merged = existing ++ added).
Proof.
  intros H LL G.
  assert (R : exists l', dict_get target' key = Some (PList l')
                         /\ grown_from existing l').
  { unfold _update_settings in H.
    destruct (_get_env_properties environment_name lean_config) as [| | | | |d];
      try (injection H as <- <-; exists existing; split; [exact G | now left]).
    eapply update_loop_grows; eauto. now left. }
  destruct R as (merged & Hm & [-> | (kept & added & Hk & -> & _)]).
  - exists existing. split; [exact Hm|]. split; [now left|].
    intros _. exists []. now rewrite app_nil_r.
  - exists (kept ++ added). split; [exact Hm|]. split.
    + right. now exists kept, added.
    + intros Hd. rewrite Hd in Hk. injection Hk as <-. now exists added.
Qed.

End Merge.

(** *** Examples for the settings merge *)

(** C6, example: the three merges with the reader of JSON texts above. *)
Lemma update_settings_list_merge_witness :
  _update_settings Json.loads (Some "env") (Sample.handler_settings [PStr "A"])
                   (Sample.handler_override (PStr "A, B"))
  = (Ok tt, Sample.handler_settings [PStr "A"; PStr "B"])
  /\ _update_settings Json.loads (Some "env") (Sample.handler_settings [PStr "A"])
                      (Sample.handler_override (PStr EmptyString))
     = (Ok tt, Sample.handler_settings [PStr "A"])
  /\ _update_settings Json.loads (Some "env") (Sample.handler_settings [PStr "A"])
                      (Sample.handler_override (PStr Sample.array_text))
     = (Ok tt, Sample.handler_settings [PStr "A"; PStr "B"; PStr "C"]).
Proof.
  apply (update_settings_list_merge Json.loads).
  - intros v H. discriminate H.
  - reflexivity.
Defined.

(** C6, counterexample: with the empty string as override the merged
    result is the existing list, not the empty list. *)
Lemma update_settings_list_merge_counterexample :
  _update_settings Json.loads (Some "env") (Sample.handler_settings [PStr "A"])
                   (Sample.handler_override (PStr EmptyString))
  <> (Ok tt, Sample.handler_settings []).
Proof. discriminate. Qed.

(** C10, example: the existing list A grows by B. *)
Lemma update_settings_keeps_existing_witness :
  exists merged,
    dict_get (snd (_update_settings Json.loads (Some "env")
                                    (Sample.handler_settings [PStr "A"])
                                    (Sample.handler_override (PStr "A, B"))))
             "data-queue-handler" = Some (PList merged)
    /\ (merged = [PStr "A"]
        \/ exists kept added,
            fromkeys [PStr "A"] = Ok kept /\ merged = kept ++ added)
    /\ (fromkeys [PStr "A"] = Ok [PStr "A"] ->
        exists added, merged = [PStr "A"] ++ added).
Proof.
  exact (update_settings_keeps_existing
           Json.loads (Some "env") (Sample.handler_settings [PStr "A"])
           (Sample.handler_settings [PStr "A"; PStr "B"])
           (Sample.handler_override (PStr "A, B")) (Ok tt)
           "data-queue-handler" [PStr "A"] eq_refl eq_refl eq_refl).
Defined.

(** C10, counterexample: an existing list with a repeated element loses
    the repeat, with any override that is not [None]; the list before is
    not a prefix of the list after, which is shorter. *)
Lemma update_settings_keeps_existing_counterexample :
  _update_settings Json.loads (Some "env")
                   (Sample.handler_settings [PStr "A"; PStr "A"])
                   (Sample.handler_override (PStr EmptyString))
  = (Ok tt, Sample.handler_settings [PStr "A"])
  /\ ~ (exists added, [PStr "A"] = [PStr "A"; PStr "A"] ++ added).
Proof.
  split; [reflexivity|]. intros [added H]. discriminate H.
Qed.

(** ** The filter gate *)

(** C5, at the failing input: the first condition of the entry looks at a
    mapping and holds of all its values; the second condition fails.  The
    gate answers from the first condition alone and lets the entry pass;
    with the two conditions in the other order the entry is inactive. *)
Theorem filter_gate_mapping_returns_early :
  check (Sample.exact_match "mode" "live") (_value Sample.mode) = Ok false
  /\ _check_if_config_passes_filters Sample.MODULE_TYPE Sample.MODULE_PLATFORM
       Sample.gated_module Sample.gated false = Ok true
  /\ _check_if_config_passes_filters Sample.MODULE_TYPE Sample.MODULE_PLATFORM
       Sample.gated_module Sample.gated_reversed false = Ok false.
Proof. repeat split. Qed.

Section FilterGate.

Variable MODULE_TYPE : string.
Variable MODULE_PLATFORM : string.
Variable self : JsonModule.

Local Abbreviation target condition :=
  (condition_target MODULE_TYPE MODULE_PLATFORM self condition).
Local Abbreviation gate conditions :=
  (passes_conditions MODULE_TYPE MODULE_PLATFORM self false conditions).

Lemma passes_conditions_step (condition : Condition) (rest : list Condition) :
  gate (condition :: rest)
  = (target_value <- target condition ;;
     if negb (truthy target_value) then Ok false
     else match target_value with
          | PDict d => check_all condition (dict_values d)
          | _ =>
              b <- check condition target_value ;;
              if negb b then Ok false else gate rest
          end).
Proof.
  unfold condition_target. simpl.
  destruct (String.eqb (_dependent_config_id condition) MODULE_TYPE); [reflexivity|].
  destruct (String.eqb (_dependent_config_id condition) MODULE_PLATFORM); reflexivity.
Qed.

(** The gate fails closed: a first condition whose target is [None] or
    empty makes the entry inactive. *)
Lemma filter_gate_fails_closed (condition : Condition) (rest : list Condition)
      (target_value : pyval) :
  target condition = Ok target_value ->
  truthy target_value = false ->
  gate (condition :: rest) = Ok false.
Proof. intros T E. rewrite passes_conditions_step, T. simpl. now rewrite E. Qed.

(** A first condition on a mapping decides alone: the answer is whether
    its predicate holds of all the values of the mapping. *)
Lemma filter_gate_mapping (condition : Condition) (rest : list Condition)
      (d : pydict) :
  target condition = Ok (PDict d) ->
  d <> [] ->
  gate (condition :: rest) = check_all condition (dict_values d).
Proof.
  intros T E. rewrite passes_conditions_step, T. simpl.
  destruct d; [now destruct E | reflexivity].
Qed.

(** When the gate lets an entry pass and no condition looks at a mapping,
    every condition holds of its target, which is not empty. *)
Lemma filter_gate_all_conditions (conditions : list Condition) :
  (forall condition v, In condition conditions ->
                       target condition = Ok v -> is_mapping v = false) ->
  gate conditions = Ok true ->
  forall condition, In condition conditions ->
    exists v, target condition = Ok v /\ truthy v = true
              /\ check condition v = Ok true.
Proof.
  induction conditions as [|c rest IH]; intros NoMap H condition Hin;
    [destruct Hin|].
  rewrite passes_conditions_step in H.
  destruct (target c) as [v|e] eqn:T; simpl in H; [|discriminate].
  pose proof (NoMap c v (or_introl eq_refl) T) as M.
  destruct (truthy v) eqn:Tv; simpl in H; [|discriminate].
  assert (Hc : check c v = Ok true /\ gate rest = Ok true).
  { destruct v; try discriminate M;
      (destruct (check c _) as [[|]|e]; simpl in H;
       [now split | discriminate | discriminate]). }
  destruct Hc as [Hc Hrest].
  destruct Hin as [<- | Hin].
  - exists v. auto.
  - apply IH; auto. intros c' v' Hc' Tc'. apply (NoMap c' v'); [now right | exact Tc'].
Qed.

End FilterGate.

(** ** get_settings *)

Lemma with_configs_twice (self : JsonModule) (a b : list Configuration) :
  with_configs (with_configs self a) b = with_configs self b.
Proof. reflexivity. Qed.

Lemma dict_mem_false_keys {V : Type} (d : list (string * V)) (k : string) :
  dict_mem d k = false -> forall kv, In kv d -> String.eqb (fst kv) k = false.
Proof.
  unfold dict_mem. induction d as [|[a w] d IH]; intros H kv Hin; [destruct Hin|].
  simpl in H. destruct (String.eqb a k) eqn:E; [discriminate|].
  destruct Hin as [<- | Hin]; [exact E | now apply IH].
Qed.

Lemma fold_set_untouched (d : pydict) (s : list (string * string)) (k : string) :
  (forall kv, In kv d -> String.eqb (fst kv) k = false) ->
  dict_get (fold_left (fun s kv => dict_set s (fst kv) (Repr.py_str (snd kv))) d s) k
  = dict_get s k.
Proof.
  revert s. induction d as [|kv d IH]; intros s H; simpl; [reflexivity|].
  rewrite IH by (intros; apply H; now right).
  now rewrite dict_get_set, (H kv (or_introl eq_refl)).
Qed.

Section GetSettings.

Variable MODULE_TYPE : string.
Variable MODULE_PLATFORM : string.
Variables (self : JsonModule) (logger : bool).

Local Abbreviation passes c :=
  (_check_if_config_passes_filters MODULE_TYPE MODULE_PLATFORM self c false).
Local Abbreviation build_settings todo settings log :=
  (settings_loop MODULE_TYPE MODULE_PLATFORM self logger todo settings log).

Lemma conditional_outcome_ext (pre pre' fin : list Configuration)
      (ic : nat * Configuration) :
  turn_configs pre fin (fst ic) = turn_configs pre' fin (fst ic) ->
  conditional_outcome self logger pre fin ic
  = conditional_outcome self logger pre' fin ic.
Proof. intros H. unfold conditional_outcome. now rewrite H. Qed.

(** The loop over the conditional entries visits every entry once, in
    order. *)
Lemma conditional_loop_outcome (todo done : list Configuration) (log : list event)
      (fin : list Configuration) (log' : list event) :
  conditional_loop self logger done todo log = (fin, log') ->
  let outs := map (conditional_outcome self logger (done ++ todo) fin)
                  (indexed_from (List.length done) todo) in
  fin = done ++ map fst outs /\ log' = log ++ flat_map snd outs.
Proof.
  revert done log.
  induction todo as [|c rest IH]; intros done log H; simpl in H.
  - injection H as <- <-. simpl. now rewrite !app_nil_r.
  - assert (Step : exists c' ev,
               conditional_loop self logger (done ++ [c']) rest (log ++ ev)
               = (fin, log')
               /\ (if is_conditional_internal c
                   then evaluate_conditional (with_configs self (done ++ c :: rest))
                                             logger c
                   else (c, [])) = (c', ev)).
    { destruct (is_conditional_internal c).
      - destruct (evaluate_conditional (with_configs self (done ++ c :: rest)) logger c)
          as [c' ev]. now exists c', ev.
      - exists c, []. now rewrite app_nil_r. }
    destruct Step as (c' & ev & Hloop & Hstep).
    apply IH in Hloop. cbv zeta in Hloop. destruct Hloop as (Hfin & Hlog).
    rewrite length_app in Hfin, Hlog. simpl in Hfin, Hlog.
    rewrite Nat.add_1_r in Hfin, Hlog.
    assert (Hpre : firstn (List.length done) fin = done).
    { rewrite Hfin, <- app_assoc. apply firstn_prefix. }
    assert (Hhead : conditional_outcome self logger (done ++ c :: rest) fin
                                        (List.length done, c) = (c', ev)).
    { unfold conditional_outcome. simpl fst; simpl snd.
      now rewrite (turn_configs_here _ _ _ Hpre). }
    assert (Htail : map (conditional_outcome self logger ((done ++ [c']) ++ rest) fin)
                        (indexed_from (S (List.length done)) rest)
                    = map (conditional_outcome self logger (done ++ c :: rest) fin)
                          (indexed_from (S (List.length done)) rest)).
    { apply map_ext_in. intros [j d] Hin. apply conditional_outcome_ext. simpl.
      rewrite <- app_assoc. simpl.
      apply turn_configs_later. apply indexed_from_ge in Hin. lia. }
    rewrite Htail in Hfin, Hlog.
    cbv zeta. rewrite indexed_from_cons. simpl map. rewrite Hhead. simpl.
    split.
    + rewrite Hfin at 1. now rewrite <- app_assoc.
    + rewrite Hlog. now rewrite <- app_assoc.
Qed.

Lemma settings_loop_app (a b : list Configuration)
      (settings : list (string * string)) (log : list event) :
  build_settings (a ++ b) settings log
  = build_settings b (fst (build_settings a settings log))
                   (snd (build_settings a settings log)).
Proof.
  revert settings log. induction a as [|c a IH]; intros settings log; simpl.
  - reflexivity.
  - destruct (passes c) as [[|]|e]; apply IH.
Qed.

(** The loop only adds events. *)
Lemma settings_loop_log (todo : list Configuration)
      (settings : list (string * string)) (log : list event) :
  exists more, snd (build_settings todo settings log) = log ++ more.
Proof.
  revert settings log. induction todo as [|c todo IH]; intros settings log; simpl.
  - exists []. now rewrite app_nil_r.
  - destruct (passes c) as [[|]|e].
    + apply IH.
    + apply IH.
    + destruct (IH settings (log ++ [skipping_warning logger (_id c)])) as [more ->].
      exists (skipping_warning logger (_id c) :: more). now rewrite <- app_assoc.
Qed.

(** The settings do not depend on the events so far. *)
Lemma settings_loop_log_irrelevant (todo : list Configuration)
      (settings : list (string * string)) (log log2 : list event) :
  fst (build_settings todo settings log) = fst (build_settings todo settings log2).
Proof.
  revert settings log log2.
  induction todo as [|c todo IH]; intros settings log log2; simpl.
  - reflexivity.
  - destruct (passes c) as [[|]|e]; apply IH.
Qed.

(** Entries that do not write a key leave it as it is. *)
Lemma settings_loop_untouched (todo : list Configuration)
      (settings : list (string * string)) (log : list event) (k : string) :
  forallb (fun d => negb (writes_key d k)) todo = true ->
  dict_get (fst (build_settings todo settings log)) k = dict_get settings k.
Proof.
  revert settings log. induction todo as [|c todo IH]; intros settings log H; simpl.
  - reflexivity.
  - simpl in H. apply andb_true_iff in H as [Hc H].
    apply negb_true_iff in Hc.
    destruct (passes c) as [[|]|e]; rewrite (IH _ _ H); try reflexivity.
    unfold writes_key in Hc.
    destruct (kind c); try (now rewrite dict_get_set, Hc).
    destruct (_value c); try (now rewrite dict_get_set, Hc).
    apply fold_set_untouched. now apply dict_mem_false_keys.
Qed.

(** An entry whose filter check raises is skipped with a warning; the
    settings are those of the loop without the entry. *)
Lemma settings_loop_skips (a b : list Configuration) (c : Configuration)
      (e : pyexc) (settings : list (string * string)) (log : list event) :
  passes c = Raise e ->
  fst (build_settings (a ++ c :: b) settings log)
  = fst (build_settings (a ++ b) settings log)
  /\ In (skipping_warning logger (_id c))
        (snd (build_settings (a ++ c :: b) settings log)).
Proof.
  intros H. rewrite !settings_loop_app. simpl. rewrite H. split.
  - apply settings_loop_log_irrelevant.
  - destruct (settings_loop_log b (fst (build_settings a settings log))
                (snd (build_settings a settings log)
                   ++ [skipping_warning logger (_id c)])) as [more ->].
    apply in_or_app. left. apply in_or_app. right. now left.
Qed.

End GetSettings.

Section GetSettingsCalls.

Variable MODULE_TYPE : string.
Variable MODULE_PLATFORM : string.
Variables (self : JsonModule) (lean_config : pyval).
Variables (environment_name : option string) (logger : bool).

Let pre := prefill_if_context lean_config environment_name logger (_lean_configs self).

Local Abbreviation settings_call :=
  (get_settings MODULE_TYPE MODULE_PLATFORM self lean_config environment_name logger).

(** The three stages of a call. *)
Lemma get_settings_stages (settings : list (string * string)) (self' : JsonModule)
      (log : list event) :
  settings_call = (settings, self', log) ->
  exists log1,
    conditional_loop self logger [] pre [] = (_lean_configs self', log1)
    /\ self' = with_configs self (_lean_configs self')
    /\ settings_loop MODULE_TYPE MODULE_PLATFORM self' logger (_lean_configs self')
                     [("id", _module_id self)] log1 = (settings, log).
Proof.
  unfold get_settings. fold pre.
  destruct (conditional_loop self logger [] pre []) as [cfgs log1].
  destruct (settings_loop MODULE_TYPE MODULE_PLATFORM (with_configs self cfgs)
                          logger cfgs [("id", _module_id self)] log1)
    as [st lg] eqn:S.
  intros H. injection H as <- <- <-. exists log1. simpl. auto.
Qed.

(** The value under the id of an entry that passes its filters and that no
    later entry overwrites. *)
Lemma settings_loop_written (M : JsonModule) (todo : list Configuration) (i : nat)
      (c : Configuration) (settings : list (string * string)) (log : list event) :
  nth_error todo i = Some c ->
  _check_if_config_passes_filters MODULE_TYPE MODULE_PLATFORM M c false = Ok true ->
  kind c = InternalInputUserInput ->
  forallb (fun d => negb (writes_key d (_id c))) (skipn (S i) todo) = true ->
  dict_get (fst (settings_loop MODULE_TYPE MODULE_PLATFORM M logger todo settings log))
           (_id c)
  = Some (setting_string (_value c)).
Proof.
  revert i settings log.
  induction todo as [|a todo IH]; intros i settings log Hc Hp Hk Hw.
  - destruct i; discriminate.
  - destruct i as [|i]; simpl in Hc.
    + injection Hc as ->. simpl. rewrite Hp, Hk.
      simpl in Hw. rewrite (settings_loop_untouched _ _ _ _ _ _ _ _ Hw).
      now rewrite dict_get_set, String.eqb_refl.
    + simpl.
      destruct (_check_if_config_passes_filters MODULE_TYPE MODULE_PLATFORM M a false)
        as [[|]|e]; apply (IH i); assumption.
Qed.

(** What the loop over the conditional entries does with an entry of
    which no option matches: the warning for the entry is among the
    events, and the value slot of the entry becomes the empty string when
    it was unset after the prefill, and is kept otherwise.  When the entry
    passes its filters and no later entry writes its key, the settings
    hold the empty string for an unset entry and the string of its value
    otherwise. *)
Lemma unmatched_conditional_outcome
        (settings : list (string * string)) (self' : JsonModule) (log : list event)
        (i : nat) (c : Configuration) :
  settings_call = (settings, self', log) ->
  nth_error pre i = Some c ->
  is_conditional_internal c = true ->
  first_matching_option
    (with_configs self (turn_configs pre (_lean_configs self') i))
    (_value_options c) = Ok None ->
  let c' := set_value c (if is_none (_value c) then PStr EmptyString else _value c) in
  nth_error (_lean_configs self') i = Some c'
  /\ In (no_match_warning logger (_id c)) log
  /\ (_check_if_config_passes_filters MODULE_TYPE MODULE_PLATFORM self' c' false
      = Ok true ->
      forallb (fun d => negb (writes_key d (_id c))) (skipn (S i) (_lean_configs self'))
      = true ->
      dict_get settings (_id c)
      = Some (if is_none (_value c) then EmptyString else setting_string (_value c))).
Proof.
  intros H Hc Hcond Hnone. cbv zeta.
  apply get_settings_stages in H as (log1 & Hloop & _ & Hset).
  apply conditional_loop_outcome in Hloop. cbv zeta in Hloop. simpl in Hloop.
  destruct Hloop as (Hfin & Hlog).
  assert (Hout : conditional_outcome self logger pre (_lean_configs self') (i, c)
                 = (set_value c (if is_none (_value c) then PStr EmptyString
                                 else _value c),
                    [no_match_warning logger (_id c)])).
  { unfold conditional_outcome. simpl. rewrite Hcond.
    unfold evaluate_conditional. now rewrite Hnone. }
  assert (Hnth : nth_error (_lean_configs self') i
                 = Some (set_value c (if is_none (_value c) then PStr EmptyString
                                      else _value c))).
  { rewrite Hfin at 1. rewrite map_map.
    fold (indexed_from 0 pre).
    rewrite (nth_error_map_indexed _ _ 0 i c Hc). simpl. now rewrite Hout. }
  split; [exact Hnth|]. split.
  - assert (L : snd (settings_loop MODULE_TYPE MODULE_PLATFORM self' logger
                                   (_lean_configs self')
                                   [("id", _module_id self)] log1) = log)
      by now rewrite Hset.
    destruct (settings_loop_log MODULE_TYPE MODULE_PLATFORM self' logger
                                (_lean_configs self')
                                [("id", _module_id self)] log1) as [more Hmore].
    rewrite L in Hmore. rewrite Hmore, Hlog. apply in_or_app. left.
    apply in_flat_map. exists (conditional_outcome self logger pre
                                                   (_lean_configs self') (i, c)).
    split.
    + apply in_map. apply (indexed_from_nth pre 0 i c Hc).
    + rewrite Hout. now left.
  - intros Hp Hw.
    assert (S : fst (settings_loop MODULE_TYPE MODULE_PLATFORM self' logger
                                   (_lean_configs self')
                                   [("id", _module_id self)] log1) = settings)
      by now rewrite Hset.
    rewrite <- S.
    assert (Hk : kind c = InternalInputUserInput).
    { unfold is_conditional_internal in Hcond.
      apply andb_true_iff in Hcond as [Hk _]. now destruct (kind c). }
    pose proof (settings_loop_written self' (_lean_configs self') i _
                  [("id", _module_id self)] log1 Hnth Hp Hk Hw) as W.
    simpl in W. rewrite W. now destruct (_value c).
Qed.

(** An option that names an entry the module does not have looks at
    [None]. *)
Lemma dependent_value_unknown (M : JsonModule) (dep : string) :
  (forall d, In d (_lean_configs M) -> _id d <> dep) ->
  dependent_value M dep = PNone.
Proof.
  intros H. unfold dependent_value, get_config_value_from_name.
  assert (F : filter (fun c => String.eqb (_id c) dep) (_lean_configs M) = []).
  { induction (_lean_configs M) as [|d l IH]; [reflexivity|]. simpl.
    destruct (String.eqb (_id d) dep) eqn:E.
    - apply String.eqb_eq in E. destruct (H d (or_introl eq_refl) E).
    - apply IH. intros d' Hd'. apply H. now right. }
  rewrite F.
  destruct (find (fun c => String.eqb (_id c) dep) (_lean_configs M)) as [d|] eqn:Fd;
    [|reflexivity].
  apply find_some in Fd as [Hin E]. apply String.eqb_eq in E.
  destruct (H d Hin E).
Qed.

(** The loop over the options goes on after the options that do not
    match. *)
Lemma first_matching_option_app (M : JsonModule)
      (before rest : list ConditionalValueOption) :
  first_matching_option M before = Ok None ->
  first_matching_option M (before ++ rest) = first_matching_option M rest.
Proof.
  induction before as [|o before IH]; intros H; [reflexivity|].
  simpl in *.
  destruct (check (_condition o)
                  (dependent_value M (_dependent_config_id (_condition o))))
    as [[|]|e]; simpl in *; try discriminate.
  now apply IH.
Qed.

Lemma prefill_if_context_ids (cfgs : list Configuration) :
  map _id (prefill_if_context lean_config environment_name logger cfgs)
  = map _id cfgs.
Proof.
  unfold prefill_if_context, prefill.
  destruct (negb (is_none lean_config) && logger); [|reflexivity].
  rewrite map_map. apply map_ext. intros d. unfold prefill_entry.
  destruct (is_none (_value d)); [|reflexivity].
  now destruct (get_default lean_config (_id d) environment_name).
Qed.

(** The loop over the conditional entries keeps the ids. *)
Lemma conditional_loop_ids (todo done : list Configuration) (log : list event) :
  map _id (fst (conditional_loop self logger done todo log))
  = map _id (done ++ todo).
Proof.
  revert done log. induction todo as [|c rest IH]; intros done log; simpl.
  - now rewrite app_nil_r.
  - destruct (is_conditional_internal c).
    + destruct (evaluate_conditional (with_configs self (done ++ c :: rest)) logger c)
        as [c' ev] eqn:E.
      rewrite IH, <- app_assoc, !map_app. simpl. do 2 f_equal.
      unfold evaluate_conditional in E.
      destruct (first_matching_option _ _) as [[v|]|e]; now injection E as <- _.
    + rewrite IH, <- app_assoc. reflexivity.
Qed.

(** At every turn of that loop the module has the ids of its entries. *)
Lemma turn_configs_ids (fin : list Configuration) (log1 : list event) (i : nat) :
  conditional_loop self logger [] pre [] = (fin, log1) ->
  map _id (turn_configs pre fin i) = map _id (_lean_configs self).
Proof.
  intros H. pose proof (conditional_loop_ids pre [] []) as E.
  rewrite H in E. simpl in E.
  unfold turn_configs. rewrite map_app, <- firstn_map, <- skipn_map, E.
  rewrite firstn_skipn. apply prefill_if_context_ids.
Qed.

(** C7 (as amended): lookup failures in [get_settings] stay inside the
    call, which always returns.  An entry whose filter check raises, as it
    does when a condition names an entry that the module does not have, is
    skipped: the warning for it is among the events and the settings are
    those of the module without the entry.  An option of a conditional
    entry that names an entry the module does not have is checked against
    [None]; when that check raises, the exception is caught as well: the
    warning for the failed evaluation is among the events and the entry
    keeps its value.  A read of the persisted configuration that fails, in
    the prefill and in [config_build], leaves the entry as it is and gives
    the candidate of a call without persisted configuration; no warning is
    logged for it: [config_build] logs no warning at all. *)
Theorem lookup_failures_stay_local
        (settings : list (string * string)) (self' : JsonModule) (log : list event) :
  settings_call = (settings, self', log) ->
  (forall a b c e,
      _lean_configs self' = a ++ c :: b ->
      _check_if_config_passes_filters MODULE_TYPE MODULE_PLATFORM self' c false
      = Raise e ->
      In (skipping_warning logger (_id c)) log
      /\ settings = fst (settings_loop MODULE_TYPE MODULE_PLATFORM self' logger (a ++ b)
                                       [("id", _module_id self)] []))
  /\ (forall M dep,
         (forall d, In d (_lean_configs M) -> _id d <> dep) ->
         dependent_value M dep = PNone)
  /\ (forall i c before option rest e,
         nth_error pre i = Some c ->
         is_conditional_internal c = true ->
         _value_options c = before ++ option :: rest ->
         first_matching_option
           (with_configs self (turn_configs pre (_lean_configs self') i)) before
         = Ok None ->
         (forall d, In d (_lean_configs self) ->
                    _id d <> _dependent_config_id (_condition option)) ->
         check (_condition option) PNone = Raise e ->
         nth_error (_lean_configs self') i = Some c
         /\ In (conditional_error_warning logger (_id c)) log)
  /\ (forall U P config env d e',
         get_default config (_id d) env = Raise e' ->
         prefill_entry config env d = d
         /\ candidate U P config env d = candidate U P PNone env d)
  /\ (forall ask M config interactive U P env hide_input,
         forallb (fun ev => negb (is_warning ev))
                 (snd (config_build MODULE_TYPE MODULE_PLATFORM ask M config
                                    interactive U P env hide_input)) = true).
Proof.
  intros H. split; [|split; [|split; [|split]]].
  - intros a b c e Hsplit Hraise.
    apply get_settings_stages in H as (log1 & _ & _ & Hset).
    rewrite Hsplit in Hset.
    destruct (settings_loop_skips MODULE_TYPE MODULE_PLATFORM self' logger a b c e
                                  [("id", _module_id self)] log1 Hraise) as [Hs Hw].
    rewrite Hset in Hs, Hw. simpl in Hs, Hw. split; [exact Hw|].
    rewrite Hs. apply settings_loop_log_irrelevant.
  - apply dependent_value_unknown.
  - intros i c before option rest e Hc Hcond Hopts Hbefore Hmissing Hcheck.
    apply get_settings_stages in H as (log1 & Hloop & _ & Hset).
    pose proof (turn_configs_ids _ _ i Hloop) as Hids.
    apply conditional_loop_outcome in Hloop. cbv zeta in Hloop. simpl in Hloop.
    destruct Hloop as (Hfin & Hlog).
    assert (Hout : conditional_outcome self logger pre (_lean_configs self') (i, c)
                   = (c, [conditional_error_warning logger (_id c)])).
    { unfold conditional_outcome. simpl. rewrite Hcond.
      unfold evaluate_conditional.
      rewrite Hopts, (first_matching_option_app _ _ _ Hbefore). simpl.
      rewrite dependent_value_unknown, Hcheck; [reflexivity|].
      intros d Hd. simpl in Hd.
      assert (Hin : In (_id d) (map _id (_lean_configs self)))
        by (rewrite <- Hids; now apply in_map).
      apply in_map_iff in Hin as (d0 & E0 & Hd0). rewrite <- E0.
      now apply Hmissing. }
    split.
    + rewrite Hfin at 1. rewrite map_map.
      fold (indexed_from 0 pre).
      rewrite (nth_error_map_indexed _ _ 0 i c Hc). simpl. now rewrite Hout.
    + assert (L : snd (settings_loop MODULE_TYPE MODULE_PLATFORM self' logger
                                     (_lean_configs self')
                                     [("id", _module_id self)] log1) = log)
        by now rewrite Hset.
      destruct (settings_loop_log MODULE_TYPE MODULE_PLATFORM self' logger
                                  (_lean_configs self')
                                  [("id", _module_id self)] log1) as [more Hmore].
      rewrite L in Hmore. rewrite Hmore, Hlog. apply in_or_app. left.
      apply in_flat_map. exists (conditional_outcome self logger pre
                                                     (_lean_configs self') (i, c)).
      split.
      * apply in_map. apply (indexed_from_nth pre 0 i c Hc).
      * rewrite Hout. now left.
  - intros U P config env d e' Hd. split.
    + unfold prefill_entry. rewrite Hd. now destruct (is_none (_value d)).
    + unfold candidate. now rewrite Hd.
  - intros. apply config_build_no_warning.
Qed.

End GetSettingsCalls.

(** *** Examples for [get_settings] *)

(** C4, at the failing input: the conditional entry
    [ib-agent-description] has the value [Individual], its only option
    wants the mode [live], and the mode is [paper].  No option matches;
    [get_settings] warns that it treats the entry as explicitly empty, and
    returns [Individual] for it, not the empty string.  The same happens
    when the entry is unset and the prefill of [get_settings] itself gives
    it the value.  For the entry without a value the call returns the
    empty string. *)
Theorem get_settings_unmatched_keeps_value :
  first_matching_option (Sample.module_of [Sample.mode; Sample.agent_set])
                        (_value_options Sample.agent_set) = Ok None
  /\ snd (Sample.settings_call (Sample.module_of [Sample.mode; Sample.agent_set]))
     = [no_match_warning false "ib-agent-description"]
  /\ dict_get (Sample.settings_of (Sample.module_of [Sample.mode; Sample.agent_set]))
              "ib-agent-description" = Some "Individual"%string
  /\ get_settings Sample.MODULE_TYPE Sample.MODULE_PLATFORM
                  (Sample.module_of [Sample.mode; Sample.agent_unset])
                  (PDict [("ib-agent-description", PStr "Individual")]) None true
     = ([("id", "InteractiveBrokersBrokerage"); ("mode", "paper");
         ("ib-agent-description", "Individual")]%string,
        Sample.module_of [Sample.mode; Sample.agent_set],
        [no_match_warning true "ib-agent-description"])
  /\ dict_get (Sample.settings_of (Sample.module_of [Sample.mode; Sample.agent_unset]))
              "ib-agent-description" = Some EmptyString.
Proof. repeat split. Qed.

(** C7, example: the filter of the entry [ib-orphan] names an entry that
    the module does not have, and so does the second option of the
    conditional entry [ib-agent-description], whose condition raises on
    [None]; the read of the persisted configuration raises for the
    environment [live]. *)
Lemma lookup_failures_stay_local_witness :
  (In (skipping_warning false "ib-orphan") (snd (Sample.settings_call Cases.lost_module))
   /\ Sample.settings_of Cases.lost_module
      = Sample.settings_of (Sample.module_of [Sample.mode; Cases.agent_lost]))
  /\ dependent_value Cases.lost_module "ib-missing" = PNone
  /\ (nth_error (_lean_configs (snd (fst (Sample.settings_call Cases.lost_module)))) 2
      = Some Cases.agent_lost
      /\ In (conditional_error_warning false "ib-agent-description")
            (snd (Sample.settings_call Cases.lost_module)))
  /\ (prefill_entry Sample.broken_config (Some "live"%string) Sample.restart_time
      = Sample.restart_time
      /\ candidate [] [] Sample.broken_config (Some "live"%string) Sample.restart_time
         = PNone)
  /\ forallb (fun ev => negb (is_warning ev))
             (snd (config_build Sample.MODULE_TYPE Sample.MODULE_PLATFORM Sample.ask
                                (Sample.module_of [Sample.restart_time])
                                Sample.broken_config true [] [] (Some "live"%string)
                                false))
     = true.
Proof.
  destruct (lookup_failures_stay_local
              Sample.MODULE_TYPE Sample.MODULE_PLATFORM
              Cases.lost_module PNone None false
              (Sample.settings_of Cases.lost_module)
              (snd (fst (Sample.settings_call Cases.lost_module)))
              (snd (Sample.settings_call Cases.lost_module)) eq_refl)
    as (Hfilter & Hnone & Hoption & Hread & Hquiet).
  assert (Hids : forall d, In d (_lean_configs Cases.lost_module) ->
                           _id d <> "ib-missing"%string)
    by (intros d [<- | [<- | [<- | []]]]; discriminate).
  split; [|split; [|split; [|split]]].
  - destruct (Hfilter [Sample.mode] [Cases.agent_lost] Sample.orphan ValueError
                      eq_refl eq_refl) as [Hwarn Hset].
    split; [exact Hwarn | rewrite Hset; reflexivity].
  - exact (Hnone Cases.lost_module "ib-missing"%string Hids).
  - exact (Hoption 2 Cases.agent_lost [Sample.agent_option] Cases.lost_option []
                   AttributeError eq_refl eq_refl eq_refl eq_refl Hids eq_refl).
  - destruct (Hread [] [] Sample.broken_config (Some "live"%string)
                    Sample.restart_time TypeError eq_refl) as [Hp Hc].
    split; [exact Hp | rewrite Hc; reflexivity].
  - apply (Hquiet Sample.ask (Sample.module_of [Sample.restart_time])
                  Sample.broken_config true [] [] (Some "live"%string) false).
Defined.

(** C7, counterexample: the read of the persisted configuration raises
    for the entry; [config_build], which has a logger, catches the
    exception and logs no warning. *)
Lemma lookup_failures_stay_local_counterexample :
  let self := Sample.module_of [Sample.restart_time] in
  get_default Sample.broken_config "ib-weekly-restart-utc-time" (Some "live")
  = Raise TypeError
  /\ config_build Sample.MODULE_TYPE Sample.MODULE_PLATFORM Sample.ask self
                  Sample.broken_config false [] [] (Some "live") false
     = (Ok tt, self, []).
Proof. cbv zeta. split; reflexivity. Qed.

(** In [config_build] the filter check is outside every [try]: the
    exception of a condition that names an entry the module does not have
    ends the call. *)
Lemma config_build_filter_lookup_propagates :
  fst (fst (Sample.build (Sample.module_of [Sample.mode; Sample.orphan])
                         (PDict []) false [] []))
  = Raise ValueError.
Proof. reflexivity. Qed.

(** ** Two calls of get_settings *)

Lemma same_shape_fields (a b : Configuration) :
  same_shape a b ->
  _id a = _id b /\ kind a = kind b /\ _is_conditional a = _is_conditional b
  /\ _value_options a = _value_options b.
Proof.
  unfold same_shape. intros H.
  repeat split.
  - exact (f_equal _id H).
  - exact (f_equal kind H).
  - exact (f_equal _is_conditional H).
  - exact (f_equal _value_options H).
Qed.

Lemma same_shape_conditional (a b : Configuration) :
  same_shape a b -> is_conditional_internal a = is_conditional_internal b.
Proof.
  intros H. apply same_shape_fields in H as (_ & Hk & Hc & _).
  unfold is_conditional_internal. now rewrite Hk, Hc.
Qed.

Lemma same_shape_set_value (a b : Configuration) (v : pyval) :
  same_shape a b -> set_value a v = set_value b v.
Proof.
  unfold same_shape. intros H.
  change (set_value (set_value a PNone) v = set_value (set_value b PNone) v).
  now rewrite H.
Qed.

Lemma same_shape_of_set_value (c : Configuration) (v : pyval) :
  same_shape (set_value c v) c.
Proof. reflexivity. Qed.

Lemma same_shape_refl (c : Configuration) : same_shape c c.
Proof. reflexivity. Qed.

Lemma same_shape_trans (a b c : Configuration) :
  same_shape a b -> same_shape b c -> same_shape a c.
Proof. unfold same_shape. congruence. Qed.

Lemma set_value_same (c : Configuration) : set_value c (_value c) = c.
Proof. now destruct c. Qed.

Lemma prefill_entry_shape (lean_config : pyval) (environment_name : option string)
      (x : Configuration) :
  same_shape (prefill_entry lean_config environment_name x) x.
Proof.
  unfold prefill_entry. destruct (is_none (_value x)); [|reflexivity].
  destruct (get_default lean_config (_id x) environment_name); reflexivity.
Qed.

Lemma prefill_entry_valued (lean_config : pyval) (environment_name : option string)
      (x : Configuration) :
  is_none (_value x) = false -> prefill_entry lean_config environment_name x = x.
Proof. intros H. unfold prefill_entry. now rewrite H. Qed.

Lemma prefill_entry_idem (lean_config : pyval) (environment_name : option string)
      (x : Configuration) :
  prefill_entry lean_config environment_name
                (prefill_entry lean_config environment_name x)
  = prefill_entry lean_config environment_name x.
Proof.
  destruct (is_none (_value x)) eqn:N.
  - destruct (get_default lean_config (_id x) environment_name) as [v|e] eqn:D.
    + assert (E : prefill_entry lean_config environment_name x = set_value x v)
        by (unfold prefill_entry; now rewrite N, D).
      rewrite E. unfold prefill_entry. simpl. rewrite D.
      now destruct (is_none v).
    + assert (E : prefill_entry lean_config environment_name x = x)
        by (unfold prefill_entry; now rewrite N, D).
      now rewrite !E.
  - now rewrite !(prefill_entry_valued _ _ _ N).
Qed.

Lemma agree_on_refl (dep : string) (l : list Configuration) : agree_on dep l l.
Proof. induction l; constructor; auto. Qed.

Lemma agree_on_app (dep : string) (a1 a2 b1 b2 : list Configuration) :
  agree_on dep a1 a2 -> agree_on dep b1 b2 -> agree_on dep (a1 ++ b1) (a2 ++ b2).
Proof. apply Forall2_app. Qed.

Lemma filter_agree (dep : string) (l1 l2 : list Configuration) :
  agree_on dep l1 l2 ->
  filter (fun c => String.eqb (_id c) dep) l1
  = filter (fun c => String.eqb (_id c) dep) l2.
Proof.
  induction 1 as [|a b l1 l2 [Hid Heq] _ IH]; simpl; [reflexivity|].
  rewrite <- Hid. destruct (String.eqb (_id a) dep) eqn:E; [|exact IH].
  apply String.eqb_eq in E. now rewrite (Heq E), IH.
Qed.

Lemma find_agree (dep : string) (l1 l2 : list Configuration) :
  agree_on dep l1 l2 ->
  find (fun c => String.eqb (_id c) dep) l1
  = find (fun c => String.eqb (_id c) dep) l2.
Proof.
  induction 1 as [|a b l1 l2 [Hid Heq] _ IH]; simpl; [reflexivity|].
  rewrite <- Hid. destruct (String.eqb (_id a) dep) eqn:E; [|exact IH].
  apply String.eqb_eq in E. now rewrite (Heq E).
Qed.

Lemma dependent_value_agree (self : JsonModule) (dep : string)
      (l1 l2 : list Configuration) :
  agree_on dep l1 l2 ->
  dependent_value (with_configs self l1) dep
  = dependent_value (with_configs self l2) dep.
Proof.
  intros H. unfold dependent_value, get_config_value_from_name. simpl.
  now rewrite (filter_agree _ _ _ H), (find_agree _ _ _ H).
Qed.

Lemma first_matching_option_agree (self : JsonModule)
      (options : list ConditionalValueOption) (l1 l2 : list Configuration) :
  (forall option, In option options ->
                  agree_on (_dependent_config_id (_condition option)) l1 l2) ->
  first_matching_option (with_configs self l1) options
  = first_matching_option (with_configs self l2) options.
Proof.
  induction options as [|option options IH]; intros H; simpl; [reflexivity|].
  rewrite (dependent_value_agree self _ _ _ (H option (or_introl eq_refl))).
  rewrite IH by (intros; apply H; now right). reflexivity.
Qed.

Lemma evaluate_conditional_shape (M : JsonModule) (logger : bool) (c : Configuration) :
  same_shape (fst (evaluate_conditional M logger c)) c.
Proof.
  unfold evaluate_conditional.
  destruct (first_matching_option M (_value_options c)) as [[v|]|e]; reflexivity.
Qed.

Lemma forallb_pointwise {A : Type} (f g : A -> bool) (l : list A) :
  (forall x, f x = g x) -> forallb f l = forallb g l.
Proof.
  intros H. induction l as [|x l IH]; simpl; [reflexivity|]. now rewrite H, IH.
Qed.

Lemma forallb_of_map {A B : Type} (f : A -> B) (g : B -> bool) (l : list A) :
  forallb g (map f l) = forallb (fun x => g (f x)) l.
Proof.
  induction l as [|x l IH]; simpl; [reflexivity|]. now rewrite IH.
Qed.

Lemma looks_backward_map (f : Configuration -> Configuration)
      (l : list Configuration) :
  (forall x, same_shape (f x) x) ->
  looks_backward (map f l) = looks_backward l.
Proof.
  intros Hf. induction l as [|c rest IH]; [reflexivity|].
  change (map f (c :: rest)) with (f c :: map f rest).
  cbn [looks_backward]. rewrite IH.
  rewrite (same_shape_conditional _ _ (Hf c)).
  destruct (same_shape_fields _ _ (Hf c)) as (_ & _ & _ & Ho). rewrite Ho.
  f_equal. f_equal. apply forallb_pointwise. intros option.
  change (f c :: map f rest) with (map f (c :: rest)).
  rewrite forallb_of_map. apply forallb_pointwise. intros d.
  rewrite (same_shape_conditional _ _ (Hf d)).
  destruct (same_shape_fields _ _ (Hf d)) as (Hi & _). now rewrite Hi.
Qed.

Lemma conditional_loop_with_configs (self : JsonModule) (x : list Configuration)
      (logger : bool) (todo done : list Configuration) (log : list event) :
  conditional_loop (with_configs self x) logger done todo log
  = conditional_loop self logger done todo log.
Proof.
  revert done log. induction todo as [|c rest IH]; intros done log; simpl.
  - reflexivity.
  - rewrite with_configs_twice.
    destruct (is_conditional_internal c); [|apply IH].
    destruct (evaluate_conditional (with_configs self (done ++ c :: rest)) logger c).
    apply IH.
Qed.

Section TwoCalls.

Variables (self : JsonModule) (logger : bool).

(** The prefill of an entry, or nothing, as the context of the call has
    it. *)
Variable Pf : Configuration -> Configuration.
Hypothesis Pf_shape : forall x, same_shape (Pf x) x.
Hypothesis Pf_valued : forall x, is_none (_value x) = false -> Pf x = x.

(** The loop over the conditional entries changes values only, and only
    those of conditional entries. *)
Lemma conditional_loop_shape (todo done : list Configuration) (log : list event)
      (fin : list Configuration) (log' : list event) :
  conditional_loop self logger done todo log = (fin, log') ->
  exists todo',
    fin = done ++ todo'
    /\ Forall2 (fun d d' => same_shape d' d
                            /\ (is_conditional_internal d = false -> d' = d))
               todo todo'.
Proof.
  revert done log. induction todo as [|c rest IH]; intros done log H; simpl in H.
  - injection H as <- _. exists []. now rewrite app_nil_r.
  - destruct (is_conditional_internal c) eqn:C.
    + pose proof (evaluate_conditional_shape
                    (with_configs self (done ++ c :: rest)) logger c) as Sh.
      destruct (evaluate_conditional (with_configs self (done ++ c :: rest)) logger c)
        as [c1 ev].
      apply IH in H as (todo' & -> & F). exists (c1 :: todo'). split.
      * now rewrite <- app_assoc.
      * constructor; [|exact F]. split; [exact Sh | congruence].
    + apply IH in H as (todo' & -> & F). exists (c :: todo'). split.
      * now rewrite <- app_assoc.
      * constructor; [|exact F]. split; [apply same_shape_refl | reflexivity].
Qed.

Lemma agree_on_rest (dep : string) (rest rest' : list Configuration) :
  Forall2 (fun d d' => same_shape d' d
                       /\ (is_conditional_internal d = false -> d' = d))
          rest rest' ->
  Forall (fun d => Pf d = d) rest ->
  forallb (fun d => negb (String.eqb (_id d) dep) || negb (is_conditional_internal d))
          rest = true ->
  agree_on dep rest (map Pf rest').
Proof.
  induction 1 as [|d d' rest rest' [Sh Keep] _ IH]; intros FX LB; simpl.
  - constructor.
  - inversion FX as [|? ? Fd FX']; subst. simpl in LB.
    apply andb_true_iff in LB as [LBd LB].
    constructor; [|now apply IH].
    assert (Hid : _id d = _id (Pf d')).
    { destruct (same_shape_fields _ _ (Pf_shape d')) as (-> & _).
      now destruct (same_shape_fields _ _ Sh) as (-> & _). }
    split; [exact Hid|]. intros Hdep.
    rewrite Hdep, String.eqb_refl in LBd. simpl in LBd.
    apply negb_true_iff in LBd. now rewrite (Keep LBd), Fd.
Qed.

(** With options that look backward, the loop run again on the prefilled
    result of a run gives the result of that run. *)
Lemma conditional_loop_again (todo : list Configuration) :
  forall (done : list Configuration) (log : list event)
         (todo' : list Configuration) (log' log2 : list event),
    conditional_loop self logger done todo log = (done ++ todo', log') ->
    looks_backward todo = true ->
    Forall (fun d => Pf d = d) todo ->
    fst (conditional_loop self logger done (map Pf todo') log2) = done ++ todo'.
Proof.
  induction todo as [|c rest IH]; intros done log todo' log' log2 H LB FX.
  - simpl in H. injection H as H _.
    rewrite <- (app_nil_r done) in H at 1. apply app_inv_head in H.
    subst todo'. simpl. now rewrite app_nil_r.
  - simpl in H. cbn [looks_backward] in LB.
    apply andb_true_iff in LB as [LBc LB].
    inversion FX as [|? ? Fc FX']; subst.
    destruct (is_conditional_internal c) eqn:C.
    + simpl in LBc. rewrite forallb_forall in LBc.
      destruct (evaluate_conditional (with_configs self (done ++ c :: rest)) logger c)
        as [c1 ev] eqn:E.
      destruct (conditional_loop_shape _ _ _ _ _ H) as (rest' & Hfin & F).
      rewrite <- app_assoc in Hfin. apply app_inv_head in Hfin. simpl in Hfin.
      subst todo'.
      assert (Sh1 : same_shape c1 c).
      { pose proof (evaluate_conditional_shape
                      (with_configs self (done ++ c :: rest)) logger c) as Sh.
        now rewrite E in Sh. }
      assert (ShP : same_shape (Pf c1) c)
        by (eapply same_shape_trans; [apply Pf_shape | exact Sh1]).
      assert (K : fst (evaluate_conditional
                         (with_configs self (done ++ Pf c1 :: map Pf rest'))
                         logger (Pf c1)) = c1).
      { unfold evaluate_conditional in E |- *.
        destruct (same_shape_fields _ _ ShP) as (Hid & _ & _ & Hopts).
        rewrite Hopts.
        rewrite <- (first_matching_option_agree self (_value_options c)
                      (done ++ c :: rest) (done ++ Pf c1 :: map Pf rest')).
        - destruct (first_matching_option (with_configs self (done ++ c :: rest))
                                          (_value_options c)) as [[v|]|e].
          + injection E as <- _. simpl.
            now rewrite (same_shape_set_value _ _ v (Pf_shape (set_value c v))).
          + injection E as <- _.
            set (w := if is_none (_value c) then PStr EmptyString else _value c).
            assert (Nw : is_none w = false)
              by (unfold w; destruct (_value c); reflexivity).
            rewrite (Pf_valued (set_value c w) Nw). simpl. rewrite Nw.
            reflexivity.
          + injection E as <- _. now rewrite Fc.
        - intros option Hin. specialize (LBc option Hin). simpl in LBc.
          apply andb_true_iff in LBc as [LBhead LBrest].
          apply agree_on_app; [apply agree_on_refl|].
          constructor; [|now apply agree_on_rest].
          split; [now rewrite Hid|]. intros Hdep.
          rewrite Hdep, String.eqb_refl, C in LBhead. discriminate. }
      simpl map. simpl conditional_loop.
      rewrite (same_shape_conditional _ _ ShP), C.
      destruct (evaluate_conditional
                  (with_configs self (done ++ Pf c1 :: map Pf rest')) logger (Pf c1))
        as [c2 ev2]. simpl in K. subst c2.
      rewrite (IH (done ++ [c1]) (log ++ ev) rest' log' (log2 ++ ev2));
        try assumption.
      * now rewrite <- app_assoc.
      * now rewrite <- app_assoc.
    + destruct (conditional_loop_shape _ _ _ _ _ H) as (rest' & Hfin & F).
      rewrite <- app_assoc in Hfin. apply app_inv_head in Hfin. simpl in Hfin.
      subst todo'.
      simpl map. rewrite Fc. simpl conditional_loop. rewrite C.
      rewrite (IH (done ++ [c]) log rest' log' log2); try assumption.
      * now rewrite <- app_assoc.
      * now rewrite <- app_assoc.
Qed.

End TwoCalls.

Lemma get_settings_eq (MODULE_TYPE MODULE_PLATFORM : string) (self : JsonModule)
      (lean_config : pyval) (environment_name : option string) (logger : bool) :
  get_settings MODULE_TYPE MODULE_PLATFORM self lean_config environment_name logger
  = let r := conditional_loop self logger []
               (prefill_if_context lean_config environment_name logger
                                   (_lean_configs self)) [] in
    let self' := with_configs self (fst r) in
    let st := settings_loop MODULE_TYPE MODULE_PLATFORM self' logger (fst r)
                            [("id", _module_id self)] (snd r) in
    (fst st, self', snd st).
Proof.
  unfold get_settings.
  destruct (conditional_loop self logger []
              (prefill_if_context lean_config environment_name logger
                                  (_lean_configs self)) []) as [cfgs log].
  cbv zeta. simpl fst. simpl snd.
  now destruct (settings_loop MODULE_TYPE MODULE_PLATFORM (with_configs self cfgs)
                              logger cfgs [("id", _module_id self)] log).
Qed.

(** C8 (as amended): when no option of a conditional entry names the entry
    itself or a conditional entry that stands after it, a second call of
    [get_settings], in the same context, returns the settings of the
    first. *)
Theorem get_settings_twice (MODULE_TYPE MODULE_PLATFORM : string) (self : JsonModule)
        (lean_config : pyval) (environment_name : option string) (logger : bool) :
  looks_backward (_lean_configs self) = true ->
  fst (fst (get_settings MODULE_TYPE MODULE_PLATFORM
              (snd (fst (get_settings MODULE_TYPE MODULE_PLATFORM self lean_config
                                      environment_name logger)))
              lean_config environment_name logger))
  = fst (fst (get_settings MODULE_TYPE MODULE_PLATFORM self lean_config
                           environment_name logger)).
Proof.
  intros LB.
  set (Pf := fun x => if negb (is_none lean_config) && logger
                      then prefill_entry lean_config environment_name x else x).
  assert (Pmap : forall l, prefill_if_context lean_config environment_name logger l
                           = map Pf l).
  { intros l. unfold prefill_if_context, prefill, Pf.
    destruct (negb (is_none lean_config) && logger); [reflexivity|].
    now rewrite map_id. }
  assert (Pshape : forall x, same_shape (Pf x) x).
  { intros x. unfold Pf. destruct (negb (is_none lean_config) && logger);
      [apply prefill_entry_shape | apply same_shape_refl]. }
  assert (Pidem : forall x, Pf (Pf x) = Pf x).
  { intros x. unfold Pf. destruct (negb (is_none lean_config) && logger);
      [apply prefill_entry_idem | reflexivity]. }
  assert (Pvalued : forall x, is_none (_value x) = false -> Pf x = x).
  { intros x N. unfold Pf. destruct (negb (is_none lean_config) && logger);
      [now apply prefill_entry_valued | reflexivity]. }
  rewrite (get_settings_eq _ _ self). cbv zeta. simpl fst. simpl snd.
  rewrite get_settings_eq. cbv zeta. simpl fst. simpl snd.
  rewrite !Pmap.
  destruct (conditional_loop self logger [] (map Pf (_lean_configs self)) [])
    as [t log1] eqn:L1.
  simpl fst. simpl snd. rewrite conditional_loop_with_configs.
  assert (L2 : fst (conditional_loop self logger [] (map Pf t) []) = t).
  { apply (conditional_loop_again self logger Pf Pshape Pvalued
             (map Pf (_lean_configs self)) [] [] t log1 []).
    - exact L1.
    - now rewrite looks_backward_map.
    - apply Forall_forall. intros d Hd. apply in_map_iff in Hd as (x & <- & _).
      apply Pidem. }
  rewrite L2. rewrite with_configs_twice. apply settings_loop_log_irrelevant.
Qed.

(** C8, example: the conditional entries of the module look backward. *)
Lemma get_settings_twice_witness :
  Sample.settings_of (snd (fst (Sample.settings_call Sample.backward_module)))
  = Sample.settings_of Sample.backward_module.
Proof.
  exact (get_settings_twice Sample.MODULE_TYPE Sample.MODULE_PLATFORM
                            Sample.backward_module PNone None false eq_refl).
Defined.

(** C8, counterexample: the first conditional entry depends on the second,
    which the first call evaluates after it.  The first call returns the
    empty string for the first entry, the second call the value of its
    option. *)
Lemma get_settings_twice_counterexample :
  dict_get (Sample.settings_of Sample.forward_module) "ib-relay" = Some EmptyString
  /\ dict_get (Sample.settings_of
                 (snd (fst (Sample.settings_call Sample.forward_module))))
              "ib-relay" = Some "relayed"
  /\ Sample.settings_of (snd (fst (Sample.settings_call Sample.forward_module)))
     <> Sample.settings_of Sample.forward_module.
Proof. split; [reflexivity|]. split; [reflexivity | discriminate]. Qed.

(** * Further properties *)

(** ** config_build *)

Lemma prefill_shape (lean_config : pyval) (environment_name : option string)
      (cfgs : list Configuration) :
  Forall2 same_shape (prefill lean_config environment_name cfgs) cfgs.
Proof.
  induction cfgs as [|c cfgs IH]; simpl; constructor; [|exact IH].
  apply prefill_entry_shape.
Qed.

Lemma Forall2_same_shape_trans (l1 l2 l3 : list Configuration) :
  Forall2 same_shape l1 l2 -> Forall2 same_shape l2 l3 -> Forall2 same_shape l1 l3.
Proof.
  intros H. revert l3. induction H as [|a b l1 l2 Hab _ IH]; intros l3 H3.
  - inversion H3. constructor.
  - inversion H3 as [|? c ? l3' Hbc H3']; subst. constructor.
    + eapply same_shape_trans; eauto.
    + now apply IH.
Qed.

Lemma Forall2_same_shape_refl (l : list Configuration) : Forall2 same_shape l l.
Proof. induction l; constructor; [apply same_shape_refl | assumption]. Qed.

Section ConfigBuildFurther.

Variable MODULE_TYPE : string.
Variable MODULE_PLATFORM : string.
Variable ask_user_for_input : Configuration -> pyval -> bool -> pyval.

Variables (self : JsonModule) (lean_config : pyval).
Variables (user_provided_options properties : pydict).
Variables (environment_name : option string).

Let U := _normalized_options_map user_provided_options.
Let P := _normalized_options_map properties.
Let pre := prefill lean_config environment_name (_lean_configs self).

Local Abbreviation resolve interactive hide_input :=
  (resolve_entries MODULE_TYPE MODULE_PLATFORM ask_user_for_input self lean_config
                   interactive user_provided_options properties environment_name
                   hide_input).
Local Abbreviation build interactive hide_input :=
  (config_build MODULE_TYPE MODULE_PLATFORM ask_user_for_input self lean_config
                interactive user_provided_options properties environment_name
                hide_input).
Local Abbreviation active fin i c :=
  (active_at MODULE_TYPE MODULE_PLATFORM self pre fin i c).

Lemma build_loop_shape (interactive hide_input : bool) (A B : pydict)
      (todo done : list Configuration) (missing : list string) (log : list event) :
  exists todo',
    snd (fst (build_loop MODULE_TYPE MODULE_PLATFORM ask_user_for_input self
                         lean_config interactive hide_input A B environment_name
                         done todo missing log)) = done ++ todo'
    /\ Forall2 same_shape todo' todo.
Proof.
  revert done missing log.
  induction todo as [|c rest IH]; intros done missing log; simpl.
  - exists []. now rewrite app_nil_r.
  - destruct (_check_if_config_passes_filters MODULE_TYPE MODULE_PLATFORM
                (with_configs self (done ++ c :: rest)) c false) as [[|]|e].
    + destruct (settle ask_user_for_input interactive hide_input A B c
                       (candidate A B lean_config environment_name c))
        as [[v m] ev].
      destruct (IH (done ++ [set_value c v]) (missing ++ m) (log ++ ev))
        as (todo' & -> & F).
      exists (set_value c v :: todo'). split; [now rewrite <- app_assoc|].
      constructor; [reflexivity | exact F].
    + destruct (IH (done ++ [c]) missing log) as (todo' & -> & F).
      exists (c :: todo'). split; [now rewrite <- app_assoc|].
      constructor; [apply same_shape_refl | exact F].
    + exists (c :: rest). split; [reflexivity | apply Forall2_same_shape_refl].
Qed.

Lemma config_build_configs (interactive hide_input : bool) :
  _lean_configs (snd (fst (build interactive hide_input)))
  = snd (fst (resolve interactive hide_input)).
Proof.
  unfold config_build.
  destruct (resolve interactive hide_input) as [[[missing|e] fin] lg]; simpl;
    [|reflexivity].
  now destruct (0 <? List.length missing)%nat.
Qed.

Lemma config_build_events (interactive hide_input : bool) :
  snd (build interactive hide_input) = snd (resolve interactive hide_input).
Proof.
  unfold config_build.
  destruct (resolve interactive hide_input) as [[[missing|e] fin] lg]; simpl;
    [|reflexivity].
  now destruct (0 <? List.length missing)%nat.
Qed.

(** X1: however [config_build] ends, the module has the same entries in
    the same order afterwards; they differ from the entries before at most
    in their values. *)
Theorem config_build_keeps_entries (interactive hide_input : bool) :
  Forall2 same_shape
          (_lean_configs (snd (fst (build interactive hide_input))))
          (_lean_configs self).
Proof.
  rewrite config_build_configs. unfold resolve_entries.
  destruct (build_loop_shape interactive hide_input
              (_normalized_options_map user_provided_options)
              (_normalized_options_map properties)
              (prefill lean_config environment_name (_lean_configs self)) [] [] [])
    as (todo' & -> & F).
  simpl. eapply Forall2_same_shape_trans; [exact F | apply prefill_shape].
Qed.

Lemma build_loop_silent (hide_input : bool) (A B : pydict)
      (todo done : list Configuration) (missing : list string) (log : list event) :
  snd (build_loop MODULE_TYPE MODULE_PLATFORM ask_user_for_input self lean_config
                  false hide_input A B environment_name done todo missing log)
  = log.
Proof.
  revert done missing log.
  induction todo as [|c rest IH]; intros done missing log; simpl; [reflexivity|].
  destruct (_check_if_config_passes_filters MODULE_TYPE MODULE_PLATFORM
              (with_configs self (done ++ c :: rest)) c false) as [[|]|e];
    [| apply IH | reflexivity].
  assert (E : snd (settle ask_user_for_input false hide_input A B c
                          (candidate A B lean_config environment_name c)) = []).
  { unfold settle.
    destruct (is_empty _); [|reflexivity].
    destruct (_optional c); [reflexivity|].
    now destruct (_ || _). }
  destruct (settle ask_user_for_input false hide_input A B c
                   (candidate A B lean_config environment_name c)) as [[v m] ev].
  simpl in E. subst ev. rewrite IH. apply app_nil_r.
Qed.

(** X2: in non-interactive mode [config_build] never prompts and never
    saves a property, however it ends. *)
Theorem config_build_non_interactive_silent (hide_input : bool) :
  snd (build false hide_input) = [].
Proof. rewrite config_build_events. apply build_loop_silent. Qed.

Lemma build_loop_interactive (hide_input : bool) (A B : pydict)
      (todo done : list Configuration) (missing : list string) (log : list event)
      (res : list string) (fin : list Configuration) (log' : list event) :
  build_loop MODULE_TYPE MODULE_PLATFORM ask_user_for_input self lean_config
             true hide_input A B environment_name done todo missing log
  = (Ok res, fin, log') ->
  res = missing.
Proof.
  revert done missing log.
  induction todo as [|c rest IH]; intros done missing log H; simpl in H.
  - now injection H as <- _ _.
  - destruct (_check_if_config_passes_filters MODULE_TYPE MODULE_PLATFORM
                (with_configs self (done ++ c :: rest)) c false) as [[|]|e];
      [| now apply IH in H | discriminate].
    assert (E : snd (fst (settle ask_user_for_input true hide_input A B c
                                 (candidate A B lean_config environment_name c)))
                = []).
    { unfold settle. now destruct (is_empty _). }
    destruct (settle ask_user_for_input true hide_input A B c
                     (candidate A B lean_config environment_name c)) as [[v m] ev].
    simpl in E. subst m. apply IH in H. now rewrite app_nil_r in H.
Qed.

(** X3: an interactive [config_build] never raises the failure for
    missing options.  Nothing is recorded as missing in interactive mode,
    and the call ends as its loop over the entries ends: it returns when
    the loop runs to its end, and an exception of the call is the
    exception that ended the loop. *)
Theorem config_build_interactive_no_missing (hide_input : bool)
        (outcome : exc unit) (self' : JsonModule) (log : list event) :
  build true hide_input = (outcome, self', log) ->
  resolve true hide_input
  = (match outcome with Ok _ => Ok [] | Raise e => Raise e end,
     _lean_configs self', log).
Proof.
  unfold config_build.
  destruct (resolve true hide_input) as [[[missing|e] fin] lg] eqn:R.
  - assert (M : missing = []) by (eapply build_loop_interactive; exact R).
    subst missing. intros H. injection H as <- <- <-. reflexivity.
  - intros H. injection H as <- <- <-. reflexivity.
Qed.

(** X4: an entry that its filter excludes when the loop reaches it keeps
    the value it has after the prefill. *)
Theorem config_build_inactive_untouched (interactive hide_input : bool)
        (missing : list string) (fin : list Configuration) (log : list event)
        (i : nat) (c : Configuration) :
  resolve interactive hide_input = (Ok missing, fin, log) ->
  nth_error pre i = Some c ->
  active fin i c = Ok false ->
  nth_error fin i = Some c.
Proof.
  intros H Hc Ha.
  apply (resolve_entries_outcome MODULE_TYPE MODULE_PLATFORM ask_user_for_input)
    in H.
  cbv zeta in H. destruct H as (Hfin & _ & _). rewrite Hfin at 1. rewrite map_map.
  unfold indexed. rewrite (nth_error_map_indexed _ _ 0 i c Hc). simpl.
  unfold turn_outcome, is_active_at. simpl. fold pre. now rewrite Ha.
Qed.

(** X5: after a non-interactive [config_build] that returns, every
    required entry that was active at its turn has a value, which is not
    [None]. *)
Theorem config_build_required_has_value (hide_input : bool)
        (self' : JsonModule) (log : list event) (i : nat) (c : Configuration) :
  build false hide_input = (Ok tt, self', log) ->
  nth_error pre i = Some c ->
  active (_lean_configs self') i c = Ok true ->
  _optional c = false ->
  exists c', nth_error (_lean_configs self') i = Some c'
             /\ same_shape c' c /\ is_none (_value c') = false.
Proof.
  intros H Hc Ha O. apply config_build_returns in H.
  pose proof (resolve_entries_stored _ _ _ _ _ _ _ _ _ _ _ _ _ _ _ H Hc Ha) as St.
  pose proof (resolve_entries_missing _ _ _ _ _ _ _ _ _ _ _ _ H) as M.
  eexists. split; [exact St|]. split; [reflexivity|]. simpl.
  fold U P in St |- *.
  set (cand := candidate U P lean_config environment_name c).
  destruct (is_empty cand) eqn:E.
  - unfold U, P. rewrite (settle_required_empty _ _ _ _ _ _ E O).
    destruct (lookup_spelled properties (_id c)) eqn:Lp;
      [simpl; now destruct cand|].
    destruct (lookup_spelled user_provided_options (_id c)) eqn:Lu;
      [simpl; now destruct cand|].
    exfalso. unfold expected_missing in M.
    assert (Hin : In (flag_of c)
                     (map (fun ic => flag_of (snd ic))
                          (filter (genuinely_missing MODULE_TYPE MODULE_PLATFORM self
                                     lean_config user_provided_options properties
                                     environment_name pre (_lean_configs self'))
                                  (indexed pre)))).
    { apply in_map_iff. exists (i, c). split; [reflexivity|].
      apply filter_In. split.
      - apply (indexed_from_nth pre 0 i c Hc).
      - unfold genuinely_missing, is_active_at. simpl. fold pre. rewrite Ha, O, Lu, Lp.
        simpl. unfold cand, U, P in E.
        now rewrite (candidate_default _ _ _ _ _ (lookup_none_only_none _ _ Lu) Lp)
          in E. }
    fold pre in M. rewrite <- M in Hin. destruct Hin.
  - unfold U, P. rewrite (settle_not_empty _ _ _ _ _ _ _ E). simpl.
    destruct cand; simpl in *; congruence.
Qed.

(** X6: in non-interactive mode, an optional entry that is active and has
    no key in the CLI options or the properties, and a persisted default
    that is [None] or blank, gets its declared default when there is one,
    and keeps the persisted default otherwise. *)
Theorem config_build_optional_default (hide_input : bool)
        (missing : list string) (fin : list Configuration) (log : list event)
        (i : nat) (c : Configuration) :
  resolve false hide_input = (Ok missing, fin, log) ->
  nth_error pre i = Some c ->
  active fin i c = Ok true ->
  _optional c = true ->
  lookup_spelled user_provided_options (_id c) = None ->
  lookup_spelled properties (_id c) = None ->
  is_empty (persisted_default lean_config environment_name c) = true ->
  nth_error fin i
  = Some (set_value c (if is_none (_input_default c)
                       then persisted_default lean_config environment_name c
                       else _input_default c)).
Proof.
  intros H Hc Ha O Lu Lp E.
  rewrite (resolve_entries_stored _ _ _ _ _ _ _ _ _ _ _ _ _ _ _ H Hc Ha).
  do 2 f_equal.
  rewrite (candidate_default _ _ _ _ _ (lookup_none_only_none _ _ Lu) Lp).
  unfold settle. now rewrite E, O.
Qed.

End ConfigBuildFurther.

(** ** get_default *)

Lemma py_in_dict (key : string) (d : pydict) :
  py_in key (PDict d) = Ok (dict_mem d key).
Proof. reflexivity. Qed.

Lemma py_in_dict_present (key : string) (d : pydict) (v : pyval) :
  dict_get d key = Some v -> py_in key (PDict d) = Ok true.
Proof. intros H. unfold py_in, dict_mem. now rewrite H. Qed.

Lemma py_in_dict_absent (key : string) (d : pydict) :
  dict_get d key = None -> py_in key (PDict d) = Ok false.
Proof. intros H. unfold py_in, dict_mem. now rewrite H. Qed.

Lemma py_getitem_dict_present (key : string) (d : pydict) (v : pyval) :
  dict_get d key = Some v -> py_getitem (PDict d) key = Ok v.
Proof. intros H. unfold py_getitem. now rewrite H. Qed.

Lemma top_level_lookup (d : pydict) (key : string) :
  (has_key <- py_in key (PDict d) ;;
   if has_key then py_getitem (PDict d) key else Ok PNone)
  = Ok (match dict_get d key with Some v => v | None => PNone end).
Proof. unfold py_in, py_getitem, dict_mem. simpl. now destruct (dict_get d key). Qed.

(** X7: in a configuration that declares the environment, the block of
    the environment decides when it has the key, and the top level of the
    configuration otherwise; without the key in both the default is
    [None].  The lookup does not raise. *)
Theorem get_default_environment_first (d envs block : pydict) (key env : string) :
  String.eqb env EmptyString = false ->
  dict_get d "environments" = Some (PDict envs) ->
  dict_get envs env = Some (PDict block) ->
  get_default (PDict d) key (Some env)
  = Ok (match dict_get block key with
        | Some v => v
        | None => match dict_get d key with Some v => v | None => PNone end
        end).
Proof.
  intros He Hd Hb. unfold get_default. cbn [is_none]. rewrite He.
  rewrite (py_in_dict_present _ _ _ Hd). cbn [bind].
  rewrite (py_getitem_dict_present _ _ _ Hd). cbn [bind].
  rewrite (py_in_dict_present _ _ _ Hb). cbn [bind].
  rewrite (py_getitem_dict_present _ _ _ Hb). cbn [bind].
  destruct (dict_get block key) as [v|] eqn:Hk.
  - rewrite (py_in_dict_present _ _ _ Hk). cbn [bind].
    now rewrite (py_getitem_dict_present _ _ _ Hk).
  - rewrite (py_in_dict_absent _ _ Hk). cbn [bind]. apply top_level_lookup.
Qed.

(** X8: the environments are not consulted when there is no environment
    name, when the name is empty, when the configuration declares no
    environments, or when it does not declare the named one: the default
    is the value at the top level of the configuration, or [None]. *)
Theorem get_default_top_level (d : pydict) (key : string)
        (environment_name : option string) :
  environment_name = None
  \/ environment_name = Some EmptyString
  \/ dict_get d "environments" = None
  \/ (exists envs env,
         environment_name = Some env
         /\ dict_get d "environments" = Some (PDict envs)
         /\ dict_get envs env = None) ->
  get_default (PDict d) key environment_name
  = Ok (match dict_get d key with Some v => v | None => PNone end).
Proof.
  intros H. unfold get_default. cbn [is_none].
  destruct H as [-> | [-> | [Hd | (envs & env & -> & Hd & Hb)]]].
  - cbn [bind]. apply top_level_lookup.
  - cbn [bind String.eqb]. apply top_level_lookup.
  - destruct environment_name as [env|]; [|cbn [bind]; apply top_level_lookup].
    destruct (String.eqb env EmptyString); [cbn [bind]; apply top_level_lookup|].
    rewrite (py_in_dict_absent _ _ Hd). cbn [bind]. apply top_level_lookup.
  - destruct (String.eqb env EmptyString); [cbn [bind]; apply top_level_lookup|].
    rewrite (py_in_dict_present _ _ _ Hd). cbn [bind].
    rewrite (py_getitem_dict_present _ _ _ Hd). cbn [bind].
    rewrite (py_in_dict_absent _ _ Hb). cbn [bind]. apply top_level_lookup.
Qed.

(** ** Filters *)

(** X9: with [all_for_platform_type] set, as for the help of the command
    line, the filter gate looks at the type and the platform of the module
    only: the entries of the module and their values do not matter, and no
    missing entry can make it raise. *)
Theorem filters_for_help_ignore_entries (MODULE_TYPE MODULE_PLATFORM : string)
        (self : JsonModule) (cfgs : list Configuration) (config : Configuration) :
  _check_if_config_passes_filters MODULE_TYPE MODULE_PLATFORM
    (with_configs self cfgs) config true
  = _check_if_config_passes_filters MODULE_TYPE MODULE_PLATFORM self config true.
Proof.
  unfold _check_if_config_passes_filters.
  induction (_conditions (_filter config)) as [|condition rest IH]; simpl;
    [reflexivity|].
  rewrite IH.
  destruct (String.eqb (_dependent_config_id condition) MODULE_TYPE); [reflexivity|].
  destruct (String.eqb (_dependent_config_id condition) MODULE_PLATFORM);
    reflexivity.
Qed.

(** ** get_paths_to_mount *)

Section Paths.

Variable MODULE_TYPE : string.
Variable MODULE_PLATFORM : string.
Variable self : JsonModule.

Local Abbreviation passes c :=
  (_check_if_config_passes_filters MODULE_TYPE MODULE_PLATFORM self c false).
Local Abbreviation mount todo paths :=
  (paths_loop MODULE_TYPE MODULE_PLATFORM self todo paths).

Lemma paths_loop_app (a b : list Configuration) (paths : pydict) :
  mount (a ++ b) paths = (paths' <- mount a paths ;; mount b paths').
Proof.
  revert paths. induction a as [|c a IH]; intros paths; simpl; [reflexivity|].
  destruct (kind_eqb (kind c) PathParameterUserInput); [|apply IH].
  destruct (passes c) as [active|e]; simpl; [apply IH | reflexivity].
Qed.

Lemma paths_loop_origin (todo : list Configuration) (paths paths' : pydict)
      (k : string) (v : pyval) :
  mount todo paths = Ok paths' ->
  dict_get paths' k = Some v ->
  dict_get paths k = Some v
  \/ exists c, In c todo /\ kind c = PathParameterUserInput
               /\ _id c = k /\ _value c = v /\ passes c = Ok true.
Proof.
  revert paths. induction todo as [|c todo IH]; intros paths H G; simpl in H.
  - injection H as <-. now left.
  - destruct (kind_eqb (kind c) PathParameterUserInput) eqn:K.
    + destruct (passes c) as [[|]|e] eqn:Pc; simpl in H; try discriminate.
      * destruct (IH _ H G) as [G' | (c' & Hin & Hc')].
        -- rewrite dict_get_set in G'.
           destruct (String.eqb (_id c) k) eqn:E.
           ++ right. exists c. apply String.eqb_eq in E. injection G' as <-.
              split; [now left|]. split; [now destruct (kind c)|].
              split; [exact E|]. split; [reflexivity | exact Pc].
           ++ now left.
        -- right. exists c'. split; [now right | exact Hc'].
      * destruct (IH _ H G) as [G' | (c' & Hin & Hc')]; [now left|].
        right. exists c'. split; [now right | exact Hc'].
    + destruct (IH _ H G) as [G' | (c' & Hin & Hc')]; [now left|].
      right. exists c'. split; [now right | exact Hc'].
Qed.

(** X10: every path that [get_paths_to_mount] returns is the value of an
    entry of the module that is a path parameter and passes its filters,
    under the id of that entry. *)
Theorem get_paths_to_mount_origin (paths : pydict) (k : string) (v : pyval) :
  get_paths_to_mount MODULE_TYPE MODULE_PLATFORM self = Ok paths ->
  dict_get paths k = Some v ->
  exists c, In c (_lean_configs self) /\ kind c = PathParameterUserInput
            /\ _id c = k /\ _value c = v /\ passes c = Ok true.
Proof.
  intros H G. destruct (paths_loop_origin _ _ _ _ _ H G) as [C | C];
    [discriminate | exact C].
Qed.

(** X11: [get_paths_to_mount] has no handler around the filter check: the
    exception of the check of a path parameter ends the call, when the
    checks of the path parameters before it return; entries that are not
    path parameters are never checked. *)
Theorem get_paths_to_mount_propagates (before after : list Configuration)
        (c : Configuration) (e : pyexc) :
  _lean_configs self = before ++ c :: after ->
  (forall d, In d before -> kind d = PathParameterUserInput ->
             exists b, passes d = Ok b) ->
  kind c = PathParameterUserInput ->
  passes c = Raise e ->
  get_paths_to_mount MODULE_TYPE MODULE_PLATFORM self = Raise e.
Proof.
  intros Hs Hb Hk Hr. unfold get_paths_to_mount. rewrite Hs, paths_loop_app.
  assert (B : forall paths, exists paths', mount before paths = Ok paths').
  { clear Hs. induction before as [|d before IH]; intros paths; simpl.
    - now exists paths.
    - destruct (kind_eqb (kind d) PathParameterUserInput) eqn:K.
      + destruct (Hb d (or_introl eq_refl)) as [b ->]; [now destruct (kind d)|].
        simpl. apply IH. intros; apply Hb; auto. now right.
      + apply IH. intros; apply Hb; auto. now right. }
  destruct (B []) as [paths' ->]. simpl. now rewrite Hk, Hr.
Qed.

End Paths.

(** ** get_settings: the settings map *)

Lemma has_char_append (c : ascii) (a b : string) :
  Str.has_char c (a ++ b)%string = Str.has_char c a || Str.has_char c b.
Proof.
  induction a as [|x a IH]; simpl; [reflexivity|].
  rewrite IH. now rewrite orb_assoc.
Qed.

Lemma replace_backslash_none (s : string) :
  Str.has_char Repr.backslash (Str.replace_from backslash_string "/" s 0) = false.
Proof.
  induction s as [|c s IH]; [reflexivity|].
  unfold backslash_string in *. cbn [Str.replace_from String.prefix].
  destruct (ascii_dec Repr.backslash c) as [E|E].
  - replace (prefix EmptyString s) with true by (now destruct s).
    change (String.length (String Repr.backslash EmptyString) - 1) with 0.
    change (Str.has_char Repr.backslash
              (String "/" (Str.replace_from (String Repr.backslash EmptyString)
                                            "/" s 0)) = false).
    cbn [Str.has_char]. now rewrite IH.
  - cbn [Str.has_char]. rewrite IH.
    assert (N : Ascii.eqb c Repr.backslash = false)
      by (apply Ascii.eqb_neq; congruence).
    now rewrite N.
Qed.

(** The string stored under the id of an entry has no backslash left. *)
Lemma setting_string_slashes (v : pyval) :
  Str.has_char Repr.backslash (setting_string v) = false.
Proof. unfold setting_string, Str.replace. apply replace_backslash_none. Qed.

Section SettingsMap.

Variable MODULE_TYPE : string.
Variable MODULE_PLATFORM : string.
Variables (self : JsonModule) (lean_config : pyval).
Variables (environment_name : option string) (logger : bool).

Local Abbreviation settings_call :=
  (get_settings MODULE_TYPE MODULE_PLATFORM self lean_config environment_name logger).
Local Abbreviation passes M c :=
  (_check_if_config_passes_filters MODULE_TYPE MODULE_PLATFORM M c false).

Lemma fold_set_mem (d : pydict) (s : list (string * string)) (k : string) :
  dict_mem s k = true ->
  dict_mem (fold_left (fun s kv => dict_set s (fst kv) (Repr.py_str (snd kv))) d s) k
  = true.
Proof.
  revert s. induction d as [|kv d IH]; intros s H; simpl; [exact H|].
  apply IH. rewrite dict_mem_set, H. apply orb_true_r.
Qed.

Lemma settings_loop_mem (M : JsonModule) (todo : list Configuration)
      (settings : list (string * string)) (log : list event) (k : string) :
  dict_mem settings k = true ->
  dict_mem (fst (settings_loop MODULE_TYPE MODULE_PLATFORM M logger todo settings log)) k
  = true.
Proof.
  revert settings log. induction todo as [|c todo IH]; intros settings log H; simpl.
  - exact H.
  - destruct (passes M c) as [[|]|e]; apply IH; try exact H.
    destruct (kind c); try (rewrite dict_mem_set, H; apply orb_true_r).
    destruct (_value c); try (rewrite dict_mem_set, H; apply orb_true_r).
    now apply fold_set_mem.
Qed.

Lemma fold_set_value_origin (d : pydict) (s : list (string * string))
      (k x : string) :
  dict_get (fold_left (fun s kv => dict_set s (fst kv) (Repr.py_str (snd kv))) d s) k
  = Some x ->
  dict_get s k = Some x \/ exists v, In (k, v) d /\ x = Repr.py_str v.
Proof.
  revert s. induction d as [|[a w] d IH]; intros s H; simpl in H; [now left|].
  apply IH in H as [H | (v & Hin & Hx)].
  - rewrite dict_get_set in H. destruct (String.eqb a k) eqn:E; [|now left].
    apply String.eqb_eq in E. subst a. injection H as <-.
    right. exists w. split; [now left | reflexivity].
  - right. exists v. split; [now right | exact Hx].
Qed.

(** Where a value of the settings comes from: it was there before the
    loop, or it is the string of the value of an entry, stored under the
    id of the entry, or the string of an item of the mapping of a composite
    entry, stored under the key of the item. *)
Lemma settings_loop_value_origin (M : JsonModule) (todo : list Configuration)
      (settings : list (string * string)) (log : list event) (k x : string) :
  dict_get (fst (settings_loop MODULE_TYPE MODULE_PLATFORM M logger todo settings log)) k
  = Some x ->
  dict_get settings k = Some x
  \/ (exists c, In c todo /\ passes M c = Ok true /\ _id c = k
                /\ x = setting_string (_value c))
  \/ (exists c d v, In c todo /\ passes M c = Ok true
                    /\ kind c = AuthConfiguration /\ _value c = PDict d
                    /\ In (k, v) d /\ x = Repr.py_str v).
Proof.
  revert settings log. induction todo as [|c todo IH]; intros settings log H;
    simpl in H; [now left|].
  destruct (passes M c) as [[|]|e] eqn:Pc.
  - apply IH in H as [H | [(c' & Hin & Hc') | (c' & d & v & Hin & Hc')]].
    + assert (Own : forall w, dict_get (dict_set settings (_id c) (setting_string w)) k
                              = Some x ->
                              w = _value c ->
                              dict_get settings k = Some x
                              \/ (_id c = k /\ x = setting_string (_value c))).
      { intros w G ->. rewrite dict_get_set in G.
        destruct (String.eqb (_id c) k) eqn:E; [|now left].
        apply String.eqb_eq in E. injection G as <-. now right. }
      assert (Case : dict_get settings k = Some x
                     \/ (_id c = k /\ x = setting_string (_value c))
                     \/ (exists d v, kind c = AuthConfiguration /\ _value c = PDict d
                                     /\ In (k, v) d /\ x = Repr.py_str v)).
      { destruct (kind c) eqn:K;
          try (destruct (Own _ H eq_refl) as [G | G]; [now left | right; now left]).
        destruct (_value c) as [|b|z|t|l|d] eqn:V;
          try (destruct (Own _ H eq_refl) as [G | G]; [now left | right; now left]).
        apply fold_set_value_origin in H as [H | (v & Hin & Hx)]; [now left|].
        right. right. exists d, v. auto. }
      destruct Case as [G | [[G1 G2] | (d & v & G)]]; [now left | |].
      * right. left. exists c. split; [now left|]. auto.
      * right. right. exists c, d, v. split; [now left|]. tauto.
    + right. left. exists c'. split; [now right | exact Hc'].
    + right. right. exists c', d, v. split; [now right | exact Hc'].
  - apply IH in H as [H | [(c' & Hin & Hc') | (c' & d & v & Hin & Hc')]];
      [now left | right; left; exists c'; split; [now right | exact Hc']
       | right; right; exists c', d, v; split; [now right | exact Hc']].
  - apply IH in H as [H | [(c' & Hin & Hc') | (c' & d & v & Hin & Hc')]];
      [now left | right; left; exists c'; split; [now right | exact Hc']
       | right; right; exists c', d, v; split; [now right | exact Hc']].
Qed.

(** X12: where a backslash in the settings can come from.  The value
    stored under the id of an entry has its backslashes turned into
    slashes; a value of the settings that [get_settings] returns with a
    backslash in it is the id of the module, or an item of the mapping of a
    composite entry that passes its filters, which is stored as its string
    and nothing more. *)
Theorem get_settings_backslash_origin (settings : list (string * string))
        (self' : JsonModule) (log : list event) (k x : string) :
  settings_call = (settings, self', log) ->
  dict_get settings k = Some x ->
  Str.has_char Repr.backslash x = true ->
  (k = "id"%string /\ x = _module_id self)
  \/ exists c d v, In c (_lean_configs self') /\ passes self' c = Ok true
                   /\ kind c = AuthConfiguration /\ _value c = PDict d
                   /\ In (k, v) d /\ x = Repr.py_str v.
Proof.
  intros H G B. apply get_settings_stages in H as (log1 & _ & _ & Hset).
  assert (S : fst (settings_loop MODULE_TYPE MODULE_PLATFORM self' logger
                                 (_lean_configs self')
                                 [("id", _module_id self)] log1) = settings)
    by now rewrite Hset.
  rewrite <- S in G.
  apply settings_loop_value_origin in G as [G | [(c & _ & _ & _ & Hx) | G]].
  - left. cbn [dict_get] in G.
    destruct (String.eqb "id" k) eqn:E; [|discriminate G].
    apply String.eqb_eq in E. injection G as <-. now split.
  - rewrite Hx, setting_string_slashes in B. discriminate B.
  - now right.
Qed.

(** X13: the settings always have the key [id]; its value is the id of
    the module unless an entry of the module writes that key. *)
Theorem get_settings_has_id (settings : list (string * string))
        (self' : JsonModule) (log : list event) :
  settings_call = (settings, self', log) ->
  dict_mem settings "id" = true
  /\ (forallb (fun d => negb (writes_key d "id")) (_lean_configs self') = true ->
      dict_get settings "id" = Some (_module_id self)).
Proof.
  intros H. apply get_settings_stages in H as (log1 & _ & _ & Hset).
  assert (S : fst (settings_loop MODULE_TYPE MODULE_PLATFORM self' logger
                                 (_lean_configs self')
                                 [("id", _module_id self)] log1) = settings)
    by now rewrite Hset.
  rewrite <- S. split.
  - now apply settings_loop_mem.
  - intros W. now rewrite (settings_loop_untouched _ _ _ _ _ _ _ _ W).
Qed.

Lemma fold_set_origin (d : pydict) (s : list (string * string)) (k : string) :
  dict_mem (fold_left (fun s kv => dict_set s (fst kv) (Repr.py_str (snd kv))) d s) k
  = true ->
  dict_mem s k = true \/ dict_mem d k = true.
Proof.
  revert s. induction d as [|[a w] d IH]; intros s H; simpl in H; [now left|].
  apply IH in H as [H | H].
  - rewrite dict_mem_set in H. simpl in H. apply orb_true_iff in H as [H | H].
    + right. unfold dict_mem. simpl. now rewrite H.
    + now left.
  - right. unfold dict_mem in *. simpl. now destruct (String.eqb a k).
Qed.

Lemma settings_loop_origin (M : JsonModule) (todo : list Configuration)
      (settings : list (string * string)) (log : list event) (k : string) :
  dict_mem (fst (settings_loop MODULE_TYPE MODULE_PLATFORM M logger todo settings log)) k
  = true ->
  dict_mem settings k = true
  \/ exists c, In c todo /\ writes_key c k = true /\ passes M c = Ok true.
Proof.
  revert settings log. induction todo as [|c todo IH]; intros settings log H;
    simpl in H; [now left|].
  destruct (passes M c) as [[|]|e] eqn:Pc.
  - apply IH in H as [H | (c' & Hin & Hc')];
      [| right; exists c'; split; [now right | exact Hc']].
    assert (W : dict_mem settings k = true \/ writes_key c k = true).
    { unfold writes_key.
      destruct (kind c); try (rewrite dict_mem_set in H;
                              apply orb_true_iff in H as [H|H]; [now right | now left]).
      destruct (_value c); try (rewrite dict_mem_set in H;
                                apply orb_true_iff in H as [H|H]; [now right | now left]).
      apply fold_set_origin in H as [H|H]; [now left | now right]. }
    destruct W as [W | W]; [now left|].
    right. exists c. split; [now left | now split].
  - apply IH in H as [H | (c' & Hin & Hc')]; [now left|].
    right. exists c'. split; [now right | exact Hc'].
  - apply IH in H as [H | (c' & Hin & Hc')]; [now left|].
    right. exists c'. split; [now right | exact Hc'].
Qed.

(** X14: [get_settings] invents no key: a key of the settings is [id], or
    it is written by an entry of the module that passes its filters, under
    the id of the entry or, for a composite entry with a mapping as value,
    under a key of the mapping. *)
Theorem get_settings_keys (settings : list (string * string))
        (self' : JsonModule) (log : list event) (k : string) :
  settings_call = (settings, self', log) ->
  dict_mem settings k = true ->
  k = "id"
  \/ exists c, In c (_lean_configs self') /\ writes_key c k = true
               /\ passes self' c = Ok true.
Proof.
  intros H G. apply get_settings_stages in H as (log1 & _ & _ & Hset).
  assert (S : fst (settings_loop MODULE_TYPE MODULE_PLATFORM self' logger
                                 (_lean_configs self')
                                 [("id", _module_id self)] log1) = settings)
    by now rewrite Hset.
  rewrite <- S in G. apply settings_loop_origin in G as [G | G]; [|now right].
  left. unfold dict_mem in G. cbn [dict_get] in G.
  destruct (String.eqb "id" k) eqn:E; [|discriminate G].
  apply String.eqb_eq in E. now subst.
Qed.

Lemma settings_loop_stored (M : JsonModule) (todo : list Configuration) (i : nat)
      (c : Configuration) (settings : list (string * string)) (log : list event) :
  nth_error todo i = Some c ->
  passes M c = Ok true ->
  writes_own_id c = true ->
  forallb (fun d => negb (writes_key d (_id c))) (skipn (S i) todo) = true ->
  dict_get (fst (settings_loop MODULE_TYPE MODULE_PLATFORM M logger todo settings log))
           (_id c)
  = Some (setting_string (_value c)).
Proof.
  revert i settings log.
  induction todo as [|a todo IH]; intros i settings log Hc Hp Hk Hw.
  - destruct i; discriminate.
  - destruct i as [|i]; simpl in Hc.
    + injection Hc as ->. simpl. rewrite Hp.
      simpl in Hw. rewrite (settings_loop_untouched _ _ _ _ _ _ _ _ Hw).
      unfold writes_own_id in Hk.
      destruct (kind c); try (now rewrite dict_get_set, String.eqb_refl).
      destruct (_value c); try (now rewrite dict_get_set, String.eqb_refl).
      discriminate.
    + simpl. destruct (passes M a) as [[|]|e]; apply (IH i); assumption.
Qed.

(** X15: what [get_settings] returns for an entry.  For an entry of the
    module as the call leaves it that passes its filters, is not a
    composite entry with a mapping, and whose key no later entry writes,
    the settings hold, under the id of the entry, the string of its value
    with escaped newlines unescaped and backslashes as slashes. *)
Theorem get_settings_value (settings : list (string * string))
        (self' : JsonModule) (log : list event) (i : nat) (c : Configuration) :
  settings_call = (settings, self', log) ->
  nth_error (_lean_configs self') i = Some c ->
  passes self' c = Ok true ->
  writes_own_id c = true ->
  forallb (fun d => negb (writes_key d (_id c))) (skipn (S i) (_lean_configs self'))
  = true ->
  dict_get settings (_id c) = Some (setting_string (_value c)).
Proof.
  intros H Hc Hp Hk Hw. apply get_settings_stages in H as (log1 & _ & _ & Hset).
  assert (S : fst (settings_loop MODULE_TYPE MODULE_PLATFORM self' logger
                                 (_lean_configs self')
                                 [("id", _module_id self)] log1) = settings)
    by now rewrite Hset.
  rewrite <- S. now apply settings_loop_stored with (i := i).
Qed.

(** X16: [get_settings] writes into the value slots of conditional
    entries only, after the prefill: the module has the same entries in the
    same order afterwards, and an entry that is not conditional is as the
    prefill left it. *)
Theorem get_settings_writes_conditionals_only
        (settings : list (string * string)) (self' : JsonModule) (log : list event) :
  settings_call = (settings, self', log) ->
  Forall2 (fun d d' => same_shape d' d
                       /\ (is_conditional_internal d = false -> d' = d))
          (prefill_if_context lean_config environment_name logger (_lean_configs self))
          (_lean_configs self').
Proof.
  intros H. apply get_settings_stages in H as (log1 & Hloop & _ & _).
  apply conditional_loop_shape in Hloop as (todo' & Hfin & F).
  simpl in Hfin. now rewrite Hfin.
Qed.

End SettingsMap.

(** ** The settings merge: keys and repetition *)

Lemma dict_set_same {V : Type} (d : list (string * V)) (k : string) (v : V) :
  dict_get d k = Some v -> dict_set d k v = d.
Proof.
  induction d as [|[a w] d IH]; simpl; [discriminate|].
  destruct (String.eqb a k) eqn:E.
  - intros H. injection H as ->. reflexivity.
  - intros H. now rewrite IH.
Qed.

Lemma key_eqb_refl (x : pyval) : hashable x = true -> key_eqb x x = true.
Proof.
  destruct x as [|[|]|z|s|l|d]; simpl; try reflexivity; try discriminate.
  - intros _. apply Z.eqb_refl.
  - intros _. apply String.eqb_refl.
Qed.

(** Every key of the list is among the keys kept. *)
Lemma fromkeys_from_covers (l seen r : list pyval) :
  fromkeys_from seen l = Ok r ->
  forall x, In x seen \/ In x l -> hashable x = true ->
            existsb (key_eqb x) r = true \/ (In x seen /\ ~ In x l).
Proof.
  revert seen. induction l as [|y l IH]; intros seen H x Hx Hh; simpl in H.
  - injection H as <-. destruct Hx as [Hx | []]. right. auto.
  - destruct (hashable y) eqn:Hy; simpl in H; [|discriminate].
    destruct (existsb (key_eqb y) seen) eqn:Ey.
    + destruct Hx as [Hx | [<- | Hx]].
      * destruct (IH _ H x (or_introl Hx) Hh) as [G | [_ G]]; [now left|].
        destruct (fromkeys_from_prefix _ _ _ H) as [added ->].
        left. rewrite existsb_app.
        assert (E : existsb (key_eqb x) seen = true).
        { apply existsb_exists. exists x. split; [exact Hx | now apply key_eqb_refl]. }
        now rewrite E.
      * destruct (fromkeys_from_prefix _ _ _ H) as [added ->].
        left. rewrite existsb_app. now rewrite Ey.
      * destruct (IH _ H x (or_intror Hx) Hh) as [G | [_ G]]; [now left | contradiction].
    + assert (Hx' : In x (seen ++ [y]) \/ In x l).
      { destruct Hx as [Hx | [<- | Hx]].
        - left. apply in_or_app. now left.
        - left. apply in_or_app. right. now left.
        - now right. }
      destruct (IH _ H x Hx' Hh) as [G | [G1 G2]]; [now left|].
      destruct (fromkeys_from_prefix _ _ _ H) as [added ->].
      left. rewrite existsb_app.
      assert (E : existsb (key_eqb x) (seen ++ [y]) = true).
      { apply existsb_exists. exists x. split; [exact G1 | now apply key_eqb_refl]. }
      now rewrite E.
Qed.

(** Keys that are all among the keys seen add nothing. *)
Lemma fromkeys_from_absorbs (l seen : list pyval) :
  (forall x, In x l -> hashable x = true /\ existsb (key_eqb x) seen = true) ->
  fromkeys_from seen l = Ok seen.
Proof.
  induction l as [|y l IH]; intros H; simpl; [reflexivity|].
  destruct (H y (or_introl eq_refl)) as [Hy Ey]. rewrite Hy, Ey. simpl.
  apply IH. intros x Hx. apply H. now right.
Qed.

Lemma fromkeys_from_hashable (l seen r : list pyval) :
  fromkeys_from seen l = Ok r -> forall x, In x l -> hashable x = true.
Proof.
  revert seen. induction l as [|y l IH]; intros seen H x Hx; [destruct Hx|].
  simpl in H. destruct (hashable y) eqn:Hy; simpl in H; [|discriminate].
  destruct Hx as [<- | Hx]; [exact Hy|].
  destruct (existsb (key_eqb y) seen); eapply IH; eauto.
Qed.

(** A merge that is repeated adds nothing. *)
Lemma fromkeys_merge_again (l parsed merged : list pyval) :
  fromkeys (l ++ parsed) = Ok merged ->
  fromkeys (merged ++ parsed) = Ok merged.
Proof.
  intros H. pose proof (fromkeys_stable _ _ H) as St.
  unfold fromkeys in *. rewrite fromkeys_from_app, St. simpl.
  apply fromkeys_from_absorbs. intros x Hx.
  assert (Hh : hashable x = true).
  { eapply fromkeys_from_hashable; [exact H|]. apply in_or_app. now right. }
  split; [exact Hh|].
  destruct (fromkeys_from_covers _ _ _ H x
              (or_intror (in_or_app _ _ _ (or_intror Hx))) Hh) as [G | [[] _]].
  exact G.
Qed.

Section MergeKeys.

Variable loads : string -> exc pyval.

Lemma update_entry_other (target target' : pydict) (k k' : string) (v : pyval) :
  update_entry loads target k' v = Ok target' ->
  String.eqb k' k = false ->
  dict_get target' k = dict_get target k.
Proof.
  intros H E. unfold update_entry in H.
  assert (K : forall (t : pydict) (w : pyval),
             dict_get (dict_set t k' w) k = dict_get t k)
    by (intros; now rewrite dict_get_set, E).
  destruct (is_none v); [now injection H as <-|].
  destruct (dict_get target k').
  - destruct (is_list_like k').
    + destruct (py_list _); simpl in H; [|discriminate].
      destruct (fromkeys _); simpl in H; [|discriminate].
      injection H as <-. apply K.
    + injection H as <-. apply K.
  - injection H as <-. apply K.
Qed.

Lemma update_loop_frame (items target target' : pydict) (outcome : exc unit)
      (k : string) :
  update_loop loads items target = (outcome, target') ->
  (forall kv, In kv items -> String.eqb (fst kv) k = false) ->
  dict_get target' k = dict_get target k.
Proof.
  revert target. induction items as [|[k' v] items IH]; intros target H F;
    simpl in H.
  - now injection H as _ <-.
  - destruct (update_entry loads target k' v) as [t1|e] eqn:U.
    + rewrite (IH _ H) by (intros; apply F; now right).
      eapply update_entry_other; [exact U|]. exact (F (k', v) (or_introl eq_refl)).
    + now injection H as _ <-.
Qed.

(** X17: [_update_settings] touches the keys that the properties of the
    environment have, and no other key of the settings, however it
    ends. *)
Theorem update_settings_frame (environment_name : option string)
        (target target' : pydict) (lean_config : pyval) (outcome : exc unit)
        (k : string) :
  _update_settings loads environment_name target lean_config = (outcome, target') ->
  match _get_env_properties environment_name lean_config with
  | PDict props => dict_mem props k = false
  | _ => True
  end ->
  dict_get target' k = dict_get target k.
Proof.
  unfold _update_settings. intros H F.
  destruct (_get_env_properties environment_name lean_config) as [| | | | |props];
    try (now injection H as _ <-).
  eapply update_loop_frame; [exact H|]. now apply dict_mem_false_keys.
Qed.

(** X18: without an environment name, and with the empty name, no
    property is applied: the settings stay as they are, whatever the
    configuration is. *)
Theorem update_settings_without_environment (environment_name : option string)
        (target : pydict) (lean_config : pyval) :
  environment_name = None \/ environment_name = Some EmptyString ->
  _update_settings loads environment_name target lean_config = (Ok tt, target).
Proof.
  intros [-> | ->]; unfold _update_settings, _get_env_properties;
    destruct lean_config; reflexivity.
Qed.

(** The result of the loop body at its key depends on the settings at
    that key only. *)
Lemma update_entry_at_key (t1 t2 t1' : pydict) (k : string) (v : pyval) :
  dict_get t1 k = dict_get t2 k ->
  update_entry loads t1 k v = Ok t1' ->
  exists t2', update_entry loads t2 k v = Ok t2'
              /\ dict_get t2' k = dict_get t1' k.
Proof.
  intros E H. unfold update_entry in *. rewrite <- E.
  destruct (is_none v); [injection H as <-; eauto|].
  destruct (dict_get t1 k) as [current|].
  - destruct (is_list_like k).
    + destruct (py_list _); simpl in *; [|discriminate].
      destruct (fromkeys _); simpl in *; [|discriminate].
      injection H as <-. eexists. split; [reflexivity|].
      now rewrite !dict_get_set, String.eqb_refl.
    + injection H as <-. eexists. split; [reflexivity|].
      now rewrite !dict_get_set, String.eqb_refl.
  - injection H as <-. eexists. split; [reflexivity|].
    now rewrite !dict_get_set, String.eqb_refl.
Qed.

Lemma nodup_keys_other (items : pydict) (k : string) (v : pyval) :
  NoDup (dict_keys ((k, v) :: items)) ->
  forall kv, In kv items -> String.eqb (fst kv) k = false.
Proof.
  intros N kv Hin. simpl in N. inversion N as [|? ? Hnot _]; subst.
  apply String.eqb_neq. intros E. apply Hnot. rewrite <- E.
  unfold dict_keys. now apply in_map.
Qed.

(** With distinct keys, what a call that returns leaves at a key is what
    the loop body alone leaves there. *)
Lemma update_loop_at_key (items target target' : pydict) (k : string) (v : pyval) :
  NoDup (dict_keys items) ->
  In (k, v) items ->
  update_loop loads items target = (Ok tt, target') ->
  exists t', update_entry loads target k v = Ok t'
             /\ dict_get target' k = dict_get t' k.
Proof.
  revert target. induction items as [|[k' v'] items IH]; intros target N Hin H;
    [destruct Hin|].
  simpl in H. destruct (update_entry loads target k' v') as [t1|e] eqn:U;
    [|discriminate].
  destruct Hin as [Heq | Hin].
  - injection Heq as -> ->. exists t1. split; [exact U|].
    eapply update_loop_frame; [exact H|]. now apply (nodup_keys_other items k v).
  - assert (E : String.eqb k' k = false).
    { pose proof (nodup_keys_other items k' v' N (k, v) Hin) as E.
      simpl in E. now rewrite String.eqb_sym. }
    inversion N as [|? ? _ N']; subst.
    destruct (IH t1 N' Hin H) as (t1' & U1 & G1).
    destruct (update_entry_at_key t1 target t1' k v) as (t' & U' & G').
    + eapply update_entry_other; eauto.
    + exact U1.
    + exists t'. split; [exact U'|]. now rewrite G1, G'.
Qed.

(** X19: a property that is not [None] overwrites the setting of a key
    that is not list-like, and is inserted as it is, unparsed, under a key
    that the settings do not have, list-like or not. *)
Theorem update_settings_overwrites (environment_name : option string)
        (target target' props : pydict) (lean_config : pyval)
        (k : string) (v : pyval) :
  _get_env_properties environment_name lean_config = PDict props ->
  NoDup (dict_keys props) ->
  In (k, v) props ->
  is_none v = false ->
  is_list_like k = false \/ dict_get target k = None ->
  _update_settings loads environment_name target lean_config = (Ok tt, target') ->
  dict_get target' k = Some v.
Proof.
  intros Hp N Hin Hv Hk H. unfold _update_settings in H. rewrite Hp in H.
  destruct (update_loop_at_key _ _ _ _ _ N Hin H) as (t' & U & ->).
  unfold update_entry in U. rewrite Hv in U.
  destruct (dict_get target k) as [current|] eqn:G.
  - destruct Hk as [Hk | Hk]; [|discriminate]. rewrite Hk in U.
    injection U as <-. now rewrite dict_get_set, String.eqb_refl.
  - injection U as <-. now rewrite dict_get_set, String.eqb_refl.
Qed.

Lemma update_entry_again (target t1 tn : pydict) (k : string) (v : pyval) :
  update_entry loads target k v = Ok t1 ->
  (is_list_like k = true -> is_none v = false ->
   exists l, dict_get target k = Some (PList l)) ->
  dict_get tn k = dict_get t1 k ->
  update_entry loads tn k v = Ok tn.
Proof.
  intros U L E. unfold update_entry in *.
  destruct (is_none v) eqn:Nv; [reflexivity|].
  destruct (is_list_like k) eqn:LL.
  - destruct (L eq_refl eq_refl) as [l G]. rewrite G in U.
    rewrite py_list_of_list in U. simpl in U.
    destruct (fromkeys (l ++ parse_list_value loads v)) as [merged|e] eqn:M;
      simpl in U; [|discriminate].
    injection U as <-. rewrite dict_get_set, String.eqb_refl in E.
    rewrite E, py_list_of_list. simpl.
    rewrite (fromkeys_merge_again _ _ _ M). simpl.
    now rewrite (dict_set_same _ _ _ E).
  - assert (G1 : dict_get t1 k = Some v).
    { destruct (dict_get target k); injection U as <-;
        now rewrite dict_get_set, String.eqb_refl. }
    rewrite G1 in E. rewrite E. now rewrite (dict_set_same _ _ _ E).
Qed.

(** X20: a second call changes nothing.  When the properties of the
    environment have distinct keys and every list-like key among them with
    a value other than [None] holds a list in the settings, a call of
    [_update_settings] that returns leaves settings on which the same call
    returns and changes nothing. *)
Theorem update_settings_again (environment_name : option string)
        (target target' props : pydict) (lean_config : pyval) :
  _get_env_properties environment_name lean_config = PDict props ->
  NoDup (dict_keys props) ->
  (forall k v, In (k, v) props -> is_list_like k = true -> is_none v = false ->
               exists l, dict_get target k = Some (PList l)) ->
  _update_settings loads environment_name target lean_config = (Ok tt, target') ->
  _update_settings loads environment_name target' lean_config = (Ok tt, target').
Proof.
  intros Hp N L H. unfold _update_settings in *. rewrite Hp in *.
  assert (A : forall k v, In (k, v) props ->
                          update_entry loads target' k v = Ok target').
  { intros k v Hin.
    destruct (update_loop_at_key _ _ _ _ _ N Hin H) as (t' & U & G).
    eapply update_entry_again; [exact U | now apply L | exact G]. }
  clear H N L Hp.
  induction props as [|[k v] props IH]; simpl; [reflexivity|].
  rewrite (A k v (or_introl eq_refl)). apply IH.
  intros k' v' Hin. apply A. now right.
Qed.

(** X21: the list that a merge leaves under a list-like key has no
    repeated element: making it a list of distinct keys again gives the
    list itself. *)
Theorem update_settings_merged_distinct (environment_name : option string)
        (target target' props : pydict) (lean_config : pyval)
        (k : string) (v : pyval) (existing : list pyval) :
  _get_env_properties environment_name lean_config = PDict props ->
  NoDup (dict_keys props) ->
  In (k, v) props ->
  is_none v = false ->
  is_list_like k = true ->
  dict_get target k = Some (PList existing) ->
  _update_settings loads environment_name target lean_config = (Ok tt, target') ->
  exists merged, dict_get target' k = Some (PList merged)
                 /\ fromkeys merged = Ok merged
                 /\ fromkeys (existing ++ parse_list_value loads v) = Ok merged.
Proof.
  intros Hp N Hin Hv LL G H. unfold _update_settings in H. rewrite Hp in H.
  destruct (update_loop_at_key _ _ _ _ _ N Hin H) as (t' & U & ->).
  unfold update_entry in U. rewrite Hv, G, LL, py_list_of_list in U. simpl in U.
  destruct (fromkeys (existing ++ parse_list_value loads v)) as [merged|e] eqn:M;
    simpl in U; [|discriminate].
  injection U as <-. exists merged. rewrite dict_get_set, String.eqb_refl.
  split; [reflexivity|]. split; [|reflexivity]. eapply fromkeys_stable; eauto.
Qed.

End MergeKeys.

(** ** sort_configs *)

Section SortConfigs.

Variable has_filter_dependency : Configuration -> bool.

Local Abbreviation is_brokerage :=
  (fun c : Configuration => kind_eqb (kind c) BrokerageEnvConfiguration).
Local Abbreviation is_plain :=
  (fun c : Configuration =>
     negb (kind_eqb (kind c) BrokerageEnvConfiguration)
     && negb (has_filter_dependency c)).
Local Abbreviation is_dependent :=
  (fun c : Configuration =>
     negb (kind_eqb (kind c) BrokerageEnvConfiguration)
     && has_filter_dependency c).

Lemma sort_loop_groups (configs sorted_configs filter_configs brokerage_configs
                        : list Configuration) :
  sort_loop has_filter_dependency configs sorted_configs filter_configs
            brokerage_configs
  = (brokerage_configs ++ filter is_brokerage configs)
      ++ (sorted_configs ++ filter is_plain configs)
      ++ (filter_configs ++ filter is_dependent configs).
Proof.
  revert sorted_configs filter_configs brokerage_configs.
  induction configs as [|c configs IH]; intros s f b; simpl.
  - now rewrite !app_nil_r.
  - destruct (kind_eqb (kind c) BrokerageEnvConfiguration); simpl.
    + rewrite IH. now rewrite <- (app_assoc b [c]).
    + destruct (has_filter_dependency c); simpl; rewrite IH.
      * now rewrite <- (app_assoc f [c]).
      * now rewrite <- (app_assoc s [c]).
Qed.

Lemma filter_twice {A : Type} (p : A -> bool) (l : list A) :
  filter p (filter p l) = filter p l.
Proof.
  induction l as [|x l IH]; simpl; [reflexivity|].
  destruct (p x) eqn:E; simpl; [rewrite E|]; now rewrite IH.
Qed.

Lemma filter_excluded {A : Type} (p q : A -> bool) (l : list A) :
  (forall x, q x = true -> p x = false) ->
  filter p (filter q l) = [].
Proof.
  intros D. induction l as [|x l IH]; simpl; [reflexivity|].
  destruct (q x) eqn:E; simpl; [rewrite (D x E)|]; exact IH.
Qed.

(** X22: [sort_configs] returns the entries in three groups: the
    brokerage-environment entries, then the other entries without a
    filter dependency, then the other entries with one; inside a group the
    entries keep the order they have in the module. *)
Theorem sort_configs_groups (self : JsonModule) :
  sort_configs has_filter_dependency self
  = filter is_brokerage (_lean_configs self)
      ++ filter is_plain (_lean_configs self)
      ++ filter is_dependent (_lean_configs self).
Proof.
  unfold sort_configs. now rewrite sort_loop_groups.
Qed.

(** X23: sorting the entries again changes nothing: the constructor of
    the module stores the sorted list, and [sort_configs] on the module it
    leaves returns that list. *)
Theorem sort_configs_sorted (self : JsonModule) :
  sort_configs has_filter_dependency
               (with_configs self (sort_configs has_filter_dependency self))
  = sort_configs has_filter_dependency self.
Proof.
  unfold sort_configs. cbn [_lean_configs with_configs].
  rewrite !sort_loop_groups. cbn [app].
  set (l := _lean_configs self).
  rewrite !filter_app, !filter_twice.
  rewrite (filter_excluded is_brokerage is_plain),
          (filter_excluded is_brokerage is_dependent),
          (filter_excluded is_plain is_brokerage),
          (filter_excluded is_plain is_dependent),
          (filter_excluded is_dependent is_brokerage),
          (filter_excluded is_dependent is_plain);
    try (intros x; destruct (kind_eqb (kind x) BrokerageEnvConfiguration),
                            (has_filter_dependency x); simpl; congruence).
  now rewrite !app_nil_r.
Qed.

End SortConfigs.

(** ** is_value_in_config and find_module *)

Lemma value_in_configs_found (searched_value : string) (cfgs : list Configuration) :
  value_in_configs searched_value cfgs = Ok true ->
  exists c value, In c cfgs
                  /\ lower_value (_value c) = Ok value
                  /\ py_in searched_value value = Ok true.
Proof.
  induction cfgs as [|c cfgs IH]; simpl; [discriminate|].
  destruct (lower_value (_value c)) as [value|e] eqn:L; simpl; [|discriminate].
  destruct (py_in searched_value value) as [[|]|e] eqn:P; simpl; try discriminate.
  - intros _. exists c, value. split; [now left|]. now split.
  - intros H. destruct (IH H) as (c' & v' & Hin & G). exists c', v'.
    split; [now right | exact G].
Qed.

Lemma value_in_configs_not_found (searched_value : string) (cfgs : list Configuration) :
  value_in_configs searched_value cfgs = Ok false ->
  forall c, In c cfgs ->
            exists value, lower_value (_value c) = Ok value
                          /\ py_in searched_value value = Ok false.
Proof.
  induction cfgs as [|c cfgs IH]; simpl; [intros _ c []|].
  destruct (lower_value (_value c)) as [value|e] eqn:L; simpl; [|discriminate].
  destruct (py_in searched_value value) as [[|]|e] eqn:P; simpl; try discriminate.
  intros H c' [<- | Hin]; [now exists value | now apply IH].
Qed.

(** X24: when [is_value_in_config] answers [True], some entry of the
    module holds the searched value, compared in lower case: as a part of
    its string, as an element of its list or as a key of its mapping. *)
Theorem is_value_in_config_found (self : JsonModule) (searched_value : string) :
  is_value_in_config self searched_value = Ok true ->
  exists c value, In c (_lean_configs self)
                  /\ lower_value (_value c) = Ok value
                  /\ py_in (Text.lower searched_value) value = Ok true.
Proof. apply value_in_configs_found. Qed.

(** X25: [is_value_in_config] answers [False] only for a module of which
    every entry has a value: the membership test has no handler, and an
    entry whose value is [None] (or a number, or a boolean) raises unless
    an entry before it holds the searched value. *)
Theorem is_value_in_config_false_all_set (self : JsonModule) (searched_value : string) :
  is_value_in_config self searched_value = Ok false ->
  forall c, In c (_lean_configs self) ->
            match _value c with
            | PStr _ | PList _ | PDict _ => True
            | _ => False
            end.
Proof.
  intros H c Hin.
  destruct (value_in_configs_not_found _ _ H c Hin) as (value & L & P).
  destruct (_value c) as [|b|z|s|l|d]; simpl in L; try exact I;
    injection L as <-; discriminate P.
Qed.

Lemma find_by_name_member (target_module_name : string) (module_class_name : Z)
      (module_list : list JsonModule) (m : JsonModule) :
  find_by_name target_module_name module_class_name module_list = Some m ->
  In m module_list.
Proof.
  induction module_list as [|module rest IH]; simpl; [discriminate|].
  repeat match goal with
         | |- (if ?b then _ else _) = _ -> _ => destruct b
         end;
    intros H; try (injection H as <-; now left).
  right. now apply IH.
Qed.

Lemma find_by_value_member (target_module_name : string) (module_class_name : Z)
      (module_list : list JsonModule) (target_module : option JsonModule)
      (m : JsonModule) :
  find_by_value target_module_name module_class_name module_list target_module
  = Ok (Some m) ->
  In m module_list \/ target_module = Some m.
Proof.
  revert target_module.
  induction module_list as [|module rest IH]; intros target_module; simpl.
  - intros H. injection H as ->. now right.
  - destruct (is_value_in_config module target_module_name) as [in_config|e];
      simpl; [|discriminate].
    match goal with
    | |- bind ?x _ = _ -> _ => destruct x as [matches|e]; simpl; [|discriminate]
    end.
    intros H. destruct (IH _ H) as [G | G]; [left; now right|].
    destruct matches; [injection G as <-; left; now left | now right].
Qed.

Lemma find_by_name_match (target_module_name : string) (module_class_name : Z)
      (module_list : list JsonModule) (m : JsonModule) :
  find_by_name target_module_name module_class_name module_list = Some m ->
  let class_name := Text.slice_from target_module_name (module_class_name + 1)%Z in
  Text.lower (get_id m) = target_module_name
  \/ Text.lower (get_name m) = target_module_name
  \/ Text.lower (get_id m) = class_name
  \/ Text.lower (get_name m) = class_name.
Proof.
  intros H class_name. revert H.
  induction module_list as [|module rest IH]; simpl; [discriminate|].
  destruct (String.eqb (Text.lower (get_id module)) target_module_name
            || String.eqb (Text.lower (get_name module)) target_module_name)
    eqn:E1.
  - intros H. injection H as <-.
    apply orb_true_iff in E1 as [E | E]; apply String.eqb_eq in E; auto.
  - fold class_name.
    destruct (negb (Z.eqb module_class_name (-1))
              && String.eqb (Text.lower (get_id module)) class_name
              || String.eqb (Text.lower (get_name module)) class_name) eqn:E2.
    + intros H. injection H as <-.
      apply orb_true_iff in E2 as [E | E].
      * apply andb_true_iff in E as [_ E]. apply String.eqb_eq in E. auto.
      * apply String.eqb_eq in E. auto.
    + exact IH.
Qed.

Lemma find_by_value_match (target_module_name : string) (module_class_name : Z)
      (module_list : list JsonModule) (target_module : option JsonModule)
      (m : JsonModule) :
  find_by_value target_module_name module_class_name module_list target_module
  = Ok (Some m) ->
  is_value_in_config m target_module_name = Ok true
  \/ is_value_in_config
       m (Text.slice_from target_module_name (module_class_name + 1)%Z) = Ok true
  \/ target_module = Some m.
Proof.
  revert target_module.
  induction module_list as [|module rest IH]; intros target_module; simpl.
  - intros H. injection H as ->. auto.
  - destruct (is_value_in_config module target_module_name) as [in_config|e]
      eqn:A; simpl; [|discriminate].
    destruct in_config; simpl.
    + intros H. destruct (IH _ H) as [G | [G | G]]; auto.
      injection G as <-. auto.
    + destruct (negb (Z.eqb module_class_name (-1))); simpl.
      * destruct (is_value_in_config
                    module (Text.slice_from target_module_name
                                            (module_class_name + 1)%Z))
          as [[|]|e] eqn:B; simpl; try discriminate;
          intros H; destruct (IH _ H) as [G | [G | G]]; auto.
        injection G as <-. auto.
      * intros H. destruct (IH _ H) as [G | [G | G]]; auto.
Qed.

Lemma find_module_in_list (target_module_name : string)
      (module_list : list JsonModule) (m : JsonModule) :
  find_module target_module_name module_list = Ok m ->
  In m module_list.
Proof.
  unfold find_module.
  destruct (find_by_name _ _ module_list) as [t|] eqn:N.
  - intros H. injection H as <-. eapply find_by_name_member; eauto.
  - destruct (find_by_value _ _ module_list None) as [[t|]|e] eqn:V; simpl;
      try discriminate.
    intros H. injection H as <-.
    destruct (find_by_value_member _ _ _ _ _ V) as [G | G]; [exact G | discriminate].
Qed.

(** X26: the module that [find_module] returns is one of the modules of
    the list, and it matches the name: its id or its display name is the
    name, or the part of the name after the last dot, or one of its
    entries holds one of the two as value; letters compared in lower
    case. *)
Theorem find_module_member (target_module_name : string)
        (module_list : list JsonModule) (m : JsonModule) :
  find_module target_module_name module_list = Ok m ->
  let name := Text.lower target_module_name in
  let class_name := Text.slice_from name (Text.rfind "." name + 1)%Z in
  In m module_list
  /\ (Text.lower (get_id m) = name \/ Text.lower (get_name m) = name
      \/ Text.lower (get_id m) = class_name
      \/ Text.lower (get_name m) = class_name
      \/ is_value_in_config m name = Ok true
      \/ is_value_in_config m class_name = Ok true).
Proof.
  intros H name class_name. split; [eapply find_module_in_list; eauto|].
  revert H. unfold find_module. fold name. fold class_name.
  destruct (find_by_name name (Text.rfind "." name) module_list) as [t|] eqn:N.
  - intros H. injection H as <-.
    destruct (find_by_name_match _ _ _ _ N) as [G | [G | [G | G]]]; auto.
  - destruct (find_by_value name (Text.rfind "." name) module_list None)
      as [[t|]|e] eqn:V; simpl; try discriminate.
    intros H. injection H as <-.
    destruct (find_by_value_match _ _ _ _ _ V) as [G | [G | G]];
      [auto 7 | auto 7 | discriminate].
Qed.

Lemma find_by_name_matches (target_module_name : string) (module_class_name : Z)
      (module_list : list JsonModule) (m : JsonModule) :
  In m module_list ->
  Text.lower (get_id m) = target_module_name
  \/ Text.lower (get_name m) = target_module_name ->
  exists m', find_by_name target_module_name module_class_name module_list = Some m'.
Proof.
  intros Hin Hm. induction module_list as [|module rest IH]; [destruct Hin|].
  simpl.
  destruct (String.eqb (Text.lower (get_id module)) target_module_name
            || String.eqb (Text.lower (get_name module)) target_module_name)
    eqn:E1; [eauto|].
  match goal with
  | |- exists _, (if ?b then _ else _) = _ => destruct b; [eauto|]
  end.
  destruct Hin as [-> | Hin]; [|now apply IH].
  apply orb_false_iff in E1 as [Ea Eb].
  destruct Hm as [Hm | Hm]; apply String.eqb_eq in Hm; congruence.
Qed.

(** X27: a name that is the id or the display name of a module of the
    list, whatever the case of the letters, is resolved by the first loop:
    [find_module] returns a module of the list and does not look at the
    values of the entries, so that no unset entry can make it raise. *)
Theorem find_module_by_id_or_name (target_module_name : string)
        (module_list : list JsonModule) (m : JsonModule) :
  In m module_list ->
  Text.lower (get_id m) = Text.lower target_module_name
  \/ Text.lower (get_name m) = Text.lower target_module_name ->
  exists m', find_module target_module_name module_list = Ok m'
             /\ In m' module_list.
Proof.
  intros Hin Hm. unfold find_module.
  destruct (find_by_name_matches _ (Text.rfind "." (Text.lower target_module_name))
                                 _ _ Hin Hm) as [m' N].
  rewrite N. exists m'. split; [reflexivity|]. eapply find_by_name_member; eauto.
Qed.

(** ** config_build_for_name *)

Section BuildForName.

Variable MODULE_TYPE : string.
Variable MODULE_PLATFORM : string.
Variable ask_user_for_input : Configuration -> pyval -> bool -> pyval.

Lemma update_module_loop_returns (items : pydict) :
  update_module_loop items = Ok tt -> all_none items = true.
Proof.
  induction items as [|[k v] items IH]; simpl; [reflexivity|].
  destruct (is_none v); simpl; [exact IH | discriminate].
Qed.

(** X28: [config_build_for_name] passes the module itself to
    [_update_settings] as the settings to update, and the class has no
    method for the test [key not in target]: the call returns a module
    only when the environment has no property, or only properties that are
    [None].  The module it returns is then a module of the list as
    [config_build] left it. *)
Theorem config_build_for_name_returns (lean_config : pyval)
        (target_module_name : string) (module_list : list JsonModule)
        (properties : pydict) (interactive : bool)
        (environment_name : option string) (m : JsonModule) (log : list event) :
  config_build_for_name MODULE_TYPE MODULE_PLATFORM ask_user_for_input
                        lean_config target_module_name module_list properties
                        interactive environment_name = (Ok m, log) ->
  (exists props, _get_env_properties environment_name lean_config = PDict props
                 /\ all_none props = true)
  /\ exists found, In found module_list
                   /\ find_module target_module_name module_list = Ok found
                   /\ config_build MODULE_TYPE MODULE_PLATFORM ask_user_for_input
                                   found lean_config interactive [] properties
                                   environment_name false = (Ok tt, m, log).
Proof.
  unfold config_build_for_name.
  destruct (find_module target_module_name module_list) as [found|e] eqn:F;
    [|discriminate].
  destruct (config_build _ _ _ found _ _ _ _ _ _) as [[[[]|e] m'] log'] eqn:B;
    [|discriminate].
  unfold _update_settings_of_module.
  destruct (_get_env_properties environment_name lean_config)
    as [| | | | |props] eqn:P; try discriminate.
  destruct (update_module_loop props) as [[]|e] eqn:U; [|discriminate].
  intros H. injection H as <- <-. split.
  - exists props. split; [reflexivity | now apply update_module_loop_returns].
  - exists found. split; [eapply find_module_in_list; eauto|]. now split.
Qed.

End BuildForName.

(** ** Spellings of a key *)

Lemma to_lean_of_var (s : string) :
  convert_variable_to_lean_key (convert_lean_key_to_variable s)
  = convert_variable_to_lean_key s.
Proof.
  unfold convert_lean_key_to_variable, convert_variable_to_lean_key.
  induction s as [|c s IH]; simpl; [reflexivity|].
  rewrite IH. f_equal.
  destruct (Ascii.eqb c "-") eqn:E.
  - apply Ascii.eqb_eq in E; subst c. reflexivity.
  - reflexivity.
Qed.

Lemma to_lean_without_underscore (s : string) :
  Str.has_char "_" s = false -> convert_variable_to_lean_key s = s.
Proof.
  unfold convert_variable_to_lean_key.
  induction s as [|c s IH]; simpl; [reflexivity|].
  intros H. apply orb_false_iff in H as [Hc Hs].
  rewrite Hc, (IH Hs). reflexivity.
Qed.

Lemma written_lean_of (k id : string) :
  written k (convert_variable_to_lean_key id) = same_key k id.
Proof.
  destruct (same_key k id) eqn:E.
  - unfold same_key in E. apply String.eqb_eq in E.
    assert (L : convert_variable_to_lean_key k = convert_variable_to_lean_key id)
      by (rewrite <- (to_lean_of_var k), E; apply to_lean_of_var).
    rewrite <- L. unfold written. destruct (Str.has_char "_" k) eqn:U.
    + rewrite String.eqb_refl. simpl. now rewrite orb_true_r.
    + rewrite (to_lean_without_underscore k U), String.eqb_refl. reflexivity.
  - destruct (written k (convert_variable_to_lean_key id)) eqn:W; [|reflexivity].
    apply written_same_key in W.
    assert (S : same_key (convert_variable_to_lean_key id) id = true).
    { unfold same_key. rewrite to_var_of_lean. apply String.eqb_refl. }
    rewrite (same_key_trans _ _ _ W S) in E. discriminate.
Qed.

Lemma normalized_get_lean_from (opts out : pydict) (id : string) (found : option pyval) :
  dict_get out (convert_variable_to_lean_key id) = found ->
  dict_get (fold_left (fun out kv => normalized_insert out (fst kv) (snd kv)) opts out)
           (convert_variable_to_lean_key id)
  = fold_left (fun found kv => if same_key (fst kv) id then Some (snd kv) else found)
              opts found.
Proof.
  revert out found. induction opts as [|[k v] opts IH]; intros out found H; simpl.
  - exact H.
  - apply IH. rewrite get_normalized_insert, written_lean_of, H. reflexivity.
Qed.

(** X29: the normalised options map answers under both plain spellings of
    a key.  Under the spelling with hyphens only and under the spelling
    with underscores only it holds the same thing: the value of the last
    option of the caller that spells the key in any way, and nothing when
    no option does. *)
Theorem normalized_options_both_spellings (opts : pydict) (id : string) :
  dict_get (_normalized_options_map opts) (convert_variable_to_lean_key id)
  = lookup_spelled opts id
  /\ dict_get (_normalized_options_map opts) (convert_lean_key_to_variable id)
     = lookup_spelled opts id.
Proof.
  split.
  - unfold _normalized_options_map, lookup_spelled. now apply normalized_get_lean_from.
  - apply normalized_get_var.
Qed.

(** X30: for a key of the configuration, written with hyphens and without
    an underscore, the two conversions are inverse: the variable name
    leads back to the key. *)
Theorem convert_key_round_trip (lean_key : string) :
  Str.has_char "_" lean_key = false ->
  convert_variable_to_lean_key (convert_lean_key_to_variable lean_key) = lean_key.
Proof.
  intros H. now rewrite to_lean_of_var, to_lean_without_underscore.
Qed.

(** ** Examples for the further properties *)

(** X3, example: a required entry without a value anywhere; the user is
    asked, accepts the suggested default, and the answer is saved. *)
Lemma config_build_interactive_no_missing_witness :
  Sample.resolve (Sample.module_of [Cases.trading_mode]) (PDict []) true [] []
  = (Ok [], [set_value Cases.trading_mode (PStr "paper")],
     [Prompted "ib-trading-mode" (PStr "paper") false;
      SavedProperty "ib-trading-mode" (PStr "paper")]).
Proof.
  exact (config_build_interactive_no_missing
           Sample.MODULE_TYPE Sample.MODULE_PLATFORM Sample.ask
           (Sample.module_of [Cases.trading_mode]) (PDict []) [] [] None false
           (Ok tt)
           (Sample.module_of [set_value Cases.trading_mode (PStr "paper")])
           [Prompted "ib-trading-mode" (PStr "paper") false;
            SavedProperty "ib-trading-mode" (PStr "paper")]
           eq_refl).
Defined.

(** X4, example: the entry behind a condition that does not hold keeps its
    value, [None]. *)
Lemma config_build_inactive_untouched_witness :
  nth_error (snd (fst (Sample.resolve Cases.behind_mode (PDict []) false [] []))) 1
  = Some Sample.gated_reversed.
Proof.
  exact (config_build_inactive_untouched
           Sample.MODULE_TYPE Sample.MODULE_PLATFORM Sample.ask
           Cases.behind_mode (PDict []) [] [] None false false []
           (snd (fst (Sample.resolve Cases.behind_mode (PDict []) false [] [])))
           [] 1 Sample.gated_reversed eq_refl eq_refl eq_refl).
Defined.

(** X5, example: the required entry [ib-account] with a property. *)
Lemma config_build_required_has_value_witness :
  exists c',
    nth_error (_lean_configs
                 (snd (fst (Sample.build Sample.one_entry (PDict []) false
                                         [] Sample.from_properties)))) 0 = Some c'
    /\ same_shape c' Sample.account /\ is_none (_value c') = false.
Proof.
  exact (config_build_required_has_value
           Sample.MODULE_TYPE Sample.MODULE_PLATFORM Sample.ask
           Sample.one_entry (PDict []) [] Sample.from_properties None false
           (snd (fst (Sample.build Sample.one_entry (PDict []) false
                                   [] Sample.from_properties)))
           [] 0 Sample.account eq_refl eq_refl eq_refl eq_refl).
Defined.

(** X6, example: an optional entry with a declared default and nothing
    else takes the declared default. *)
Lemma config_build_optional_default_witness :
  Sample.value_at
    (snd (fst (Sample.resolve (Sample.module_of [Sample.restart_with_default])
                              (PDict []) false [] []))) 0
  = Some (PStr "22:00:00").
Proof.
  unfold Sample.value_at.
  rewrite (config_build_optional_default
             Sample.MODULE_TYPE Sample.MODULE_PLATFORM Sample.ask
             (Sample.module_of [Sample.restart_with_default]) (PDict []) [] []
             None false []
             (snd (fst (Sample.resolve (Sample.module_of [Sample.restart_with_default])
                                       (PDict []) false [] [])))
             [] 0 Sample.restart_with_default
             eq_refl eq_refl eq_refl eq_refl eq_refl eq_refl eq_refl).
  reflexivity.
Defined.

(** X7, example: the block of the environment [live] has the key. *)
Lemma get_default_environment_first_witness :
  get_default (PDict Cases.layered) "ib-account" (Some "live") = Ok (PStr "of-live").
Proof.
  exact (get_default_environment_first
           Cases.layered Cases.environments Cases.live_block "ib-account" "live"
           eq_refl eq_refl eq_refl).
Defined.

(** X8, example: the environment [paper] is not declared. *)
Lemma get_default_top_level_witness :
  get_default (PDict Cases.layered) "ib-account" (Some "paper") = Ok (PStr "of-top").
Proof.
  apply (get_default_top_level Cases.layered "ib-account" (Some "paper")).
  right. right. right. exists Cases.environments, "paper"%string.
  split; [reflexivity|]. split; reflexivity.
Defined.

(** X10, example: the one path of a module with a path entry. *)
Lemma get_paths_to_mount_origin_witness :
  exists c, In c (_lean_configs Cases.mounted)
            /\ kind c = PathParameterUserInput
            /\ _id c = "ib-gateway"%string /\ _value c = PStr "/opt/ib"
            /\ _check_if_config_passes_filters
                 Sample.MODULE_TYPE Sample.MODULE_PLATFORM Cases.mounted c false
               = Ok true.
Proof.
  exact (get_paths_to_mount_origin
           Sample.MODULE_TYPE Sample.MODULE_PLATFORM Cases.mounted
           [("ib-gateway"%string, PStr "/opt/ib")] "ib-gateway" (PStr "/opt/ib")
           eq_refl eq_refl).
Defined.

(** X11, example: the filter of the second path entry names an entry that
    the module does not have. *)
Lemma get_paths_to_mount_propagates_witness :
  get_paths_to_mount Sample.MODULE_TYPE Sample.MODULE_PLATFORM
                     (Sample.module_of [Cases.gateway; Cases.lost_path])
  = Raise ValueError.
Proof.
  apply (get_paths_to_mount_propagates
           Sample.MODULE_TYPE Sample.MODULE_PLATFORM
           (Sample.module_of [Cases.gateway; Cases.lost_path])
           [Cases.gateway] [] Cases.lost_path ValueError).
  - reflexivity.
  - intros d [<- | []] _. exists true. reflexivity.
  - reflexivity.
  - reflexivity.
Defined.

(** X12, example: the path in the mapping of the composite entry reaches
    the settings with its backslash. *)
Lemma get_settings_backslash_origin_witness :
  ("ib-home"%string = "id"%string
   /\ Cases.windows_home = _module_id (Sample.module_of [Cases.keyed]))
  \/ exists c d v,
       In c (_lean_configs (snd (fst (Sample.settings_call
                                       (Sample.module_of [Cases.keyed])))))
       /\ _check_if_config_passes_filters
            Sample.MODULE_TYPE Sample.MODULE_PLATFORM
            (snd (fst (Sample.settings_call (Sample.module_of [Cases.keyed]))))
            c false = Ok true
       /\ kind c = AuthConfiguration /\ _value c = PDict d
       /\ In ("ib-home"%string, v) d /\ Cases.windows_home = Repr.py_str v.
Proof.
  exact (get_settings_backslash_origin
           Sample.MODULE_TYPE Sample.MODULE_PLATFORM
           (Sample.module_of [Cases.keyed]) PNone None false
           (Sample.settings_of (Sample.module_of [Cases.keyed]))
           (snd (fst (Sample.settings_call (Sample.module_of [Cases.keyed]))))
           (snd (Sample.settings_call (Sample.module_of [Cases.keyed])))
           "ib-home" Cases.windows_home eq_refl eq_refl eq_refl).
Defined.

(** X13, example: the id of the sample module. *)
Lemma get_settings_has_id_witness :
  dict_get (Sample.settings_of Cases.mounted) "id"
  = Some "InteractiveBrokersBrokerage"%string.
Proof.
  destruct (get_settings_has_id
              Sample.MODULE_TYPE Sample.MODULE_PLATFORM Cases.mounted PNone None false
              (Sample.settings_of Cases.mounted)
              (snd (fst (Sample.settings_call Cases.mounted)))
              (snd (Sample.settings_call Cases.mounted)) eq_refl) as [_ H].
  exact (H eq_refl).
Defined.

(** X14, example: the key [mode] of the settings. *)
Lemma get_settings_keys_witness :
  "mode"%string = "id"%string
  \/ exists c, In c (_lean_configs (snd (fst (Sample.settings_call Cases.mounted))))
               /\ writes_key c "mode" = true
               /\ _check_if_config_passes_filters
                    Sample.MODULE_TYPE Sample.MODULE_PLATFORM
                    (snd (fst (Sample.settings_call Cases.mounted))) c false
                  = Ok true.
Proof.
  exact (get_settings_keys
           Sample.MODULE_TYPE Sample.MODULE_PLATFORM Cases.mounted PNone None false
           (Sample.settings_of Cases.mounted)
           (snd (fst (Sample.settings_call Cases.mounted)))
           (snd (Sample.settings_call Cases.mounted)) "mode" eq_refl eq_refl).
Defined.

(** X15, example: the setting of the entry [mode]. *)
Lemma get_settings_value_witness :
  dict_get (Sample.settings_of Cases.mounted) "mode" = Some "paper"%string.
Proof.
  exact (get_settings_value
           Sample.MODULE_TYPE Sample.MODULE_PLATFORM Cases.mounted PNone None false
           (Sample.settings_of Cases.mounted)
           (snd (fst (Sample.settings_call Cases.mounted)))
           (snd (Sample.settings_call Cases.mounted)) 0 Sample.mode
           eq_refl eq_refl eq_refl eq_refl eq_refl).
Defined.

(** X16, example: of the three entries of the sample module two are
    conditional. *)
Lemma get_settings_writes_conditionals_only_witness :
  Forall2 (fun d d' => same_shape d' d
                       /\ (is_conditional_internal d = false -> d' = d))
          (prefill_if_context PNone None false (_lean_configs Sample.backward_module))
          (_lean_configs (snd (fst (Sample.settings_call Sample.backward_module)))).
Proof.
  exact (get_settings_writes_conditionals_only
           Sample.MODULE_TYPE Sample.MODULE_PLATFORM Sample.backward_module
           PNone None false
           (Sample.settings_of Sample.backward_module)
           (snd (fst (Sample.settings_call Sample.backward_module)))
           (snd (Sample.settings_call Sample.backward_module)) eq_refl).
Defined.

(** X17, example: the environment overrides the list-like key; the
    setting of [ib-account] stays. *)
Lemma update_settings_frame_witness :
  dict_get (snd (_update_settings
                   Json.loads (Some "env")
                   (("ib-account"%string, PStr "U1") :: Sample.handler_settings [PStr "A"])
                   (Sample.handler_override (PStr "A, B"))))
           "ib-account"
  = Some (PStr "U1").
Proof.
  exact (update_settings_frame
           Json.loads (Some "env"%string)
           (("ib-account"%string, PStr "U1") :: Sample.handler_settings [PStr "A"])
           (snd (_update_settings
                   Json.loads (Some "env")
                   (("ib-account"%string, PStr "U1") :: Sample.handler_settings [PStr "A"])
                   (Sample.handler_override (PStr "A, B"))))
           (Sample.handler_override (PStr "A, B")) (Ok tt) "ib-account"
           eq_refl eq_refl).
Defined.

(** X18, example: the same override without an environment name. *)
Lemma update_settings_without_environment_witness :
  _update_settings Json.loads None (Sample.handler_settings [PStr "A"])
                   (Sample.handler_override (PStr "A, B"))
  = (Ok tt, Sample.handler_settings [PStr "A"]).
Proof.
  exact (update_settings_without_environment
           Json.loads None (Sample.handler_settings [PStr "A"])
           (Sample.handler_override (PStr "A, B")) (or_introl eq_refl)).
Defined.

(** X19, example: the property [ib-account] replaces the setting. *)
Lemma update_settings_overwrites_witness :
  dict_get (snd (_update_settings Json.loads (Some "env")
                                  [("ib-account"%string, PStr "U0")]
                                  Cases.account_override))
           "ib-account"
  = Some (PStr "U1").
Proof.
  apply (update_settings_overwrites
           Json.loads (Some "env"%string) [("ib-account"%string, PStr "U0")]
           (snd (_update_settings Json.loads (Some "env")
                                  [("ib-account"%string, PStr "U0")]
                                  Cases.account_override))
           Cases.account_properties Cases.account_override "ib-account" (PStr "U1")).
  - reflexivity.
  - constructor; [intros [] | constructor].
  - now left.
  - reflexivity.
  - now left.
  - reflexivity.
Defined.

(** X20, example: merging the array of B and C into the list of A, B and
    C again. *)
Lemma update_settings_again_witness :
  _update_settings Json.loads (Some "env") Cases.merged_handlers
                   (Sample.handler_override (PStr Sample.array_text))
  = (Ok tt, Cases.merged_handlers).
Proof.
  apply (update_settings_again
           Json.loads (Some "env"%string) (Sample.handler_settings [PStr "A"])
           Cases.merged_handlers
           [("data-queue-handler"%string, PStr Sample.array_text)]
           (Sample.handler_override (PStr Sample.array_text))).
  - reflexivity.
  - constructor; [intros [] | constructor].
  - intros k v [H | []] _ _. injection H as <- <-.
    exists [PStr "A"]. reflexivity.
  - reflexivity.
Defined.

(** X21, example: the list of A and B merged with the array of B and C. *)
Lemma update_settings_merged_distinct_witness :
  exists merged,
    dict_get (snd (_update_settings
                     Json.loads (Some "env")
                     (Sample.handler_settings [PStr "A"; PStr "B"])
                     (Sample.handler_override (PStr Sample.array_text))))
             "data-queue-handler" = Some (PList merged)
    /\ fromkeys merged = Ok merged
    /\ fromkeys ([PStr "A"; PStr "B"]
                   ++ parse_list_value Json.loads (PStr Sample.array_text))
       = Ok merged.
Proof.
  apply (update_settings_merged_distinct
           Json.loads (Some "env"%string)
           (Sample.handler_settings [PStr "A"; PStr "B"])
           (snd (_update_settings
                   Json.loads (Some "env")
                   (Sample.handler_settings [PStr "A"; PStr "B"])
                   (Sample.handler_override (PStr Sample.array_text))))
           [("data-queue-handler"%string, PStr Sample.array_text)]
           (Sample.handler_override (PStr Sample.array_text))
           "data-queue-handler" (PStr Sample.array_text) [PStr "A"; PStr "B"]).
  - reflexivity.
  - constructor; [intros [] | constructor].
  - now left.
  - reflexivity.
  - reflexivity.
  - reflexivity.
  - reflexivity.
Defined.

(** X24, example: the value of [mode] is found in capitals. *)
Lemma is_value_in_config_found_witness :
  exists c value, In c (_lean_configs Cases.mounted)
                  /\ lower_value (_value c) = Ok value
                  /\ py_in (Text.lower "PAPER") value = Ok true.
Proof.
  exact (is_value_in_config_found Cases.mounted "PAPER" eq_refl).
Defined.

(** X25, example: no entry of the sample module holds the value. *)
Lemma is_value_in_config_false_all_set_witness :
  is_value_in_config Cases.mounted "live" = Ok false
  /\ match _value Cases.gateway with
     | PStr _ | PList _ | PDict _ => True
     | _ => False
     end.
Proof.
  split; [reflexivity|].
  exact (is_value_in_config_false_all_set
           Cases.mounted "live" eq_refl Cases.gateway (or_intror (or_introl eq_refl))).
Defined.

(** X26, example: a module found by the value of an entry. *)
Lemma find_module_member_witness :
  In Cases.mounted [Sample.module_of [Sample.mode]; Cases.mounted]
  /\ is_value_in_config Cases.mounted "/opt/ib" = Ok true.
Proof.
  destruct (find_module_member "/opt/ib" [Sample.module_of [Sample.mode]; Cases.mounted]
                               Cases.mounted eq_refl)
    as [Hin [H | [H | [H | [H | [H | H]]]]]]; try discriminate H;
    (split; [exact Hin | exact H]).
Defined.

(** X27, example: the display name in capitals. *)
Lemma find_module_by_id_or_name_witness :
  exists m', find_module "INTERACTIVE BROKERS" [Sample.one_entry] = Ok m'
             /\ In m' [Sample.one_entry].
Proof.
  exact (find_module_by_id_or_name
           "INTERACTIVE BROKERS" [Sample.one_entry] Sample.one_entry
           (or_introl eq_refl) (or_intror eq_refl)).
Defined.

(** X28, example: a build by name without an environment. *)
Lemma config_build_for_name_returns_witness :
  (exists props, _get_env_properties None (PDict []) = PDict props
                 /\ all_none props = true)
  /\ exists found,
       In found [Sample.one_entry]
       /\ find_module "Interactive Brokers" [Sample.one_entry] = Ok found
       /\ config_build Sample.MODULE_TYPE Sample.MODULE_PLATFORM Sample.ask
                       found (PDict []) false [] Sample.from_properties None false
          = (Ok tt,
             Sample.module_of [set_value Sample.account (PStr "from-properties")], []).
Proof.
  exact (config_build_for_name_returns
           Sample.MODULE_TYPE Sample.MODULE_PLATFORM Sample.ask
           (PDict []) "Interactive Brokers" [Sample.one_entry]
           Sample.from_properties false None
           (Sample.module_of [set_value Sample.account (PStr "from-properties")])
           [] eq_refl).
Defined.

(** X30, example: a key of the configuration. *)
Lemma convert_key_round_trip_witness :
  convert_variable_to_lean_key (convert_lean_key_to_variable "ib-user-name")
  = "ib-user-name"%string.
Proof. exact (convert_key_round_trip "ib-user-name" eq_refl). Defined.
